(** * ADF to text conversion ([mcp_atlassian/models/jira/adf.py])

    A shallow embedding of the converter [adf_to_text] and of its helpers
    [_has_code_mark], [_get_text_without_code_mark], [_apply_marks] and
    [_process_content_list], together with the properties stated about
    them.

    The input of the converter is an untyped tree decoded from JSON.  It is
    modelled by the type [value] of Python values: [None], booleans,
    integers, strings, lists and dictionaries with string keys.  Floats
    are outside the model.  A Python call either returns a
    value or raises an exception; this is the type [result].

    A string is a Rocq [string]: a sequence of characters with code points
    below 256.  The models of the interpreter's built-in operations
    ([int], [str], [repr], [str.split], [str.join], [datetime]) are exact
    on such strings for CPython on a platform with a 64-bit [time_t].

    The functions on [value] hold the input as a tree and leave the
    interpreter's recursion limit out.  A second model, [Store], runs the
    same code on a store of objects, where a list or a dictionary is a
    reference, the writes of the source are writes to the store, and a
    call counts against the recursion limit.  The store run on a tree of
    the store is shown to return what the function on the tree returns
    ([StoreRefines.adf_to_text_run]).

    Two points of the date rule depend on the platform.  [strftime]
    is modelled as on glibc, where the years below 1000 are printed
    without leading zeros; other C libraries print four digits.  And
    for the milliseconds whose quotient by 1000 rounds to the float 2^63
    itself (from [time_sup_ms] to [time_over_ms]) the model has
    [OverflowError], where CPython 3.11 raises [OSError], which the
    converter catches.  The properties of the date rule keep clear of
    both: they are stated for the years from 1000 on and outside that
    band. *)

From Stdlib Require Import ZArith List String Ascii Bool Lia.
From Stdlib Require Import DecimalString.
From Stdlib Require DecimalFacts.
Import ListNotations.

Set Warnings "-register-all".

Open Scope string_scope.
Open Scope Z_scope.

(** ** Python values and exceptions *)

(** A dictionary is its list of items in insertion order (the order shows
    in [repr]).  The keys of a Python dictionary are distinct; a lookup
    takes the first binding of the key. *)
Inductive value : Type :=
| VNone
| VBool (b : bool)
| VInt (z : Z)
| VStr (s : string)
| VList (l : list value)
| VDict (d : list (string * value)).

Inductive exn : Type :=
| AttributeError
| TypeError
| ValueError
| OverflowError
| OSError.

Inductive result (A : Type) : Type :=
| Ok (a : A)
| Raise (e : exn).

Arguments Ok {A} a.
Arguments Raise {A} e.

Definition bind {A B : Type} (m : result A) (k : A -> result B) : result B :=
  match m with
  | Ok a => k a
  | Raise e => Raise e
  end.

Notation "x <- m ;; k" := (bind m (fun x => k))
  (at level 61, m at next level, right associativity).

(** The induction principle of [value] that reaches the elements of a list
    and the values of a dictionary. *)
Section ValueInd.
Variable P : value -> Prop.
Hypothesis HNone : P VNone.
Hypothesis HBool : forall b, P (VBool b).
Hypothesis HInt : forall z, P (VInt z).
Hypothesis HStr : forall s, P (VStr s).
Hypothesis HList : forall l, Forall P l -> P (VList l).
Hypothesis HDict : forall d, Forall (fun kv => P (snd kv)) d -> P (VDict d).

Fixpoint value_rect' (v : value) : P v :=
  match v with
  | VNone => HNone
  | VBool b => HBool b
  | VInt z => HInt z
  | VStr s => HStr s
  | VList l =>
      HList l ((fix go (l : list value) : Forall P l :=
                  match l with
                  | [] => Forall_nil P
                  | x :: l' => Forall_cons x (value_rect' x) (go l')
                  end) l)
  | VDict d =>
      HDict d ((fix go (d : list (string * value))
                  : Forall (fun kv => P (snd kv)) d :=
                  match d with
                  | [] => Forall_nil _
                  | kv :: d' =>
                      Forall_cons kv (value_rect' (snd kv)) (go d')
                  end) d)
  end.
End ValueInd.

(** ** Strings *)

Definition nl_char : ascii := ascii_of_nat 10.

(** The one-character string ["\n"]. *)
Definition nl : string := String nl_char EmptyString.

Definition str_is_empty (s : string) : bool :=
  match s with
  | EmptyString => true
  | String _ _ => false
  end.

(** ["\n" in s] *)
Fixpoint contains_nl (s : string) : bool :=
  match s with
  | EmptyString => false
  | String c s' => Ascii.eqb c nl_char || contains_nl s'
  end.

(** [s.split("\n")]: the pieces of [s] between newlines; never empty. *)
Fixpoint split_nl (s : string) : list string :=
  match s with
  | EmptyString => [EmptyString]
  | String c s' =>
      if Ascii.eqb c nl_char then EmptyString :: split_nl s'
      else match split_nl s' with
           | [] => [String c EmptyString]
           | line :: lines => String c line :: lines
           end
  end.

(** [sep.join(parts)] on strings. *)
Fixpoint join (sep : string) (parts : list string) : string :=
  match parts with
  | [] => EmptyString
  | [p] => p
  | p :: rest => p ++ sep ++ join sep rest
  end.

(** ** Truthiness, type tests, dictionary access *)

(** [bool(v)], as taken by [if v:], [not v] and [v or w]. *)
Definition truthy (v : value) : bool :=
  match v with
  | VNone => false
  | VBool b => b
  | VInt z => negb (z =? 0)
  | VStr s => negb (str_is_empty s)
  | VList l => match l with [] => false | _ => true end
  | VDict d => match d with [] => false | _ => true end
  end.

(** [v or w] *)
Definition py_or (v w : value) : value := if truthy v then v else w.

(** [v == s] for a string literal [s]. *)
Definition eq_str (v : value) (s : string) : bool :=
  match v with
  | VStr t => String.eqb t s
  | _ => false
  end.

Fixpoint lookup (d : list (string * value)) (k : string) : option value :=
  match d with
  | [] => None
  | (k', v) :: d' => if String.eqb k k' then Some v else lookup d' k
  end.

(** [d.get(k, dflt)] on a dictionary. *)
Definition dict_get_or (d : list (string * value)) (k : string)
  (dflt : value) : value :=
  match lookup d k with
  | Some v => v
  | None => dflt
  end.

(** [d.get(k)] on a dictionary. *)
Definition dict_get (d : list (string * value)) (k : string) : value :=
  dict_get_or d k VNone.

(** The receiver of a [.get] call: anything but a dictionary has no such
    attribute. *)
Definition as_dict (v : value) : result (list (string * value)) :=
  match v with
  | VDict d => Ok d
  | _ => Raise AttributeError
  end.

Definition char_str (c : ascii) : string := String c EmptyString.

Fixpoint chars (s : string) : list ascii :=
  match s with
  | EmptyString => []
  | String c s' => c :: chars s'
  end.

(** The elements produced by [for m in v]: the elements of a list, the
    characters of a string, the keys of a dictionary; other values are not
    iterable. *)
Definition py_iter (v : value) : result (list value) :=
  match v with
  | VList l => Ok l
  | VStr s => Ok (map (fun c => VStr (char_str c)) (chars s))
  | VDict d => Ok (map (fun kv => VStr (fst kv)) d)
  | _ => Raise TypeError
  end.

(** ** Conversions between integers and strings *)

(** The interpreter's default limit on the number of decimal digits in a
    conversion between [int] and [str] ([sys.get_int_max_str_digits()]);
    a longer conversion raises [ValueError]. *)
Definition int_max_str_digits : nat := 4300.

(** [str(z)]: decimal digits, with a minus sign when negative. *)
Definition str_of_int (z : Z) : result string :=
  let digits := NilZero.string_of_uint (N.to_uint (Z.abs_N z)) in
  if Nat.ltb int_max_str_digits (String.length digits) then Raise ValueError
  else Ok (if z <? 0 then "-" ++ digits else digits).

(** [ord(c)] *)
Definition ord (c : ascii) : nat := nat_of_ascii c.

Definition is_digit (c : ascii) : bool :=
  Nat.leb 48 (ord c) && Nat.leb (ord c) 57.

Definition underscore : ascii := ascii_of_nat 95.

(** The characters that [int] skips around a number: the ASCII white space
    and, above 127, the Unicode white space (NEL and no-break space). *)
Definition is_int_space (c : ascii) : bool :=
  let n := ord c in
  (Nat.leb 9 n && Nat.leb n 13) || Nat.eqb n 32 || Nat.eqb n 133
  || Nat.eqb n 160.

Fixpoint drop_spaces (cs : list ascii) : list ascii :=
  match cs with
  | c :: cs' => if is_int_space c then drop_spaces cs' else cs
  | [] => []
  end.

(** The digits and single underscores of a decimal literal: it starts and
    ends with a digit and has no two underscores in a row.  [prev_digit]
    tells whether the previous character was a digit; the result is the
    list of the digits. *)
Fixpoint scan_digits (prev_digit : bool) (cs : list ascii)
  : option (list ascii) :=
  match cs with
  | [] => if prev_digit then Some [] else None
  | c :: cs' =>
      if is_digit c then
        match scan_digits true cs' with
        | Some ds => Some (c :: ds)
        | None => None
        end
      else if Ascii.eqb c underscore && prev_digit then scan_digits false cs'
      else None
  end.

Definition digits_value (ds : list ascii) : Z :=
  fold_left (fun acc c => 10 * acc + Z.of_nat (ord c - 48)) ds 0.

(** [int(s)] on a string: optional white space, an optional sign, decimal
    digits with single underscores between them, optional white space. *)
Definition int_of_str (s : string) : result Z :=
  let cs := rev (drop_spaces (rev (drop_spaces (chars s)))) in
  let '(negative, body) :=
    match cs with
    | c :: cs' =>
        if Nat.eqb (ord c) 45 then (true, cs')
        else if Nat.eqb (ord c) 43 then (false, cs')
        else (false, cs)
    | [] => (false, cs)
    end in
  match scan_digits false body with
  | Some ds =>
      if Nat.ltb int_max_str_digits (List.length ds) then Raise ValueError
      else Ok (if negative then - digits_value ds else digits_value ds)
  | None => Raise ValueError
  end.

(** [int(v)] *)
Definition py_int (v : value) : result Z :=
  match v with
  | VInt z => Ok z
  | VBool b => Ok (if b then 1 else 0)
  | VStr s => int_of_str s
  | _ => Raise TypeError
  end.

(** ** [repr] and [str] *)

Definition quote1 : ascii := ascii_of_nat 39.
Definition quote2 : ascii := ascii_of_nat 34.
Definition backslash : ascii := ascii_of_nat 92.

Fixpoint has_char (c : ascii) (s : string) : bool :=
  match s with
  | EmptyString => false
  | String c' s' => Ascii.eqb c c' || has_char c s'
  end.

Definition hex_digit (n : nat) : ascii :=
  if Nat.ltb n 10 then ascii_of_nat (48 + n) else ascii_of_nat (87 + n).

Definition hex_escape (n : nat) : string :=
  String backslash
    (String (ascii_of_nat 120)
       (String (hex_digit (Nat.div n 16))
          (String (hex_digit (Nat.modulo n 16)) EmptyString))).

(** One character of the [repr] of a string delimited by [q].  The
    characters below 256 that are not printable are the controls
    0-31 and 127-159, the no-break space 160 and the soft hyphen 173. *)
Definition repr_char (q c : ascii) : string :=
  let n := ord c in
  if Ascii.eqb c q || Ascii.eqb c backslash then String backslash (char_str c)
  else if Nat.eqb n 9 then String backslash "t"
  else if Nat.eqb n 10 then String backslash "n"
  else if Nat.eqb n 13 then String backslash "r"
  else if Nat.ltb n 32 then hex_escape n
  else if Nat.ltb n 127 then char_str c
  else if Nat.leb n 160 || Nat.eqb n 173 then hex_escape n
  else char_str c.

(** [repr(s)] on a string: single quotes, unless the string has a single
    quote and no double quote. *)
Definition repr_str (s : string) : string :=
  let q := if has_char quote1 s && negb (has_char quote2 s)
           then quote2 else quote1 in
  String q (concat EmptyString (map (repr_char q) (chars s)) ++ char_str q).

Section ReprItems.
(** The [repr] of the elements of a container: [py_repr] itself. *)
Variable repr : value -> result string.

Fixpoint repr_items (items : list value) : result (list string) :=
  match items with
  | [] => Ok []
  | x :: rest => r <- repr x ;; rs <- repr_items rest ;; Ok (r :: rs)
  end.

Fixpoint repr_dict_items (items : list (string * value))
  : result (list string) :=
  match items with
  | [] => Ok []
  | (k, x) :: rest =>
      r <- repr x ;; rs <- repr_dict_items rest ;;
      Ok ((repr_str k ++ ": " ++ r) :: rs)
  end.
End ReprItems.

(** [repr(v)] *)
Fixpoint py_repr (v : value) : result string :=
  match v with
  | VNone => Ok "None"
  | VBool b => Ok (if b then "True" else "False")
  | VInt z => str_of_int z
  | VStr s => Ok (repr_str s)
  | VList items =>
      rs <- repr_items py_repr items ;; Ok ("[" ++ join ", " rs ++ "]")
  | VDict items =>
      rs <- repr_dict_items py_repr items ;;
      Ok ("{" ++ join ", " rs ++ "}")
  end.

(** [str(v)], which is also what an f-string field [{v}] inserts. *)
Definition py_str (v : value) : result string :=
  match v with
  | VStr s => Ok s
  | _ => py_repr v
  end.

(** ** Dates *)

(** The proleptic Gregorian date (year, month, day) of a day number
    counted from 1970-01-01. *)
Definition civil_from_days (days : Z) : Z * Z * Z :=
  let z := days + 719468 in
  let era := z / 146097 in
  let doe := z - era * 146097 in
  let yoe := (doe - doe / 1460 + doe / 36524 - doe / 146096) / 365 in
  let doy := doe - (365 * yoe + yoe / 4 - yoe / 100) in
  let mp := (5 * doy + 2) / 153 in
  let d := doy - (153 * mp + 2) / 5 + 1 in
  let m := if mp <? 10 then mp + 3 else mp - 9 in
  let y := yoe + era * 400 in
  (if m <=? 2 then y + 1 else y, m, d).

(** [datetime.fromtimestamp(ms / 1000, tz=timezone.utc)], reduced to the
    date that [strftime] prints.  [ms / 1000] is a float.  A float of
    2^63 seconds or more, or below -2^63, does not fit the platform's
    [time_t]: [OverflowError]; these are the [ms] whose quotient rounds
    to such a float.  An instant outside the years 1 to 9999 is
    rejected with [ValueError] (or [OSError] when [gmtime] fails; the
    caller handles both alike).  Inside that range the float and the
    exact quotient have the same whole second. *)
Definition fromtimestamp_ms (ms : Z) : result (Z * Z * Z) :=
  if (ms <? - ((2 ^ 63 + 1024) * 1000)) || ((2 ^ 63 - 512) * 1000 <=? ms)
  then Raise OverflowError
  else
    let seconds := ms / 1000 in
    if (seconds <? -62135596800) || (253402300799 <? seconds)
    then Raise ValueError
    else Ok (civil_from_days (seconds / 86400)).

Definition pad_digits (width : nat) (z : Z) : string :=
  let digits := NilZero.string_of_uint (N.to_uint (Z.to_N z)) in
  concat EmptyString (repeat "0" (width - String.length digits)) ++ digits.

(** [dt.strftime("%Y-%m-%d")].  The interpreter hands the format to the
    C library: glibc prints the year in decimal without leading zeros,
    so that a year below 1000 has fewer than four digits (other C
    libraries pad it to four); the month and the day have two digits. *)
Definition strftime_Ymd (date : Z * Z * Z) : string :=
  let '(y, m, d) := date in
  pad_digits 1 y ++ "-" ++ pad_digits 2 m ++ "-" ++ pad_digits 2 d.

(** ** The mark applier *)

Definition backtick : string := "`".
Definition fence : string := "```".

(** The body of the loop of [_apply_marks], for one mark. *)
Definition apply_mark (text mark : value) : result value :=
  m <- as_dict mark ;;
  let mark_type := dict_get m "type" in
  if eq_str mark_type "code" then
    t <- py_str text ;; Ok (VStr (backtick ++ t ++ backtick))
  else if eq_str mark_type "strong" then
    t <- py_str text ;; Ok (VStr ("**" ++ t ++ "**"))
  else if eq_str mark_type "em" then
    t <- py_str text ;; Ok (VStr ("*" ++ t ++ "*"))
  else if eq_str mark_type "strike" then
    t <- py_str text ;; Ok (VStr ("~~" ++ t ++ "~~"))
  else if eq_str mark_type "underline" then
    t <- py_str text ;; Ok (VStr ("<u>" ++ t ++ "</u>"))
  else if eq_str mark_type "link" then
    attrs <- as_dict (dict_get_or m "attrs" (VDict [])) ;;
    let href := dict_get_or attrs "href" (VStr EmptyString) in
    if truthy href then
      t <- py_str text ;; h <- py_str href ;;
      Ok (VStr ("[" ++ t ++ "](" ++ h ++ ")"))
    else Ok text
  else if eq_str mark_type "subsup" then
    attrs <- as_dict (dict_get_or m "attrs" (VDict [])) ;;
    let subsup_type := dict_get attrs "type" in
    if eq_str subsup_type "sub" then
      t <- py_str text ;; Ok (VStr ("<sub>" ++ t ++ "</sub>"))
    else if eq_str subsup_type "sup" then
      t <- py_str text ;; Ok (VStr ("<sup>" ++ t ++ "</sup>"))
    else Ok text
  else Ok text.

(** The loop [for mark in marks] of [_apply_marks]. *)
Fixpoint apply_mark_loop (text : value) (marks : list value) : result value :=
  match marks with
  | [] => Ok text
  | mark :: rest => t <- apply_mark text mark ;; apply_mark_loop t rest
  end.

Definition _apply_marks (text marks : value) : result value :=
  if negb (truthy marks) then Ok text
  else ms <- py_iter marks ;; apply_mark_loop text ms.

(** [any(m.get("type") == "code" for m in marks)]: stops at the first code
    mark. *)
Fixpoint any_code_mark (marks : list value) : result bool :=
  match marks with
  | [] => Ok false
  | m :: rest =>
      d <- as_dict m ;;
      if eq_str (dict_get d "type") "code" then Ok true
      else any_code_mark rest
  end.

Definition _has_code_mark (node : list (string * value)) : result bool :=
  if negb (eq_str (dict_get node "type") "text") then Ok false
  else
    let marks := dict_get_or node "marks" (VList []) in
    ms <- py_iter marks ;; any_code_mark ms.

(** [[m for m in marks if m.get("type") != "code"]] *)
Fixpoint non_code_marks (marks : list value) : result (list value) :=
  match marks with
  | [] => Ok []
  | m :: rest =>
      d <- as_dict m ;;
      ms <- non_code_marks rest ;;
      Ok (if negb (eq_str (dict_get d "type") "code") then m :: ms else ms)
  end.

Definition _get_text_without_code_mark (node : list (string * value))
  : result value :=
  let text := dict_get_or node "text" (VStr EmptyString) in
  let marks := dict_get_or node "marks" (VList []) in
  ms <- py_iter marks ;;
  non_code <- non_code_marks ms ;;
  if truthy (VList non_code) then _apply_marks text (VList non_code)
  else Ok text.

(** ** The sibling merger *)

(** The two lists that [_process_content_list] fills: [result_parts] and
    [code_buffer]. *)
Definition merger_state : Type := (list value * list string)%type.

(** The local function [flush_code_buffer]: it appends to [result_parts]
    and clears [code_buffer]. *)
Definition flush_code_buffer (st : merger_state) : merger_state :=
  let '(result_parts, code_buffer) := st in
  match code_buffer with
  | [] => st
  | line :: _ =>
      if Nat.eqb (List.length code_buffer) 1 && negb (contains_nl line)
      then ((result_parts ++ [VStr (backtick ++ line ++ backtick)])%list, [])
      else
        let code_content := join nl code_buffer in
        ((result_parts
            ++ [VStr (fence ++ nl ++ code_content ++ nl ++ fence)])%list,
         [])
  end.

(** [text.split("\n")]: only a string has the method. *)
Definition py_split_nl (text : value) : result (list string) :=
  match text with
  | VStr s => Ok (split_nl s)
  | _ => Raise AttributeError
  end.

(** The strings of [result_parts], as [str.join] takes them: an item that
    is not a string is a [TypeError]. *)
Fixpoint strs_of (parts : list value) : result (list string) :=
  match parts with
  | [] => Ok []
  | VStr s :: rest => ss <- strs_of rest ;; Ok (s :: ss)
  | _ :: _ => Raise TypeError
  end.

(** [isinstance(item, dict) and _has_code_mark(item)] *)
Definition is_code_item (item : value) : result bool :=
  match item with
  | VDict node => _has_code_mark node
  | _ => Ok false
  end.

Section Merger.
(** The converter that the merger calls on the siblings that are not
    code: [adf_to_text] itself. *)
Variable conv : value -> result value.

(** The loop [for item in items]. *)
Fixpoint merge_items (items : list value) (st : merger_state)
  : result merger_state :=
  match items with
  | [] => Ok st
  | item :: rest =>
      is_code <- is_code_item item ;;
      if is_code then
        text <- match item with
                | VDict node => _get_text_without_code_mark node
                | _ => Ok VNone
                end ;;
        lines <- py_split_nl text ;;
        merge_items rest (fst st, (snd st ++ lines)%list)
      else
        let st := flush_code_buffer st in
        text <- conv item ;;
        merge_items rest
          (if truthy text then ((fst st ++ [text])%list, snd st) else st)
  end.

Definition _process_content_list (items : list value) : result value :=
  match items with
  | [] => Ok VNone
  | _ =>
      st <- merge_items items ([], []) ;;
      let result_parts := fst (flush_code_buffer st) in
      match result_parts with
      | [] => Ok VNone
      | _ => ss <- strs_of result_parts ;; Ok (VStr (join nl ss))
      end
  end.

(** [conv] applied to the value that [d.get(k)] finds, if any. *)
Fixpoint conv_field (d : list (string * value)) (k : string)
  : option (result value) :=
  match d with
  | [] => None
  | (k', v) :: d' =>
      if String.eqb k k' then Some (conv v) else conv_field d' k
  end.
End Merger.

(** ** The dispatcher *)

(** The [date] rule, on the value of [attrs.get("timestamp")]. *)
Definition date_text (timestamp : value) : result value :=
  if truthy timestamp then
    match (ms <- py_int timestamp ;; fromtimestamp_ms ms) with
    | Ok dt => Ok (VStr (strftime_Ymd dt))
    | Raise ValueError | Raise OSError | Raise TypeError =>
        s <- py_str timestamp ;; Ok (VStr s)
    | Raise e => Raise e
    end
  else Ok (VStr EmptyString).

(** The recursive calls go to the elements of a list (through
    [_process_content_list]) and to the [content] of a node (through
    [conv_field], which hands the value found by [get] to the call); see
    [adf_to_text_codeBlock] and [adf_to_text_other] for the two calls on
    [content] in the form of the source. *)
Fixpoint adf_to_text (adf_content : value) : result value :=
  match adf_content with
  | VNone => Ok VNone
  | VStr s => Ok (VStr s)
  | VList items => _process_content_list adf_to_text items
  | VDict node =>
      let node_type := dict_get node "type" in
      if eq_str node_type "text" then
        let text := dict_get_or node "text" (VStr EmptyString) in
        let marks := dict_get_or node "marks" (VList []) in
        if truthy marks then _apply_marks text marks else Ok text
      else if eq_str node_type "hardBreak" then Ok (VStr nl)
      else if eq_str node_type "mention" then
        attrs <- as_dict (dict_get_or node "attrs" (VDict [])) ;;
        if truthy (dict_get attrs "text") then Ok (dict_get attrs "text")
        else
          id <- py_str (dict_get_or attrs "id" (VStr "unknown")) ;;
          Ok (VStr ("@" ++ id))
      else if eq_str node_type "emoji" then
        attrs <- as_dict (dict_get_or node "attrs" (VDict [])) ;;
        Ok (py_or (dict_get attrs "text")
              (dict_get_or attrs "shortName" (VStr EmptyString)))
      else if eq_str node_type "date" then
        attrs <- as_dict (dict_get_or node "attrs" (VDict [])) ;;
        date_text (dict_get attrs "timestamp")
      else if eq_str node_type "status" then
        attrs <- as_dict (dict_get_or node "attrs" (VDict [])) ;;
        t <- py_str (dict_get_or attrs "text" (VStr EmptyString)) ;;
        Ok (VStr ("[" ++ t ++ "]"))
      else if eq_str node_type "inlineCard" then
        attrs <- as_dict (dict_get_or node "attrs" (VDict [])) ;;
        let url := dict_get attrs "url" in
        if truthy url then Ok url
        else
          data <- as_dict (dict_get_or attrs "data" (VDict [])) ;;
          Ok (py_or (dict_get data "url")
                (dict_get_or data "name" (VStr EmptyString)))
      else if eq_str node_type "codeBlock" then
        converted <- match conv_field adf_to_text node "content" with
                     | Some r => r
                     | None => _process_content_list adf_to_text []
                     end ;;
        code_text <- py_str (py_or converted (VStr EmptyString)) ;;
        Ok (VStr (fence ++ nl ++ code_text ++ nl ++ fence))
      else
        let content := dict_get node "content" in
        if truthy content then
          match conv_field adf_to_text node "content" with
          | Some r => r
          | None => Ok VNone
          end
        else Ok VNone
  | VBool _ | VInt _ => Ok VNone
  end.

(** ** Nodes used in the statements *)

(** The mark [{type: t}]. *)
Definition mark (t : string) : value := VDict [("type", VStr t)].

(** The text node [{type: "text", text: t, marks: marks}]. *)
Definition text_node (t : string) (marks : list value) : value :=
  VDict [("type", VStr "text"); ("text", VStr t); ("marks", VList marks)].

(** A text node with text [t] and a code mark. *)
Definition code (t : string) : value := text_node t [mark "code"].

(** A text node with text [t] and no marks. *)
Definition plain (t : string) : value :=
  VDict [("type", VStr "text"); ("text", VStr t)].

(** The node [{type: "date", attrs: {timestamp: T}}]. *)
Definition date_node (T : value) : value :=
  VDict [("type", VStr "date"); ("attrs", VDict [("timestamp", T)])].

(** The inline code span and the fenced code block. *)
Definition inline_code (t : string) : string := backtick ++ t ++ backtick.
Definition fenced (body : string) : string :=
  fence ++ nl ++ body ++ nl ++ fence.

(** The kinds of node that have a rule of their own. *)
Definition recognized (node_type : value) : bool :=
  eq_str node_type "text" || eq_str node_type "hardBreak"
  || eq_str node_type "mention" || eq_str node_type "emoji"
  || eq_str node_type "date" || eq_str node_type "status"
  || eq_str node_type "inlineCard" || eq_str node_type "codeBlock".

(** The marks that are dictionaries, as the data model has them. *)
Definition is_dict (v : value) : bool :=
  match v with
  | VDict _ => true
  | _ => false
  end.

(** [m.get("type") == "code"] on a mark. *)
Definition is_code_mark (m : value) : bool :=
  match m with
  | VDict d => eq_str (dict_get d "type") "code"
  | _ => false
  end.

(** The mark types that [_apply_marks] has a rule for. *)
Definition known_mark (mark_type : value) : bool :=
  eq_str mark_type "code" || eq_str mark_type "strong"
  || eq_str mark_type "em" || eq_str mark_type "strike"
  || eq_str mark_type "underline" || eq_str mark_type "link"
  || eq_str mark_type "subsup".

(** A mark of type [ty] wraps the text [t] between [l] and [r]. *)
Definition wraps (ty l r : string) : Prop :=
  forall (t : string) (m : list (string * value)),
    dict_get m "type" = VStr ty ->
    apply_mark (VStr t) (VDict m) = Ok (VStr (l ++ t ++ r)).

(** The same for a [subsup] mark whose [attrs.type] is [kind]. *)
Definition subsup_wraps (kind l r : string) : Prop :=
  forall (t : string) (m attrs : list (string * value)),
    dict_get m "type" = VStr "subsup" ->
    lookup m "attrs" = Some (VDict attrs) ->
    dict_get attrs "type" = VStr kind ->
    apply_mark (VStr t) (VDict m) = Ok (VStr (l ++ t ++ r)).

(** The instants, in milliseconds, that [datetime] can hold: from
    0001-01-01 to the last millisecond of 9999-12-31. *)
Definition datetime_min_ms : Z := -62135596800000.
Definition datetime_max_ms : Z := 253402300799999.

(** The milliseconds whose quotient by 1000 fits the platform's time. *)
Definition time_min_ms : Z := - ((2 ^ 63 + 1024) * 1000).
Definition time_sup_ms : Z := (2 ^ 63 - 512) * 1000.

(** A value that is absent or the empty string. *)
Definition is_nothing (v : value) : bool :=
  match v with
  | VNone => true
  | VStr s => str_is_empty s
  | _ => false
  end.

(** After a code mark, the text is a string that is not empty. *)
Definition is_full_str (v : value) : bool :=
  match v with
  | VStr s => negb (str_is_empty s)
  | _ => false
  end.

(** ** The inputs of the data model *)

Definition is_str (v : value) : bool :=
  match v with
  | VStr _ => true
  | _ => false
  end.

(** [P] holds of the field, when the field is there. *)
Definition field_ok (P : value -> bool) (d : list (string * value))
  (k : string) : bool :=
  match lookup d k with
  | Some v => P v
  | None => true
  end.

(** A timestamp that the date rule handles: a string that [int] does not
    parse, or a string or an integer whose milliseconds fit the platform's
    time. *)
Definition in_platform_time (ms : Z) : bool :=
  (time_min_ms <=? ms) && (ms <? time_sup_ms).

Definition wf_timestamp (t : value) : bool :=
  match t with
  | VInt ms => in_platform_time ms
  | VStr s =>
      match int_of_str s with
      | Ok ms => in_platform_time ms
      | Raise _ => true
      end
  | _ => false
  end.

(** The [data] of an inline card: a mapping whose [url] and [name] are
    strings. *)
Definition wf_data (v : value) : bool :=
  match v with
  | VDict data => field_ok is_str data "url" && field_ok is_str data "name"
  | _ => false
  end.

(** The [attrs] of a node: a mapping in which the values that the
    converter reads are strings. *)
Definition wf_attrs (v : value) : bool :=
  match v with
  | VDict attrs =>
      field_ok is_str attrs "text" && field_ok is_str attrs "id"
      && field_ok is_str attrs "shortName" && field_ok is_str attrs "url"
      && field_ok wf_data attrs "data"
      && field_ok wf_timestamp attrs "timestamp"
  | _ => false
  end.

(** A mark: a mapping whose [attrs], if any, is a mapping with a string
    for [href]. *)
Definition wf_mark_attrs (v : value) : bool :=
  match v with
  | VDict attrs => field_ok is_str attrs "href"
  | _ => false
  end.

Definition wf_mark (m : value) : bool :=
  match m with
  | VDict d => field_ok wf_mark_attrs d "attrs"
  | _ => false
  end.

Definition wf_marks (v : value) : bool :=
  match v with
  | VList ms => forallb wf_mark ms
  | _ => false
  end.

Section WfContent.
(** The test on the elements of a [content] list: [wf_input] itself. *)
Variable wf : value -> bool.

Fixpoint wf_content (d : list (string * value)) : bool :=
  match d with
  | [] => true
  | (k, v) :: d' =>
      if String.eqb "content" k then
        match v with
        | VList items => forallb wf items
        | _ => false
        end
      else wf_content d'
  end.
End WfContent.

(** The inputs of the data model: the absent value, a string, a node, or
    a sequence of inputs; a node is a mapping whose [text] is a string,
    whose [marks] is a sequence of marks, whose [attrs] is a mapping and
    whose [content] is a sequence of inputs, each when present. *)
Fixpoint wf_input (v : value) : bool :=
  match v with
  | VNone => true
  | VStr _ => true
  | VList items => forallb wf_input items
  | VDict node =>
      field_ok is_str node "text" && field_ok wf_marks node "marks"
      && field_ok wf_attrs node "attrs" && wf_content wf_input node
  | VBool _ | VInt _ => false
  end.

(** The result of a conversion that returned: absent, or a string. *)
Definition is_text (v : value) : bool :=
  match v with
  | VNone => true
  | VStr _ => true
  | _ => false
  end.

Definition returns_text (r : result value) : Prop :=
  exists v, r = Ok v /\ is_text v = true.

Definition returns_str (r : result value) : Prop :=
  exists s, r = Ok (VStr s).

(** * The converter over a store of objects

    The lists and dictionaries of Python are objects that a program can
    change in place.  Here the converter runs on a store: a list or a
    dictionary is a reference to an object of the store, each [list] or
    [dict] that the source creates is allocated, and [append], [extend]
    and [clear] write the object that the variable refers to. *)

Module Store.

Definition loc : Type := nat.

Inductive hval : Type :=
| HNone
| HBool (b : bool)
| HInt (z : Z)
| HStr (s : string)
| HRef (l : loc).

Inductive obj : Type :=
| OList (items : list hval)
| ODict (items : list (string * hval)).

(** The store: the objects, in order of allocation. *)
Definition heap : Type := list obj.

(** A call returns, raises, exceeds the recursion limit
    ([RecursionError], which no handler of the source names), or follows
    a reference to no object, which no Python state contains. *)
Inductive outcome (A : Type) : Type :=
| Return (a : A)
| Throw (e : exn)
| RecursionError
| Fault.

Arguments Return {A} a.
Arguments Throw {A} e.
Arguments RecursionError {A}.
Arguments Fault {A}.

Definition M (A : Type) : Type := heap -> outcome A * heap.

Definition ret {A : Type} (a : A) : M A := fun h => (Return a, h).

Definition bind {A B : Type} (m : M A) (k : A -> M B) : M B :=
  fun h =>
    match m h with
    | (Return a, h') => k a h'
    | (Throw e, h') => (Throw e, h')
    | (RecursionError, h') => (RecursionError, h')
    | (Fault, h') => (Fault, h')
    end.

Notation "x <~ m ;; k" := (bind m (fun x => k))
  (at level 61, m at next level, right associativity).

Definition throw {A : Type} (e : exn) : M A := fun h => (Throw e, h).

Definition recursion_error {A : Type} : M A := fun h => (RecursionError, h).

(** A call of a function that touches no object. *)
Definition lift {A : Type} (r : result A) : M A :=
  match r with
  | Ok a => ret a
  | Raise e => throw e
  end.

Definition alloc (o : obj) : M loc :=
  fun h => (Return (List.length h), (h ++ [o])%list).

Definition load (l : loc) : M obj :=
  fun h =>
    match nth_error h l with
    | Some o => (Return o, h)
    | None => (Fault, h)
    end.

Fixpoint update (h : heap) (l : loc) (o : obj) : heap :=
  match h, l with
  | [], _ => []
  | _ :: h', O => o :: h'
  | x :: h', S l' => x :: update h' l' o
  end.

Definition store (l : loc) (o : obj) : M unit :=
  fun h =>
    match nth_error h l with
    | Some _ => (Return tt, update h l o)
    | None => (Fault, h)
    end.

(** ** Lists in place *)

(** The items of the list at [l]; another object has no list method. *)
Definition load_list (l : loc) : M (list hval) :=
  o <~ load l ;;
  match o with
  | OList items => ret items
  | ODict _ => throw AttributeError
  end.

(** [l.append(x)] *)
Definition list_append (l : loc) (x : hval) : M unit :=
  items <~ load_list l ;; store l (OList (items ++ [x])).

(** [l.extend(more)] *)
Definition list_extend (l : loc) (more : loc) : M unit :=
  added <~ load_list more ;;
  items <~ load_list l ;;
  store l (OList (items ++ added)).

(** [l.clear()] *)
Definition list_clear (l : loc) : M unit :=
  _ <~ load_list l ;; store l (OList []).

(** ** The built-in operations *)

Definition truthy (v : hval) : M bool :=
  match v with
  | HNone => ret false
  | HBool b => ret b
  | HInt z => ret (negb (z =? 0))
  | HStr s => ret (negb (str_is_empty s))
  | HRef l =>
      o <~ load l ;;
      ret (match o with
           | OList [] | ODict [] => false
           | _ => true
           end)
  end.

Definition eq_str (v : hval) (s : string) : bool :=
  match v with
  | HStr t => String.eqb t s
  | _ => false
  end.

Fixpoint lookup (d : list (string * hval)) (k : string) : option hval :=
  match d with
  | [] => None
  | (k', v) :: d' => if String.eqb k k' then Some v else lookup d' k
  end.

(** [isinstance(v, dict)] *)
Definition is_dict (v : hval) : M bool :=
  match v with
  | HRef l =>
      o <~ load l ;;
      ret (match o with ODict _ => true | OList _ => false end)
  | _ => ret false
  end.

(** [d.get(k, dflt)]; only a dictionary has the method. *)
Definition get (d : hval) (k : string) (dflt : hval) : M hval :=
  match d with
  | HRef l =>
      o <~ load l ;;
      match o with
      | ODict items =>
          ret (match lookup items k with Some v => v | None => dflt end)
      | OList _ => throw AttributeError
      end
  | _ => throw AttributeError
  end.

(** The elements that [for m in v] visits. *)
Definition py_iter (v : hval) : M (list hval) :=
  match v with
  | HStr s => ret (map (fun c => HStr (char_str c)) (chars s))
  | HRef l =>
      o <~ load l ;;
      ret (match o with
           | OList items => items
           | ODict items => map (fun kv => HStr (fst kv)) items
           end)
  | _ => throw TypeError
  end.

(** The strings of a list, as [str.join] takes them. *)
Fixpoint strs_of (parts : list hval) : result (list string) :=
  match parts with
  | [] => Ok []
  | HStr s :: rest =>
      match strs_of rest with
      | Ok ss => Ok (s :: ss)
      | Raise e => Raise e
      end
  | _ :: _ => Raise TypeError
  end.

Definition has_loc (l : loc) (stack : list loc) : bool :=
  existsb (Nat.eqb l) stack.

Section ReprItems.
Variable repr : hval -> M string.

Fixpoint repr_items (items : list hval) : M (list string) :=
  match items with
  | [] => ret []
  | x :: rest => r <~ repr x ;; rs <~ repr_items rest ;; ret (r :: rs)
  end.

Fixpoint repr_dict_items (items : list (string * hval)) : M (list string) :=
  match items with
  | [] => ret []
  | (k, x) :: rest =>
      r <~ repr x ;; rs <~ repr_dict_items rest ;;
      ret ((repr_str k ++ ": " ++ r) :: rs)
  end.
End ReprItems.

(** [repr(v)].  [stack] holds the containers whose [repr] is under way: a
    container met again is printed as dots.  Each level of nesting is a
    call, counted against the recursion limit. *)
Fixpoint py_repr (fuel : nat) (stack : list loc) (v : hval) : M string :=
  match v with
  | HNone => ret "None"
  | HBool b => ret (if b then "True" else "False")
  | HInt z => lift (str_of_int z)
  | HStr s => ret (repr_str s)
  | HRef l =>
      o <~ load l ;;
      if has_loc l stack then
        ret (match o with OList _ => "[...]" | ODict _ => "{...}" end)
      else
        match fuel with
        | O => recursion_error
        | S fuel' =>
            match o with
            | OList items =>
                rs <~ repr_items (py_repr fuel' (l :: stack)) items ;;
                ret ("[" ++ join ", " rs ++ "]")
            | ODict items =>
                rs <~ repr_dict_items (py_repr fuel' (l :: stack)) items ;;
                ret ("{" ++ join ", " rs ++ "}")
            end
        end
  end.

(** [str(v)] *)
Definition py_str (fuel : nat) (v : hval) : M string :=
  match v with
  | HStr s => ret s
  | _ => py_repr fuel [] v
  end.

(** [int(v)] *)
Definition py_int (v : hval) : result Z :=
  match v with
  | HInt z => Ok z
  | HBool b => Ok (if b then 1 else 0)
  | HStr s => int_of_str s
  | _ => Raise TypeError
  end.

(** [text.split("\n")]: a new list. *)
Definition py_split_nl (text : hval) : M loc :=
  match text with
  | HStr s => alloc (OList (map HStr (split_nl s)))
  | _ => throw AttributeError
  end.

(** ** The mark applier *)

Section Fuel.
(** The calls that remain before the recursion limit. *)
Variable fuel : nat.

(** [f"{l}{text}{r}"] *)
Definition wrap (l : string) (text : hval) (r : string) : M hval :=
  t <~ py_str fuel text ;; ret (HStr (l ++ t ++ r)).

Definition apply_mark (text mark : hval) : M hval :=
  mark_type <~ get mark "type" HNone ;;
  if eq_str mark_type "code" then wrap backtick text backtick
  else if eq_str mark_type "strong" then wrap "**" text "**"
  else if eq_str mark_type "em" then wrap "*" text "*"
  else if eq_str mark_type "strike" then wrap "~~" text "~~"
  else if eq_str mark_type "underline" then wrap "<u>" text "</u>"
  else if eq_str mark_type "link" then
    empty <~ alloc (ODict []) ;;
    attrs <~ get mark "attrs" (HRef empty) ;;
    href <~ get attrs "href" (HStr EmptyString) ;;
    has_href <~ truthy href ;;
    if has_href then
      t <~ py_str fuel text ;; h <~ py_str fuel href ;;
      ret (HStr ("[" ++ t ++ "](" ++ h ++ ")"))
    else ret text
  else if eq_str mark_type "subsup" then
    empty <~ alloc (ODict []) ;;
    attrs <~ get mark "attrs" (HRef empty) ;;
    subsup_type <~ get attrs "type" HNone ;;
    if eq_str subsup_type "sub" then wrap "<sub>" text "</sub>"
    else if eq_str subsup_type "sup" then wrap "<sup>" text "</sup>"
    else ret text
  else ret text.

Fixpoint apply_mark_loop (text : hval) (marks : list hval) : M hval :=
  match marks with
  | [] => ret text
  | mark :: rest => t <~ apply_mark text mark ;; apply_mark_loop t rest
  end.

Definition _apply_marks (text marks : hval) : M hval :=
  some <~ truthy marks ;;
  if negb some then ret text
  else ms <~ py_iter marks ;; apply_mark_loop text ms.

Fixpoint any_code_mark (marks : list hval) : M bool :=
  match marks with
  | [] => ret false
  | m :: rest =>
      mark_type <~ get m "type" HNone ;;
      if eq_str mark_type "code" then ret true else any_code_mark rest
  end.

Definition _has_code_mark (node : hval) : M bool :=
  node_type <~ get node "type" HNone ;;
  if negb (eq_str node_type "text") then ret false
  else
    empty <~ alloc (OList []) ;;
    marks <~ get node "marks" (HRef empty) ;;
    ms <~ py_iter marks ;;
    any_code_mark ms.

Fixpoint non_code_marks (marks : list hval) : M (list hval) :=
  match marks with
  | [] => ret []
  | m :: rest =>
      mark_type <~ get m "type" HNone ;;
      ms <~ non_code_marks rest ;;
      ret (if negb (eq_str mark_type "code") then m :: ms else ms)
  end.

Definition _get_text_without_code_mark (node : hval) : M hval :=
  text <~ get node "text" (HStr EmptyString) ;;
  empty <~ alloc (OList []) ;;
  marks <~ get node "marks" (HRef empty) ;;
  ms <~ py_iter marks ;;
  kept <~ non_code_marks ms ;;
  non_code <~ alloc (OList kept) ;;
  some <~ truthy (HRef non_code) ;;
  if some then _apply_marks text (HRef non_code) else ret text.

(** ** The sibling merger *)

(** [flush_code_buffer], on the two lists of the enclosing call.  The
    buffer only ever holds the strings that [split] made. *)
Definition flush_code_buffer (result_parts code_buffer : loc) : M unit :=
  buffer <~ load_list code_buffer ;;
  match buffer with
  | [] => ret tt
  | _ :: _ =>
      lines <~ lift (strs_of buffer) ;;
      _ <~ (match lines with
            | [line] =>
                if negb (contains_nl line)
                then list_append result_parts (HStr (inline_code line))
                else list_append result_parts
                       (HStr (fenced (join nl lines)))
            | _ => list_append result_parts (HStr (fenced (join nl lines)))
            end) ;;
      list_clear code_buffer
  end.

Definition is_code_item (item : hval) : M bool :=
  is_node <~ is_dict item ;;
  if is_node then _has_code_mark item else ret false.

Section Merger.
Variable conv : hval -> M hval.

Fixpoint merge_items (result_parts code_buffer : loc) (items : list hval)
  : M unit :=
  match items with
  | [] => ret tt
  | item :: rest =>
      is_code <~ is_code_item item ;;
      if is_code then
        text <~ _get_text_without_code_mark item ;;
        lines <~ py_split_nl text ;;
        _ <~ list_extend code_buffer lines ;;
        merge_items result_parts code_buffer rest
      else
        _ <~ flush_code_buffer result_parts code_buffer ;;
        text <~ conv item ;;
        some <~ truthy text ;;
        _ <~ (if some then list_append result_parts text else ret tt) ;;
        merge_items result_parts code_buffer rest
  end.

Definition _process_content_list (items : hval) : M hval :=
  some <~ truthy items ;;
  if negb some then ret HNone
  else
    result_parts <~ alloc (OList []) ;;
    code_buffer <~ alloc (OList []) ;;
    its <~ py_iter items ;;
    _ <~ merge_items result_parts code_buffer its ;;
    _ <~ flush_code_buffer result_parts code_buffer ;;
    parts <~ load_list result_parts ;;
    match parts with
    | [] => ret HNone
    | _ :: _ => ss <~ lift (strs_of parts) ;; ret (HStr (join nl ss))
    end.
End Merger.

(** ** The dispatcher *)

Definition date_text (timestamp : hval) : M hval :=
  some <~ truthy timestamp ;;
  if some then
    match (ms <- py_int timestamp ;; fromtimestamp_ms ms) with
    | Ok dt => ret (HStr (strftime_Ymd dt))
    | Raise ValueError | Raise OSError | Raise TypeError =>
        s <~ py_str fuel timestamp ;; ret (HStr s)
    | Raise e => throw e
    end
  else ret (HStr EmptyString).

(** [v or w] *)
Definition py_or (v w : hval) : M hval :=
  some <~ truthy v ;; ret (if some then v else w).

(** The rules of the dispatcher for a node, [conv] being the converter
    for the call on [content]. *)
Definition node_rule (conv : hval -> M hval) (node : hval) : M hval :=
  node_type <~ get node "type" HNone ;;
  if eq_str node_type "text" then
    text <~ get node "text" (HStr EmptyString) ;;
    empty <~ alloc (OList []) ;;
    marks <~ get node "marks" (HRef empty) ;;
    some <~ truthy marks ;;
    if some then _apply_marks text marks else ret text
  else if eq_str node_type "hardBreak" then ret (HStr nl)
  else if eq_str node_type "mention" then
    empty <~ alloc (ODict []) ;;
    attrs <~ get node "attrs" (HRef empty) ;;
    text <~ get attrs "text" HNone ;;
    some <~ truthy text ;;
    if some then ret text
    else
      id <~ get attrs "id" (HStr "unknown") ;;
      shown <~ py_str fuel id ;;
      ret (HStr ("@" ++ shown))
  else if eq_str node_type "emoji" then
    empty <~ alloc (ODict []) ;;
    attrs <~ get node "attrs" (HRef empty) ;;
    text <~ get attrs "text" HNone ;;
    some <~ truthy text ;;
    if some then ret text
    else get attrs "shortName" (HStr EmptyString)
  else if eq_str node_type "date" then
    empty <~ alloc (ODict []) ;;
    attrs <~ get node "attrs" (HRef empty) ;;
    timestamp <~ get attrs "timestamp" HNone ;;
    date_text timestamp
  else if eq_str node_type "status" then
    empty <~ alloc (ODict []) ;;
    attrs <~ get node "attrs" (HRef empty) ;;
    text <~ get attrs "text" (HStr EmptyString) ;;
    wrap "[" text "]"
  else if eq_str node_type "inlineCard" then
    empty <~ alloc (ODict []) ;;
    attrs <~ get node "attrs" (HRef empty) ;;
    url <~ get attrs "url" HNone ;;
    has_url <~ truthy url ;;
    if has_url then ret url
    else
      empty' <~ alloc (ODict []) ;;
      data <~ get attrs "data" (HRef empty') ;;
      data_url <~ get data "url" HNone ;;
      some <~ truthy data_url ;;
      if some then ret data_url
      else get data "name" (HStr EmptyString)
  else if eq_str node_type "codeBlock" then
    empty <~ alloc (OList []) ;;
    content <~ get node "content" (HRef empty) ;;
    converted <~ conv content ;;
    code_text <~ py_or converted (HStr EmptyString) ;;
    shown <~ py_str fuel code_text ;;
    ret (HStr (fenced shown))
  else
    content <~ get node "content" HNone ;;
    some <~ truthy content ;;
    if some then conv content else ret HNone.
End Fuel.

(** A call of [adf_to_text] with [fuel] calls left before the recursion
    limit. *)
Fixpoint adf_to_text (fuel : nat) (adf_content : hval) : M hval :=
  match fuel with
  | O => recursion_error
  | S fuel' =>
      match adf_content with
      | HNone => ret HNone
      | HStr s => ret (HStr s)
      | HRef l =>
          o <~ load l ;;
          match o with
          | OList _ =>
              _process_content_list fuel' (adf_to_text fuel') adf_content
          | ODict _ => node_rule fuel' (adf_to_text fuel') adf_content
          end
      | HBool _ | HInt _ => ret HNone
      end
  end.

(** ** What a run may do to the store *)

(** What a computation may do to a store [h] whose first [n] objects are
    not its own: allocate, and leave those [n] as they are. *)
Definition frame (n : nat) (h h' : heap) : Prop :=
  (List.length h <= List.length h')%nat /\ firstn n h' = firstn n h.

(** [m] keeps the first [n] objects of every store that has them, and
    what it returns satisfies [Q]. *)
Definition keeps {A : Type} (n : nat) (m : M A) (Q : A -> Prop) : Prop :=
  forall h : heap,
    (n <= List.length h)%nat ->
    frame n h (snd (m h)) /\ forall a, fst (m h) = Return a -> Q a.

(** No condition on what is returned. *)
Definition any {A : Type} : A -> Prop := fun _ => True.

End Store.

(** ** Trees in the store *)

(** A store that holds the sequence of C1: object 6 is the list, the
    objects 2 to 5 are its nodes, and the three code nodes share the
    marks list at object 1. *)
Definition c1_store : Store.heap :=
  [Store.ODict [("type", Store.HStr "code")];
   Store.OList [Store.HRef 0%nat];
   Store.ODict [("type", Store.HStr "text"); ("text", Store.HStr "a");
                ("marks", Store.HRef 1%nat)];
   Store.ODict [("type", Store.HStr "text"); ("text", Store.HStr "b");
                ("marks", Store.HRef 1%nat)];
   Store.ODict [("type", Store.HStr "text"); ("text", Store.HStr " x ")];
   Store.ODict [("type", Store.HStr "text"); ("text", Store.HStr "c");
                ("marks", Store.HRef 1%nat)];
   Store.OList [Store.HRef 2%nat; Store.HRef 3%nat; Store.HRef 4%nat; Store.HRef 5%nat]].

(** The sequence of C1, as the tree that [c1_store] holds at object 6. *)
Definition c1_tree : value :=
  VList [code "a"; code "b"; plain " x "; code "c"].

(** The nesting depth of a tree. *)
Fixpoint depth (v : value) : nat :=
  match v with
  | VList items => S (fold_right (fun x d => Nat.max (depth x) d) O items)
  | VDict items =>
      S (fold_right (fun kv d => Nat.max (depth (snd kv)) d) O items)
  | _ => O
  end.

(** [rep n h hv v]: in the store [h], the value [hv] is the tree [v], held
    in objects among the first [n]. *)
Inductive rep (n : nat) (h : Store.heap) : Store.hval -> value -> Prop :=
| rep_none : rep n h Store.HNone VNone
| rep_bool b : rep n h (Store.HBool b) (VBool b)
| rep_int z : rep n h (Store.HInt z) (VInt z)
| rep_str s : rep n h (Store.HStr s) (VStr s)
| rep_list l hitems items :
    (l < n)%nat -> nth_error h l = Some (Store.OList hitems) ->
    Forall2 (rep n h) hitems items ->
    rep n h (Store.HRef l) (VList items)
| rep_dict l hitems items :
    (l < n)%nat -> nth_error h l = Some (Store.ODict hitems) ->
    Forall2 (fun hkv kv => fst hkv = fst kv /\ rep n h (snd hkv) (snd kv))
      hitems items ->
    rep n h (Store.HRef l) (VDict items).

(** The test of [rep], for a store and a tree at hand. *)
Fixpoint represents (n : nat) (h : Store.heap) (hv : Store.hval) (v : value)
  {struct v} : bool :=
  match v, hv with
  | VNone, Store.HNone => true
  | VBool b, Store.HBool b' => Bool.eqb b' b
  | VInt z, Store.HInt z' => Z.eqb z' z
  | VStr s, Store.HStr s' => String.eqb s' s
  | VList items, Store.HRef l =>
      Nat.ltb l n
      && match nth_error h l with
         | Some (Store.OList hitems) =>
             (fix go (items : list value) (hitems : list Store.hval) : bool :=
                match items, hitems with
                | [], [] => true
                | x :: items', hx :: hitems' =>
                    represents n h hx x && go items' hitems'
                | _, _ => false
                end) items hitems
         | _ => false
         end
  | VDict items, Store.HRef l =>
      Nat.ltb l n
      && match nth_error h l with
         | Some (Store.ODict hitems) =>
             (fix go (items : list (string * value))
                (hitems : list (string * Store.hval)) : bool :=
                match items, hitems with
                | [], [] => true
                | kv :: items', hkv :: hitems' =>
                    String.eqb (fst hkv) (fst kv)
                    && represents n h (snd hkv) (snd kv) && go items' hitems'
                | _, _ => false
                end) items hitems
         | _ => false
         end
  | _, _ => false
  end.

(** The outcome of the store run that a result of the function stands
    for. *)
Definition sim {A B : Type} (R : Store.heap -> A -> B -> Prop)
  (h : Store.heap) (m : Store.M A) (p : result B) : Prop :=
  match p with
  | Ok b => exists a h', m h = (Store.Return a, h') /\ R h' a b
  | Raise e => exists h', m h = (Store.Throw e, h')
  end.

(** [rep] on the items of a list, one by one. *)
Definition rep_items (n : nat) (h : Store.heap) : list Store.hval ->
  list value -> Prop := Forall2 (rep n h).

(** The containers whose [repr] is under way hold the tree at hand: it
    does not hold them. *)
Definition above (n : nat) (h : Store.heap) (v : value) (stack : list nat)
  : Prop :=
  Forall (fun l => exists v', rep n h (Store.HRef l) v'
                              /\ (depth v < depth v')%nat) stack.

(** The text that a rule returns: in the store, and no deeper than the
    text that the rule was given. *)
Definition text_out (n : nat) (text : value)
  : Store.heap -> Store.hval -> value -> Prop :=
  fun h' a b => rep n h' a b /\ (depth b <= depth text)%nat.

(** The [attrs] of a rule: a dictionary of the input, or the new empty
    dictionary that stands for a missing one. *)
Definition rep_attrs (n : nat) (h : Store.heap) (hd : Store.hval)
  (items : list (string * value)) : Prop :=
  rep n h hd (VDict items)
  \/ (items = []
      /\ exists l, hd = Store.HRef l /\ nth_error h l = Some (Store.ODict [])).

(** The two lists of a call of the merger, in the store: [result_parts]
    holds the parts and [code_buffer] the lines of the state [st]; they
    lie beyond the [n] objects that hold the input. *)
Definition merger_inv (n : nat) (h : Store.heap)
  (result_parts code_buffer : nat) (st : merger_state) : Prop :=
  (n <= result_parts)%nat /\ (n <= code_buffer)%nat
  /\ result_parts <> code_buffer
  /\ (exists hparts,
         nth_error h result_parts = Some (Store.OList hparts)
         /\ rep_items n h hparts (fst st))
  /\ nth_error h code_buffer = Some (Store.OList (map Store.HStr (snd st))).

(** ** Vocabulary of the further properties *)

(** [m.get("type")] of a mark is one of the types that [_apply_marks]
    has a rule for. *)
Definition has_known_type (m : value) : bool :=
  match m with
  | VDict d => known_mark (dict_get d "type")
  | _ => false
  end.

(** The strings among the results [rs] that are not empty: the parts
    that the merger keeps of siblings that are not code. *)
Fixpoint kept_texts (rs : list value) : list string :=
  match rs with
  | [] => []
  | VStr s :: rest =>
      if str_is_empty s then kept_texts rest else s :: kept_texts rest
  | _ :: rest => kept_texts rest
  end.

(** ["\n".join(parts) if parts else None] *)
Definition joined (parts : list string) : value :=
  match parts with
  | [] => VNone
  | _ :: _ => VStr (join nl parts)
  end.

(** The text that a flush emits for the lines of a code run: the inline
    span of a single line without newline, else the fenced block. *)
Definition code_run_text (lines : list string) : string :=
  match lines with
  | [line] =>
      if contains_nl line then fenced (join nl lines) else inline_code line
  | _ => fenced (join nl lines)
  end.

(** Every part is true, as [if text:] has it of the parts that the
    merger appends. *)
Definition all_truthy (parts : list value) : Prop :=
  Forall (fun p => truthy p = true) parts.

(** The first millisecond of the year 1000: from there on [strftime]
    prints a year of four digits on every platform. *)
Definition year_1000_ms : Z := -30610224000000.

(** The milliseconds above which the quotient by 1000 rounds to a float
    above 2^63, which no version of the interpreter takes for a
    [time_t]. *)
Definition time_over_ms : Z := (2 ^ 63 + 1024) * 1000.

(** * Properties *)

(** ** Strings *)

Lemma split_nl_single (s : string) :
  contains_nl s = false -> split_nl s = [s].
Proof.
  induction s as [|c s IH]; simpl; intros H; [reflexivity|].
  apply orb_false_iff in H. destruct H as [Hc Hs].
  rewrite Hc, (IH Hs). reflexivity.
Qed.

Lemma split_nl_not_nil (s : string) : split_nl s <> [].
Proof.
  destruct s as [|c s]; simpl; [discriminate|].
  destruct (Ascii.eqb c nl_char); [discriminate|].
  destruct (split_nl s); discriminate.
Qed.

Lemma join_cons (sep p q : string) (rest : list string) :
  join sep (p :: q :: rest) = p ++ sep ++ join sep (q :: rest).
Proof. reflexivity. Qed.

(** Joining the lines of a string gives the string back. *)
Lemma join_split_nl (s : string) : join nl (split_nl s) = s.
Proof.
  induction s as [|c s IH]; simpl; [reflexivity|].
  destruct (Ascii.eqb c nl_char) eqn:E.
  - apply Ascii.eqb_eq in E. subst c.
    destruct (split_nl s) as [|l ls] eqn:Es.
    + now destruct (split_nl_not_nil s).
    + rewrite join_cons, IH. reflexivity.
  - destruct (split_nl s) as [|l ls] eqn:Es.
    + now destruct (split_nl_not_nil s).
    + rewrite <- IH. destruct ls; reflexivity.
Qed.

(** A string with a newline has at least two lines. *)
Lemma split_nl_two (s : string) :
  contains_nl s = true -> exists l1 l2 ls, split_nl s = l1 :: l2 :: ls.
Proof.
  induction s as [|c s IH]; simpl; [discriminate|].
  destruct (Ascii.eqb c nl_char) eqn:E; simpl; intros H.
  - destruct (split_nl s) as [|l ls] eqn:Es.
    + now destruct (split_nl_not_nil s).
    + now exists EmptyString, l, ls.
  - destruct (IH H) as (l1 & l2 & ls & ->). now exists (String c l1), l2, ls.
Qed.

(** ** The calls on [content], as the source writes them *)

Lemma conv_field_lookup (conv : value -> result value) d k :
  conv_field conv d k = option_map conv (lookup d k).
Proof.
  induction d as [|[k' v] d IH]; simpl; [reflexivity|].
  destruct (String.eqb k k'); [reflexivity | exact IH].
Qed.

Lemma adf_to_text_list items :
  adf_to_text (VList items) = _process_content_list adf_to_text items.
Proof. reflexivity. Qed.

(** [code_text = adf_to_text(adf_content.get("content", [])) or ""] *)
Lemma adf_to_text_codeBlock node :
  dict_get node "type" = VStr "codeBlock" ->
  adf_to_text (VDict node) =
    (converted <- adf_to_text (dict_get_or node "content" (VList [])) ;;
     code_text <- py_str (py_or converted (VStr EmptyString)) ;;
     Ok (VStr (fenced code_text))).
Proof.
  intros Ht. simpl. rewrite Ht. simpl.
  rewrite conv_field_lookup. unfold dict_get_or.
  destruct (lookup node "content"); reflexivity.
Qed.

(** [content = adf_content.get("content")], then
    [adf_to_text(content)] if [content] is true, else [None]. *)
Lemma adf_to_text_other node :
  recognized (dict_get node "type") = false ->
  adf_to_text (VDict node) =
    if truthy (dict_get node "content")
    then adf_to_text (dict_get node "content")
    else Ok VNone.
Proof.
  unfold recognized. intros H.
  repeat (apply orb_false_iff in H; destruct H as [H ?]).
  simpl. repeat match goal with E : eq_str _ _ = false |- _ =>
                         rewrite E; clear E end.
  rewrite conv_field_lookup. unfold dict_get, dict_get_or.
  destruct (lookup node "content"); reflexivity.
Qed.

(** ** C7: the two base cases *)

(** C7. [convert] is the identity on the two base cases: the absent value
    is returned as absent, and a string is returned unchanged. *)
Theorem C7_base_cases :
  adf_to_text VNone = Ok VNone
  /\ forall s : string, adf_to_text (VStr s) = Ok (VStr s).
Proof. split; reflexivity. Qed.

(** ** C1: runs of code-marked siblings *)

Lemma is_code_item_code t : is_code_item (code t) = Ok true.
Proof. reflexivity. Qed.

Lemma get_text_code t :
  _get_text_without_code_mark
    [("type", VStr "text"); ("text", VStr t); ("marks", VList [mark "code"])]
  = Ok (VStr t).
Proof. reflexivity. Qed.

(** A run of single-line code nodes only extends the code buffer. *)
Lemma merge_items_code_run conv (ts : list string) :
  Forall (fun t => contains_nl t = false) ts ->
  forall parts buf,
    merge_items conv (map code ts) (parts, buf)
    = Ok (parts, (buf ++ ts)%list).
Proof.
  induction 1 as [|t ts Ht _ IH]; intros parts buf.
  - simpl. now rewrite app_nil_r.
  - change (map code (t :: ts)) with (code t :: map code ts).
    unfold merge_items; fold (merge_items conv).
    rewrite is_code_item_code. unfold code, text_node.
    rewrite get_text_code. simpl bind.
    rewrite (split_nl_single t Ht). simpl fst; simpl snd.
    rewrite IH. now rewrite <- app_assoc.
Qed.

(** C1. The sequence [code a; code b; plain x; code c] gives the fenced
    block of a and b, then the plain text, then the inline span of c,
    joined by newlines; and every sequence of two or more code-marked text
    nodes with single-line texts gives one fenced block whose body is the
    texts joined by newlines, in their order. *)
Theorem C1_code_runs_merge :
  adf_to_text (VList [code "a"; code "b"; plain " x "; code "c"])
  = Ok (VStr (fenced ("a" ++ nl ++ "b") ++ nl ++ " x " ++ nl
              ++ inline_code "c"))
  /\ forall ts : list string,
      (2 <= List.length ts)%nat ->
      Forall (fun t => contains_nl t = false) ts ->
      adf_to_text (VList (map code ts)) = Ok (VStr (fenced (join nl ts))).
Proof.
  split; [reflexivity|].
  intros ts Hlen Hts. rewrite adf_to_text_list.
  destruct ts as [|t1 [|t2 ts]]; simpl in Hlen; try lia.
  unfold _process_content_list.
  change (map code (t1 :: t2 :: ts)) with (code t1 :: map code (t2 :: ts)).
  cbv iota. change (code t1 :: map code (t2 :: ts))
    with (map code (t1 :: t2 :: ts)).
  rewrite (merge_items_code_run _ _ Hts). simpl bind.
  reflexivity.
Qed.

Lemma C1_code_runs_merge_witness :
  adf_to_text (VList (map code ["x"; "y"; "z"]))
  = Ok (VStr (fenced (join nl ["x"; "y"; "z"]))).
Proof.
  apply (proj2 C1_code_runs_merge ["x"; "y"; "z"]).
  - simpl. lia.
  - repeat constructor.
Defined.

(** ** C10: an empty code run is kept *)

(** C10. The one-element sequence holding a code-marked text node with
    empty text gives the empty inline code span, two backticks, and not
    the absent value; the same sequence without the code mark gives the
    absent value. *)
Theorem C10_empty_code_run_kept :
  adf_to_text (VList [code EmptyString]) = Ok (VStr "``")
  /\ adf_to_text (VList [plain EmptyString]) = Ok VNone.
Proof. split; reflexivity. Qed.

(** ** C2: a code-marked text node, alone and in a sequence *)

Lemma non_code_marks_filter (ms : list value) :
  forallb is_dict ms = true ->
  non_code_marks ms = Ok (filter (fun m => negb (is_code_mark m)) ms).
Proof.
  induction ms as [|m ms IH]; simpl; [reflexivity|].
  intros H. apply andb_true_iff in H. destruct H as [Hm Hms].
  destruct m; try discriminate. simpl. rewrite (IH Hms). simpl.
  destruct (eq_str (dict_get d "type") "code"); reflexivity.
Qed.

Lemma apply_marks_list (text : value) (ms : list value) :
  _apply_marks text (VList ms) = apply_mark_loop text ms.
Proof. destruct ms; reflexivity. Qed.

Lemma adf_to_text_text_node (t : string) (ms : list value) :
  adf_to_text (text_node t ms) = apply_mark_loop (VStr t) ms.
Proof. destruct ms; reflexivity. Qed.

Lemma get_text_text_node (t : string) (ms : list value) :
  forallb is_dict ms = true ->
  _get_text_without_code_mark
    [("type", VStr "text"); ("text", VStr t); ("marks", VList ms)]
  = apply_mark_loop (VStr t) (filter (fun m => negb (is_code_mark m)) ms).
Proof.
  intros H. unfold _get_text_without_code_mark. simpl dict_get_or.
  simpl py_iter. simpl bind. rewrite (non_code_marks_filter ms H).
  simpl bind. rewrite apply_marks_list.
  destruct (filter _ ms); reflexivity.
Qed.

(** C2, as stated, fails: passed directly, a code-marked text node whose
    text has a newline gives the inline span, not a fenced block, and its
    code mark is applied in its place in the list, not stripped. *)
Lemma C2_counterexample :
  contains_nl ("a" ++ nl ++ "b") = true
  /\ adf_to_text (code ("a" ++ nl ++ "b"))
     = Ok (VStr (inline_code ("a" ++ nl ++ "b")))
  /\ adf_to_text (code ("a" ++ nl ++ "b"))
     <> Ok (VStr (fenced (join nl (split_nl ("a" ++ nl ++ "b")))))
  /\ adf_to_text (text_node "T" [mark "code"; mark "strong"])
     = Ok (VStr "**`T`**").
Proof. repeat split; try reflexivity. discriminate. Qed.

(** C2, amended.  Passed directly, the node [code T] gives the inline
    span of [T] whether or not [T] has a newline, and a text node has its
    marks applied in list order, the code mark wrapping in backticks at
    its place.  As the only element of a sequence, [code T] gives the
    inline span when [T] has no newline and the fenced block of the lines
    of [T] when it has; it is the sibling merger that takes the text with
    the code mark removed and the other marks applied. *)
Theorem C2_code_node_alone_and_in_sequence (T : string) (ms : list value) :
  forallb is_dict ms = true ->
  adf_to_text (code T) = Ok (VStr (inline_code T))
  /\ adf_to_text (text_node T (mark "code" :: ms))
     = apply_mark_loop (VStr (inline_code T)) ms
  /\ adf_to_text (VList [code T])
     = Ok (VStr (if contains_nl T then fenced (join nl (split_nl T))
                 else inline_code T))
  /\ join nl (split_nl T) = T
  /\ _get_text_without_code_mark
       [("type", VStr "text"); ("text", VStr T);
        ("marks", VList (mark "code" :: ms))]
     = apply_mark_loop (VStr T)
         (filter (fun m => negb (is_code_mark m)) ms).
Proof.
  intros Hms. split; [|split; [|split; [|split]]].
  - reflexivity.
  - rewrite adf_to_text_text_node. reflexivity.
  - rewrite adf_to_text_list. unfold _process_content_list, merge_items.
    rewrite is_code_item_code. unfold code, text_node.
    rewrite get_text_code. simpl bind. simpl snd.
    destruct (contains_nl T) eqn:E.
    + destruct (split_nl_two T E) as (l1 & l2 & ls & Hs).
      rewrite Hs. reflexivity.
    + rewrite (split_nl_single T E). simpl. rewrite E. reflexivity.
  - apply join_split_nl.
  - rewrite get_text_text_node by (simpl; exact Hms). reflexivity.
Qed.

Lemma C2_code_node_alone_and_in_sequence_witness :
  adf_to_text (text_node "T" [mark "code"; mark "strong"])
  = apply_mark_loop (VStr (inline_code "T")) [mark "strong"].
Proof.
  apply (C2_code_node_alone_and_in_sequence "T" [mark "strong"]).
  reflexivity.
Defined.

(** ** C5: nodes of an unrecognized type *)

(** C5. A node whose type is not one of the recognized kinds converts as
    its [content] does when the content is present and not empty, and to
    the absent value when the content is absent or empty; the empty node
    converts to the absent value. *)
Theorem C5_unrecognized_type_passthrough (node : list (string * value)) :
  recognized (dict_get node "type") = false ->
  (forall content,
      lookup node "content" = Some content -> truthy content = true ->
      adf_to_text (VDict node) = adf_to_text content)
  /\ (lookup node "content" = None -> adf_to_text (VDict node) = Ok VNone)
  /\ (forall content,
         lookup node "content" = Some content -> truthy content = false ->
         adf_to_text (VDict node) = Ok VNone)
  /\ adf_to_text (VDict []) = Ok VNone.
Proof.
  intros Hty. pose proof (adf_to_text_other node Hty) as E.
  unfold dict_get, dict_get_or in E.
  split; [|split; [|split]].
  - intros c Hc Ht. rewrite Hc, Ht in E. exact E.
  - intros Hc. rewrite Hc in E. exact E.
  - intros c Hc Ht. rewrite Hc, Ht in E. exact E.
  - reflexivity.
Qed.

Lemma C5_unrecognized_type_passthrough_witness :
  adf_to_text
    (VDict [("type", VStr "unknownNode");
            ("content", VList [plain "nested text"])])
  = adf_to_text (VList [plain "nested text"]).
Proof.
  apply (proj1 (C5_unrecognized_type_passthrough
                  [("type", VStr "unknownNode");
                   ("content", VList [plain "nested text"])]
                  eq_refl)); reflexivity.
Defined.

(** ** C4: the marks wrap in list order *)

Lemma apply_mark_loop_app text ms1 ms2 :
  apply_mark_loop text (ms1 ++ ms2)
  = (acc <- apply_mark_loop text ms1 ;; apply_mark_loop acc ms2).
Proof.
  revert text. induction ms1 as [|m ms1 IH]; intros text; simpl.
  - reflexivity.
  - destruct (apply_mark text m) as [t|e]; simpl; [apply IH | reflexivity].
Qed.

Lemma apply_mark_loop_snoc text ms m :
  apply_mark_loop text (ms ++ [m])
  = (acc <- apply_mark_loop text ms ;; apply_mark acc m).
Proof.
  rewrite apply_mark_loop_app.
  destruct (apply_mark_loop text ms) as [t|e]; simpl; [|reflexivity].
  destruct (apply_mark t m); reflexivity.
Qed.

Ltac mark_rule :=
  intros; unfold apply_mark, dict_get, dict_get_or in *; simpl bind;
  repeat (match goal with
          | H : _ = _ |- _ => rewrite H
          end; simpl);
  reflexivity.

Lemma link_without_href_unchanged (text : value) (m : list (string * value)) :
  dict_get m "type" = VStr "link" ->
  (lookup m "attrs" = None
   \/ exists attrs, lookup m "attrs" = Some (VDict attrs)
                    /\ (lookup attrs "href" = None
                        \/ lookup attrs "href" = Some (VStr EmptyString))) ->
  apply_mark text (VDict m) = Ok text.
Proof.
  intros Ht [Ha | (attrs & Ha & [Hh | Hh])]; mark_rule.
Qed.

Lemma unknown_mark_unchanged (text : value) (m : list (string * value)) :
  known_mark (dict_get m "type") = false ->
  apply_mark text (VDict m) = Ok text.
Proof.
  unfold known_mark. intros H.
  repeat (apply orb_false_iff in H; destruct H as [H ?]).
  unfold apply_mark. simpl bind.
  repeat match goal with E : eq_str _ _ = false |- _ =>
                         rewrite E; clear E end.
  reflexivity.
Qed.

(** C4. The marks of a text node are applied from left to right, each to
    the text accumulated so far, so that the first mark is innermost:
    [strong; em] on X gives three asterisks on each side.  [strong] wraps
    in two asterisks, [em] in one, [strike] in two tildes, [underline] in
    the u tags, [subsup] in the sub or sup tags after its [attrs.type]; a
    [link] whose [attrs.href] is empty or missing, and a mark of an
    unknown type, leave the text unchanged and raise nothing. *)
Theorem C4_marks_wrap_in_list_order :
  adf_to_text (text_node "X" [mark "strong"; mark "em"])
  = Ok (VStr "***X***")
  /\ (forall t ms,
         adf_to_text (text_node t ms) = apply_mark_loop (VStr t) ms)
  /\ (forall text ms m,
         apply_mark_loop text (ms ++ [m])
         = (acc <- apply_mark_loop text ms ;; apply_mark acc m))
  /\ wraps "strong" "**" "**"
  /\ wraps "em" "*" "*"
  /\ wraps "strike" "~~" "~~"
  /\ wraps "underline" "<u>" "</u>"
  /\ subsup_wraps "sub" "<sub>" "</sub>"
  /\ subsup_wraps "sup" "<sup>" "</sup>"
  /\ (forall text m,
         dict_get m "type" = VStr "link" ->
         (lookup m "attrs" = None
          \/ exists attrs,
              lookup m "attrs" = Some (VDict attrs)
              /\ (lookup attrs "href" = None
                  \/ lookup attrs "href" = Some (VStr EmptyString))) ->
         apply_mark text (VDict m) = Ok text)
  /\ (forall text m,
         known_mark (dict_get m "type") = false ->
         apply_mark text (VDict m) = Ok text).
Proof.
  split; [reflexivity|].
  split; [exact adf_to_text_text_node|].
  split; [exact apply_mark_loop_snoc|].
  repeat (split; [unfold wraps, subsup_wraps; mark_rule|]).
  split; [exact link_without_href_unchanged | exact unknown_mark_unchanged].
Qed.

Lemma C4_marks_wrap_in_list_order_witness :
  apply_mark (VStr "X") (mark "strong") = Ok (VStr "**X**")
  /\ apply_mark (VStr "2")
       (VDict [("type", VStr "subsup");
               ("attrs", VDict [("type", VStr "sup")])])
     = Ok (VStr "<sup>2</sup>")
  /\ apply_mark (VStr "orphan link")
       (VDict [("type", VStr "link"); ("attrs", VDict [])])
     = Ok (VStr "orphan link")
  /\ apply_mark (VStr "text") (mark "unknownMark") = Ok (VStr "text").
Proof.
  destruct C4_marks_wrap_in_list_order
    as (_ & _ & _ & Hstrong & _ & _ & _ & _ & Hsup & Hlink & Hunknown).
  split; [|split; [|split]].
  - apply (Hstrong "X" [("type", VStr "strong")]). reflexivity.
  - apply (Hsup "2" [("type", VStr "subsup");
                     ("attrs", VDict [("type", VStr "sup")])]
             [("type", VStr "sup")]); reflexivity.
  - apply (Hlink (VStr "orphan link")
             [("type", VStr "link"); ("attrs", VDict [])]).
    + reflexivity.
    + right. exists []. split; [reflexivity | left; reflexivity].
  - apply (Hunknown (VStr "text") [("type", VStr "unknownMark")]).
    reflexivity.
Defined.

(** ** The digits of an integer stay within the limit *)

Lemma nb_digits_double_bound (d : Decimal.uint) :
  (Decimal.nb_digits (Decimal.Little.double d) <= S (Decimal.nb_digits d))%nat
  /\ (Decimal.nb_digits (Decimal.Little.succ_double d)
      <= S (Decimal.nb_digits d))%nat.
Proof.
  induction d as [|d [IH1 IH2]|d [IH1 IH2]|d [IH1 IH2]|d [IH1 IH2]
                 |d [IH1 IH2]|d [IH1 IH2]|d [IH1 IH2]|d [IH1 IH2]
                 |d [IH1 IH2]|d [IH1 IH2]];
    simpl; split; lia.
Qed.

Lemma nb_digits_to_little_uint (p : positive) :
  (Decimal.nb_digits (Pos.to_little_uint p) <= Pos.size_nat p)%nat.
Proof.
  induction p as [p IH|p IH|]; simpl.
  - pose proof (proj2 (nb_digits_double_bound (Pos.to_little_uint p))). lia.
  - pose proof (proj1 (nb_digits_double_bound (Pos.to_little_uint p))). lia.
  - lia.
Qed.

Lemma size_nat_bound (p : positive) (k : nat) :
  Z.pos p < 2 ^ Z.of_nat k -> (Pos.size_nat p <= k)%nat.
Proof.
  revert k. induction p as [p IH|p IH|]; intros k H; simpl.
  - destruct k as [|k]; [simpl in H; lia|].
    rewrite Nat2Z.inj_succ, Z.pow_succ_r in H by lia.
    specialize (IH k). lia.
  - destruct k as [|k]; [simpl in H; lia|].
    rewrite Nat2Z.inj_succ, Z.pow_succ_r in H by lia.
    specialize (IH k). lia.
  - destruct k as [|k]; [simpl in H; lia | lia].
Qed.

Lemma length_string_of_uint (u : Decimal.uint) :
  String.length (NilEmpty.string_of_uint u) = Decimal.nb_digits u.
Proof. induction u; simpl; congruence. Qed.

Lemma length_digits_bound (n : N) (k : nat) :
  (1 <= k)%nat -> Z.of_N n < 2 ^ Z.of_nat k ->
  (String.length (NilZero.string_of_uint (N.to_uint n)) <= k)%nat.
Proof.
  intros Hk H. destruct n as [|p]; [simpl; lia|].
  unfold N.to_uint, Pos.to_uint.
  pose proof (nb_digits_to_little_uint p) as H1.
  pose proof (size_nat_bound p k H) as H2.
  rewrite <- DecimalFacts.nb_digits_rev in H1.
  destruct (Decimal.rev (Pos.to_little_uint p)) eqn:E;
    [simpl; lia | ..];
    unfold NilZero.string_of_uint; rewrite length_string_of_uint; lia.
Qed.

(** [str(z)] returns when [z] has at most as many bits as the limit has
    digits. *)
Lemma str_of_int_ok (z : Z) :
  Z.abs z < 2 ^ Z.of_nat int_max_str_digits ->
  exists s, str_of_int z = Ok s.
Proof.
  intros H. unfold str_of_int.
  assert (L : (String.length (NilZero.string_of_uint (N.to_uint (Z.abs_N z)))
               <= int_max_str_digits)%nat).
  { apply length_digits_bound.
    - unfold int_max_str_digits. apply Nat.leb_le. reflexivity.
    - rewrite N2Z.inj_abs_N. exact H. }
  apply Nat.ltb_ge in L. rewrite L. eauto.
Qed.

Lemma pow2_75_le_limit : 2 ^ 75 <= 2 ^ Z.of_nat int_max_str_digits.
Proof.
  apply Z.pow_le_mono_r; [lia|].
  apply Z.leb_le. vm_compute. reflexivity.
Qed.

(** ** C3: the date rule *)

Lemma pow2_63 : 2 ^ 63 = 9223372036854775808.
Proof. reflexivity. Qed.

Lemma fromtimestamp_ms_in_range (ms : Z) :
  datetime_min_ms <= ms <= datetime_max_ms ->
  fromtimestamp_ms ms = Ok (civil_from_days (ms / 1000 / 86400)).
Proof.
  unfold datetime_min_ms, datetime_max_ms, fromtimestamp_ms. intros H.
  rewrite pow2_63.
  destruct (Z.ltb_spec ms (- ((9223372036854775808 + 1024) * 1000))); [lia|].
  destruct (Z.leb_spec ((9223372036854775808 - 512) * 1000) ms); [lia|].
  simpl orb.
  destruct (Z.ltb_spec (ms / 1000) (-62135596800));
    [exfalso; Z.to_euclidean_division_equations; lia|].
  destruct (Z.ltb_spec 253402300799 (ms / 1000));
    [exfalso; Z.to_euclidean_division_equations; lia|].
  reflexivity.
Qed.

Lemma fromtimestamp_ms_out_of_range (ms : Z) :
  time_min_ms <= ms < time_sup_ms ->
  ms < datetime_min_ms \/ datetime_max_ms < ms ->
  fromtimestamp_ms ms = Raise ValueError.
Proof.
  unfold time_min_ms, time_sup_ms, datetime_min_ms, datetime_max_ms,
    fromtimestamp_ms.
  rewrite pow2_63. intros H1 H2.
  destruct (Z.ltb_spec ms (- ((9223372036854775808 + 1024) * 1000))); [lia|].
  destruct (Z.leb_spec ((9223372036854775808 - 512) * 1000) ms); [lia|].
  simpl orb.
  destruct (Z.ltb_spec (ms / 1000) (-62135596800));
    destruct (Z.ltb_spec 253402300799 (ms / 1000)); try reflexivity;
    exfalso; Z.to_euclidean_division_equations; lia.
Qed.

Lemma fromtimestamp_ms_overflow (ms : Z) :
  ms < time_min_ms \/ time_sup_ms <= ms ->
  fromtimestamp_ms ms = Raise OverflowError.
Proof.
  unfold time_min_ms, time_sup_ms, fromtimestamp_ms.
  rewrite pow2_63. intros H.
  destruct (Z.ltb_spec ms (- ((9223372036854775808 + 1024) * 1000)));
    destruct (Z.leb_spec ((9223372036854775808 - 512) * 1000) ms);
    try reflexivity; lia.
Qed.

Lemma adf_to_text_date_node (T : value) :
  adf_to_text (date_node T) = date_text T.
Proof. reflexivity. Qed.

(** C3.  The code at the input on which it fails the claim.  The
    integer timestamp 0 counts the milliseconds of the instant
    1970-01-01, and the string timestamp ["0"] is formatted as that
    date; but [if timestamp:] takes the integer 0 for a missing
    timestamp, the parse is not attempted and the node converts to the
    empty string.  A second slip of the rule: an integer beyond the
    platform's time raises [OverflowError], which the [except] clause
    does not name, where the claim has [str(T)] and no exception. *)
Theorem C3_integer_zero_dropped :
  (ms <- py_int (VInt 0) ;; fromtimestamp_ms ms) = Ok (1970, 1, 1)
  /\ strftime_Ymd (1970, 1, 1) = "1970-01-01"
  /\ adf_to_text (date_node (VStr "0")) = Ok (VStr "1970-01-01")
  /\ adf_to_text (date_node (VInt 0)) = Ok (VStr EmptyString)
  /\ adf_to_text (date_node (VInt 0)) <> Ok (VStr "1970-01-01")
  /\ adf_to_text (date_node (VInt (10 ^ 30))) = Raise OverflowError.
Proof. repeat split; try reflexivity. discriminate. Qed.

(** An integer timestamp too large for the platform's time raises
    [OverflowError], which the [except] clause of the date rule does not
    name. *)
Example date_beyond_platform_time :
  adf_to_text (date_node (VInt (10 ^ 30))) = Raise OverflowError.
Proof. reflexivity. Qed.

(** ** C9: siblings that convert to nothing *)

Lemma merge_items_app conv (l1 l2 : list value) (st : merger_state) :
  merge_items conv (l1 ++ l2)%list st
  = (st' <- merge_items conv l1 st ;; merge_items conv l2 st').
Proof.
  revert st. induction l1 as [|x l1 IH]; intros st; [reflexivity|].
  simpl. destruct (is_code_item x) as [[|]|e]; simpl; [| |reflexivity].
  - destruct (match x with
              | VDict node => _get_text_without_code_mark node
              | _ => Ok VNone
              end) as [t|e]; simpl; [|reflexivity].
    destruct (py_split_nl t); simpl; [apply IH | reflexivity].
  - destruct (conv x); simpl; [apply IH | reflexivity].
Qed.

Lemma is_nothing_falsy v : is_nothing v = true -> truthy v = false.
Proof. destruct v as [| | |[|]| |]; simpl; congruence. Qed.

(** A sibling that is not code and converts to nothing only flushes the
    code buffer. *)
Lemma merge_items_nothing conv x rest st r :
  is_code_item x = Ok false -> conv x = Ok r -> is_nothing r = true ->
  merge_items conv (x :: rest) st
  = merge_items conv rest (flush_code_buffer st).
Proof.
  intros Hc Hx Hr. simpl. rewrite Hc. simpl. rewrite Hx. simpl.
  now rewrite (is_nothing_falsy r Hr).
Qed.

Lemma apply_mark_full text m r :
  is_full_str text = true -> apply_mark text m = Ok r ->
  is_full_str r = true.
Proof.
  destruct text as [| | |s| |]; try discriminate.
  destruct s as [|c s]; [discriminate|]. intros _.
  unfold apply_mark. destruct (as_dict m) as [d|]; simpl; [|discriminate].
  repeat match goal with
         | |- (if ?b then _ else _) = _ -> _ => destruct b
         | |- (_ <- as_dict ?a ;; _) = _ -> _ =>
             destruct (as_dict a); simpl; [|discriminate]
         | |- (_ <- py_str ?a ;; _) = _ -> _ =>
             destruct (py_str a); simpl; [|discriminate]
         end;
    intros E; injection E as <-; reflexivity.
Qed.

Lemma apply_mark_loop_full ms : forall text r,
  is_full_str text = true -> apply_mark_loop text ms = Ok r ->
  is_full_str r = true.
Proof.
  induction ms as [|m ms IH]; simpl; intros text r Hf E.
  - now injection E as <-.
  - destruct (apply_mark text m) as [t|] eqn:Em; simpl in E; [|discriminate].
    eapply IH; [|exact E]. eapply apply_mark_full; eauto.
Qed.

Lemma apply_mark_loop_code ms : forall text r,
  any_code_mark ms = Ok true -> apply_mark_loop text ms = Ok r ->
  is_full_str r = true.
Proof.
  induction ms as [|m ms IH]; simpl; intros text r Hc E; [discriminate|].
  destruct m as [| | | | |d]; try discriminate. simpl in Hc.
  destruct (apply_mark text (VDict d)) as [t|] eqn:Em; simpl in E;
    [|discriminate].
  destruct (eq_str (dict_get d "type") "code") eqn:Ety.
  - eapply apply_mark_loop_full; [|exact E].
    unfold apply_mark in Em. simpl in Em. rewrite Ety in Em.
    destruct (py_str text); simpl in Em; [|discriminate].
    now injection Em as <-.
  - eapply IH; eauto.
Qed.

(** A code-marked text node never converts to nothing. *)
Lemma code_item_not_nothing x r :
  is_code_item x = Ok true -> adf_to_text x = Ok r -> is_nothing r = false.
Proof.
  destruct x as [| | | | |node]; try discriminate.
  unfold is_code_item, _has_code_mark. simpl adf_to_text.
  destruct (eq_str (dict_get node "type") "text"); simpl; [|discriminate].
  destruct (dict_get_or node "marks" (VList [])) as [| | |s|ms|d];
    simpl; try discriminate.
  - destruct s as [|c s]; simpl; discriminate.
  - intros Hc. destruct ms as [|m ms]; [discriminate|].
    unfold _apply_marks. simpl truthy. simpl negb. cbv iota. simpl py_iter.
    simpl bind. intros E.
    pose proof (apply_mark_loop_code (m :: ms) _ r Hc E) as Hf.
    destruct r as [| | |[|]| |]; simpl in *; congruence.
  - destruct d as [|[k v] d]; simpl; discriminate.
Qed.

Lemma process_content_list_ext conv (a b : list value) :
  merge_items conv a ([], []) = merge_items conv b ([], []) ->
  a <> [] -> b <> [] ->
  _process_content_list conv a = _process_content_list conv b.
Proof.
  intros E Ha Hb. destruct a as [|x a]; [contradiction|].
  destruct b as [|y b]; [contradiction|].
  unfold _process_content_list. rewrite E. reflexivity.
Qed.

(** C9. In the sibling merger, a sibling that is not code and converts
    to the empty string is dropped like one that converts to the absent
    value: it adds no part.  So a sequence whose elements all convert to
    the empty string or to the absent value, such as a list of text nodes
    with empty text and no code mark, gives the absent value and not the
    empty string. *)
Theorem C9_nothing_is_dropped :
  (forall (l1 l2 : list value) (x : value),
      is_code_item x = Ok false ->
      adf_to_text x = Ok (VStr EmptyString) ->
      adf_to_text (VList (l1 ++ x :: l2))
      = adf_to_text (VList (l1 ++ VNone :: l2)))
  /\ (forall items : list value,
         Forall (fun x =>
                   (exists b, is_code_item x = Ok b)
                   /\ exists r, adf_to_text x = Ok r /\ is_nothing r = true)
           items ->
         adf_to_text (VList items) = Ok VNone)
  /\ adf_to_text (VList [plain EmptyString; plain EmptyString]) = Ok VNone.
Proof.
  split; [|split; [|reflexivity]].
  - intros l1 l2 x Hc Hx. rewrite !adf_to_text_list.
    unfold _process_content_list.
    assert (E : merge_items adf_to_text (l1 ++ x :: l2) ([], [])
                = merge_items adf_to_text (l1 ++ VNone :: l2) ([], [])).
    { rewrite !merge_items_app.
      destruct (merge_items adf_to_text l1 ([], [])) as [st|];
        [|reflexivity].
      cbn [bind].
      rewrite (merge_items_nothing adf_to_text x l2 st _ Hc Hx eq_refl).
      rewrite (merge_items_nothing adf_to_text VNone l2 st VNone eq_refl
                 eq_refl eq_refl).
      reflexivity. }
    apply process_content_list_ext; [exact E | |]; now destruct l1.
  - intros items H. rewrite adf_to_text_list.
    assert (E : merge_items adf_to_text items ([], []) = Ok ([], [])).
    { induction H as [|x items [[b Hb] (r & Hx & Hr)] _ IH]; [reflexivity|].
      destruct b.
      - rewrite (code_item_not_nothing x r Hb Hx) in Hr. discriminate.
      - rewrite (merge_items_nothing adf_to_text x items _ r Hb Hx Hr).
        exact IH. }
    unfold _process_content_list. destruct items; [reflexivity|].
    rewrite E. reflexivity.
Qed.

Lemma C9_nothing_is_dropped_witness :
  adf_to_text (VList ([code "a"] ++ plain EmptyString :: [code "b"]))
  = adf_to_text (VList ([code "a"] ++ VNone :: [code "b"]))
  /\ adf_to_text (VList [plain EmptyString; VNone; VList []]) = Ok VNone.
Proof.
  destruct C9_nothing_is_dropped as (Hdrop & Hall & _). split.
  - apply (Hdrop [code "a"] [code "b"] (plain EmptyString)); reflexivity.
  - apply (Hall [plain EmptyString; VNone; VList []]).
    repeat constructor; try (exists false; reflexivity).
    + exists (VStr EmptyString). split; reflexivity.
    + exists VNone. split; reflexivity.
    + exists VNone. split; reflexivity.
Defined.

(** ** C6: inputs on which the converter returns *)

Lemma field_ok_get_or P d k dflt :
  field_ok P d k = true -> P dflt = true -> P (dict_get_or d k dflt) = true.
Proof.
  unfold field_ok, dict_get_or. destruct (lookup d k); auto.
Qed.

Lemma is_str_inv v : is_str v = true -> exists s, v = VStr s.
Proof. destruct v; try discriminate. eauto. Qed.

(** A field that is a string when present is, through [get], a string or
    [None]. *)
Lemma field_str_get d k :
  field_ok is_str d k = true ->
  dict_get d k = VNone \/ exists s, dict_get d k = VStr s.
Proof.
  unfold field_ok, dict_get, dict_get_or. destruct (lookup d k) as [v|].
  - intros H. right. now apply is_str_inv.
  - now left.
Qed.

Lemma wf_content_lookup wf d :
  wf_content wf d
  = match lookup d "content" with
    | Some (VList items) => forallb wf items
    | Some _ => false
    | None => true
    end.
Proof.
  induction d as [|[k v] d IH]; cbn [wf_content lookup]; [reflexivity|].
  destruct (String.eqb "content" k); [reflexivity | exact IH].
Qed.

Lemma lookup_In d k v : lookup d k = Some v -> In (k, v) d.
Proof.
  induction d as [|[k' v'] d IH]; cbn [lookup In]; [discriminate|].
  destruct (String.eqb_spec k k') as [->|_].
  - intros E. injection E as ->. now left.
  - intros E. right. now apply IH.
Qed.

Lemma wf_mark_apply (m : value) (s : string) :
  wf_mark m = true -> returns_str (apply_mark (VStr s) m).
Proof.
  destruct m as [| | | | |d]; try discriminate. simpl. intros Hattrs.
  assert (Ha : wf_mark_attrs (dict_get_or d "attrs" (VDict [])) = true)
    by (now apply field_ok_get_or).
  destruct (dict_get_or d "attrs" (VDict [])) as [| | | | |attrs] eqn:Eattrs;
    try discriminate.
  simpl in Ha.
  assert (Hh : is_str (dict_get_or attrs "href" (VStr EmptyString)) = true)
    by (now apply field_ok_get_or).
  apply is_str_inv in Hh. destruct Hh as [h Hh].
  unfold apply_mark, returns_str. simpl bind. rewrite Eattrs. simpl bind.
  rewrite Hh.
  repeat match goal with
         | |- context [if ?b then _ else _] => destruct b
         end; simpl; eauto.
Qed.

Lemma wf_marks_apply (ms : list value) : forall s : string,
  forallb wf_mark ms = true -> returns_str (apply_mark_loop (VStr s) ms).
Proof.
  induction ms as [|m ms IH]; simpl; intros s H.
  - now exists s.
  - apply andb_true_iff in H. destruct H as [Hm Hms].
    destruct (wf_mark_apply m s Hm) as [t ->]. simpl. now apply IH.
Qed.

Lemma wf_mark_is_dict ms :
  forallb wf_mark ms = true -> forallb is_dict ms = true.
Proof.
  induction ms as [|m ms IH]; simpl; [reflexivity|].
  intros H. apply andb_true_iff in H. destruct H as [Hm Hms].
  rewrite (IH Hms). now destruct m.
Qed.

Lemma wf_marks_any_code ms :
  forallb wf_mark ms = true -> exists b, any_code_mark ms = Ok b.
Proof.
  induction ms as [|m ms IH]; simpl; [eauto|].
  intros H. apply andb_true_iff in H. destruct H as [Hm Hms].
  destruct m as [| | | | |d]; try discriminate. simpl.
  destruct (eq_str (dict_get d "type") "code"); eauto.
Qed.

Lemma forallb_filter {A} (P Q : A -> bool) l :
  forallb P l = true -> forallb P (filter Q l) = true.
Proof.
  induction l as [|x l IH]; simpl; [reflexivity|].
  intros H. apply andb_true_iff in H. destruct H as [Hx Hl].
  destruct (Q x); simpl; [rewrite Hx|]; auto.
Qed.

(** The fields [text] and [marks] of a node of the data model. *)
Lemma wf_node_text node :
  field_ok is_str node "text" = true ->
  exists t, dict_get_or node "text" (VStr EmptyString) = VStr t.
Proof.
  intros H. apply is_str_inv. now apply field_ok_get_or.
Qed.

Lemma wf_node_marks node :
  field_ok wf_marks node "marks" = true ->
  exists ms, dict_get_or node "marks" (VList []) = VList ms
             /\ forallb wf_mark ms = true.
Proof.
  intros H.
  assert (Hm : wf_marks (dict_get_or node "marks" (VList [])) = true)
    by (now apply field_ok_get_or).
  destruct (dict_get_or node "marks" (VList [])); try discriminate. eauto.
Qed.

Lemma wf_node_attrs node :
  field_ok wf_attrs node "attrs" = true ->
  exists attrs, dict_get_or node "attrs" (VDict []) = VDict attrs
                /\ wf_attrs (VDict attrs) = true.
Proof.
  intros H.
  assert (Hm : wf_attrs (dict_get_or node "attrs" (VDict [])) = true)
    by (now apply field_ok_get_or).
  destruct (dict_get_or node "attrs" (VDict [])); try discriminate. eauto.
Qed.

(** The merger's two tests on a node of the data model return. *)
Lemma wf_node_code_test node :
  field_ok wf_marks node "marks" = true ->
  exists b, _has_code_mark node = Ok b.
Proof.
  intros H. destruct (wf_node_marks node H) as (ms & Ems & Hms).
  unfold _has_code_mark. rewrite Ems. simpl py_iter. simpl bind.
  destruct (negb (eq_str (dict_get node "type") "text")); [eauto|].
  now apply wf_marks_any_code.
Qed.

Lemma wf_node_code_text node :
  field_ok is_str node "text" = true ->
  field_ok wf_marks node "marks" = true ->
  returns_str (_get_text_without_code_mark node).
Proof.
  intros Ht Hm. destruct (wf_node_text node Ht) as [t Et].
  destruct (wf_node_marks node Hm) as (ms & Ems & Hms).
  unfold _get_text_without_code_mark. rewrite Et, Ems. simpl py_iter.
  simpl bind. rewrite (non_code_marks_filter ms (wf_mark_is_dict ms Hms)).
  simpl bind. rewrite apply_marks_list.
  pose proof (wf_marks_apply
                (filter (fun m => negb (is_code_mark m)) ms) t
                (forallb_filter _ _ ms Hms)) as [r Hr].
  destruct (filter _ ms); simpl truthy; cbv iota; [now exists t|].
  now exists r.
Qed.

Lemma int_of_str_raises s e : int_of_str s = Raise e -> e = ValueError.
Proof.
  unfold int_of_str.
  destruct (match rev (drop_spaces (rev (drop_spaces (chars s)))) with
            | [] => _
            | c :: cs' => _
            end) as [negative body].
  destruct (scan_digits false body) as [ds|]; [|congruence].
  destruct (Nat.ltb int_max_str_digits (List.length ds)); congruence.
Qed.

Lemma in_platform_time_str ms :
  in_platform_time ms = true -> exists s, str_of_int ms = Ok s.
Proof.
  unfold in_platform_time, time_min_ms, time_sup_ms. rewrite pow2_63.
  intros H. apply andb_true_iff in H. destruct H as [H1 H2].
  apply Z.leb_le in H1. apply Z.ltb_lt in H2.
  apply str_of_int_ok.
  eapply Z.lt_le_trans; [|exact pow2_75_le_limit].
  change (2 ^ 75) with 37778931862957161709568. lia.
Qed.

Lemma in_platform_time_date ms :
  in_platform_time ms = true ->
  (exists d, fromtimestamp_ms ms = Ok d)
  \/ fromtimestamp_ms ms = Raise ValueError.
Proof.
  unfold in_platform_time, time_min_ms, time_sup_ms, fromtimestamp_ms.
  intros H. apply andb_true_iff in H. destruct H as [H1 H2].
  apply Z.leb_le in H1. apply Z.ltb_lt in H2.
  destruct (Z.ltb_spec ms (- ((2 ^ 63 + 1024) * 1000))); [lia|].
  destruct (Z.leb_spec ((2 ^ 63 - 512) * 1000) ms); [lia|].
  simpl orb.
  destruct ((ms / 1000 <? -62135596800) || (253402300799 <? ms / 1000));
    eauto.
Qed.

(** The date rule returns a string on the timestamps of [wf_timestamp]
    and on an absent timestamp. *)
Lemma wf_timestamp_date attrs :
  field_ok wf_timestamp attrs "timestamp" = true ->
  returns_str (date_text (dict_get attrs "timestamp")).
Proof.
  unfold field_ok, dict_get, dict_get_or, returns_str.
  destruct (lookup attrs "timestamp") as [t|]; [|intros _; now eexists].
  destruct t as [| |ms|s| |]; try discriminate; unfold date_text.
  - simpl wf_timestamp. intros Hms. simpl truthy.
    destruct (ms =? 0); simpl negb; cbv iota; [now eexists|].
    simpl py_int. simpl bind.
    destruct (in_platform_time_date ms Hms) as [[d ->] | ->]; [now eexists|].
    simpl py_str. destruct (in_platform_time_str ms Hms) as [s ->].
    now eexists.
  - simpl wf_timestamp. destruct s as [|c s]; [intros _; now eexists|].
    simpl truthy. cbv iota. simpl py_int.
    destruct (int_of_str (String c s)) as [ms|e] eqn:E.
    + intros Hms. simpl bind.
      destruct (in_platform_time_date ms Hms) as [[d ->] | ->];
        now eexists.
    + intros _. rewrite (int_of_str_raises _ _ E). now eexists.
Qed.

Lemma flush_keeps_strs (st : merger_state) :
  forallb is_str (fst st) = true ->
  forallb is_str (fst (flush_code_buffer st)) = true.
Proof.
  destruct st as [parts buf]. simpl. intros H.
  destruct buf as [|line buf]; [exact H|].
  destruct (Nat.eqb (List.length (line :: buf)) 1 && negb (contains_nl line));
    simpl; rewrite forallb_app, H; reflexivity.
Qed.

Lemma strs_of_ok (parts : list value) :
  forallb is_str parts = true -> exists ss, strs_of parts = Ok ss.
Proof.
  induction parts as [|p parts IH]; simpl; [eauto|].
  intros H. apply andb_true_iff in H. destruct H as [Hp Hps].
  destruct p; try discriminate. destruct (IH Hps) as [ss ->]. simpl. eauto.
Qed.

Lemma wf_is_code_item item :
  wf_input item = true -> exists b, is_code_item item = Ok b.
Proof.
  destruct item as [| | | | |node]; simpl; try (intros _; eauto; fail).
  intros H. repeat (apply andb_true_iff in H; destruct H as [H ?]).
  now apply wf_node_code_test.
Qed.

Lemma wf_merge_items (items : list value) :
  Forall (fun x => wf_input x = true -> returns_text (adf_to_text x)) items ->
  forallb wf_input items = true ->
  forall st : merger_state,
    forallb is_str (fst st) = true ->
    exists st', merge_items adf_to_text items st = Ok st'
                /\ forallb is_str (fst st') = true.
Proof.
  induction 1 as [|x items Hx _ IH]; intros Hwf st Hst.
  - exists st. now split.
  - simpl in Hwf. apply andb_true_iff in Hwf. destruct Hwf as [Hwx Hwl].
    cbn [merge_items].
    destruct (wf_is_code_item x Hwx) as [b Hb]. rewrite Hb. cbn [bind].
    destruct b.
    + destruct x as [| | | | |node]; try discriminate.
      simpl in Hwx.
      repeat (apply andb_true_iff in Hwx; destruct Hwx as [Hwx ?]).
      destruct (wf_node_code_text node) as [t Ht]; auto.
      rewrite Ht. simpl bind. now apply IH.
    + destruct (Hx Hwx) as (r & Hr & Htext). rewrite Hr. cbn [bind].
      apply IH; [exact Hwl|].
      pose proof (flush_keeps_strs st Hst) as Hf.
      destruct r as [| | |s| |]; try discriminate; [exact Hf|].
      destruct (truthy (VStr s)); [|exact Hf].
      simpl fst. rewrite forallb_app, Hf. reflexivity.
Qed.

Lemma wf_process_content_list (items : list value) :
  Forall (fun x => wf_input x = true -> returns_text (adf_to_text x)) items ->
  forallb wf_input items = true ->
  returns_text (_process_content_list adf_to_text items).
Proof.
  intros HF Hwf. unfold _process_content_list, returns_text.
  destruct items as [|x items]; [now exists VNone|].
  destruct (wf_merge_items (x :: items) HF Hwf ([], []) eq_refl)
    as (st & -> & Hst).
  cbn [bind]. apply flush_keeps_strs in Hst.
  destruct (fst (flush_code_buffer st)) as [|p parts] eqn:E;
    [now exists VNone|].
  destruct (strs_of_ok (p :: parts) Hst) as [ss ->]. cbn [bind].
  now eexists.
Qed.

Lemma wf_content_returns node (dflt : value) :
  Forall (fun kv => wf_input (snd kv) = true ->
                    returns_text (adf_to_text (snd kv))) node ->
  wf_content wf_input node = true ->
  returns_text (adf_to_text dflt) ->
  returns_text (adf_to_text (dict_get_or node "content" dflt)).
Proof.
  intros HF Hc Hd. rewrite wf_content_lookup in Hc. unfold dict_get_or.
  destruct (lookup node "content") as [v|] eqn:E; [|exact Hd].
  destruct v as [| | | |items|]; try discriminate.
  apply lookup_In in E. rewrite Forall_forall in HF.
  apply (HF _ E). exact Hc.
Qed.

(** C6, as stated, fails: an attribute may hold any value, and the rules
    for [inlineCard] and for a sequence take the values as they come. *)
Lemma C6_counterexample :
  adf_to_text
    (VDict [("type", VStr "inlineCard");
            ("attrs", VDict [("data", VStr "x")])])
  = Raise AttributeError
  /\ adf_to_text
       (VList [VDict [("type", VStr "mention");
                      ("attrs", VDict [("text", VInt 5)])]])
     = Raise TypeError.
Proof. split; reflexivity. Qed.

(** C6, amended.  On every input of the data model in which the
    attribute values that the converter reads are strings when present
    (the [data] of an inline card being a mapping of strings) and in which
    a date timestamp is absent, a string that [int] does not parse, or a
    string or integer whose instant fits the platform's time, [convert]
    returns, with a string or the absent value: unknown node types,
    unknown mark types and missing fields raise nothing. *)
Theorem C6_wf_input_returns (v : value) :
  wf_input v = true -> returns_text (adf_to_text v).
Proof.
  induction v as [| | | |items IH|node IH] using value_rect';
    try discriminate; intros Hwf.
  - now exists VNone.
  - now eexists.
  - rewrite adf_to_text_list. now apply wf_process_content_list.
  - cbn [wf_input] in Hwf.
    repeat (apply andb_true_iff in Hwf; destruct Hwf as [Hwf ?]).
    rename Hwf into Htext, H1 into Hmarks, H0 into Hattrs, H into Hcontent.
    destruct (wf_node_text node Htext) as [t Et].
    destruct (wf_node_marks node Hmarks) as (ms & Ems & Hms).
    destruct (wf_node_attrs node Hattrs) as (attrs & Eattrs & Ha).
    cbn [wf_attrs] in Ha.
    repeat (apply andb_true_iff in Ha; destruct Ha as [Ha ?]).
    pose proof (wf_content_returns node (VList []) IH Hcontent
                  (ex_intro _ VNone (conj eq_refl eq_refl))) as Hblock.
    pose proof (wf_content_returns node VNone IH Hcontent
                  (ex_intro _ VNone (conj eq_refl eq_refl))) as Hother.
    cbn [adf_to_text]. rewrite conv_field_lookup, Et, Ems, Eattrs.
    cbn [as_dict bind].
    destruct (eq_str (dict_get node "type") "text").
    { destruct (truthy (VList ms)); [|now eexists].
      rewrite apply_marks_list.
      destruct (wf_marks_apply ms t Hms) as [r ->]. now eexists. }
    destruct (eq_str (dict_get node "type") "hardBreak"); [now eexists|].
    destruct (eq_str (dict_get node "type") "mention").
    { destruct (field_str_get attrs "text" Ha) as [-> | [s ->]].
      - destruct (is_str_inv (dict_get_or attrs "id" (VStr "unknown")))
          as [i ->]; [now apply field_ok_get_or | now eexists].
      - destruct (truthy (VStr s)); [now eexists|].
        destruct (is_str_inv (dict_get_or attrs "id" (VStr "unknown")))
          as [i ->]; [now apply field_ok_get_or | now eexists]. }
    destruct (eq_str (dict_get node "type") "emoji").
    { destruct (is_str_inv (dict_get_or attrs "shortName" (VStr EmptyString)))
        as [n En]; [now apply field_ok_get_or|].
      rewrite En. unfold py_or.
      destruct (field_str_get attrs "text" Ha) as [-> | [s ->]];
        [now eexists|].
      destruct (truthy (VStr s)); now eexists. }
    destruct (eq_str (dict_get node "type") "date").
    { destruct (wf_timestamp_date attrs) as [s ->]; [assumption|].
      now eexists. }
    destruct (eq_str (dict_get node "type") "status").
    { destruct (is_str_inv (dict_get_or attrs "text" (VStr EmptyString)))
        as [s ->]; [now apply field_ok_get_or | now eexists]. }
    destruct (eq_str (dict_get node "type") "inlineCard").
    { destruct (field_str_get attrs "url" H1) as [-> | [u ->]].
      - cbn [truthy].
        assert (Hd : wf_data (dict_get_or attrs "data" (VDict [])) = true)
          by (now apply field_ok_get_or).
        destruct (dict_get_or attrs "data" (VDict [])) as [| | | | |data];
          try discriminate.
        cbn [wf_data] in Hd. apply andb_true_iff in Hd.
        destruct Hd as [Hu Hn]. cbn [as_dict bind].
        destruct (is_str_inv (dict_get_or data "name" (VStr EmptyString)))
          as [n ->]; [now apply field_ok_get_or|].
        unfold py_or.
        destruct (field_str_get data "url" Hu) as [-> | [u ->]];
          [now eexists|].
        destruct (truthy (VStr u)); now eexists.
      - destruct (truthy (VStr u)); [now eexists|].
        assert (Hd : wf_data (dict_get_or attrs "data" (VDict [])) = true)
          by (now apply field_ok_get_or).
        destruct (dict_get_or attrs "data" (VDict [])) as [| | | | |data];
          try discriminate.
        cbn [wf_data] in Hd. apply andb_true_iff in Hd.
        destruct Hd as [Hu Hn]. cbn [as_dict bind].
        destruct (is_str_inv (dict_get_or data "name" (VStr EmptyString)))
          as [n ->]; [now apply field_ok_get_or|].
        unfold py_or.
        destruct (field_str_get data "url" Hu) as [-> | [u' ->]];
          [now eexists|].
        destruct (truthy (VStr u')); now eexists. }
    destruct (eq_str (dict_get node "type") "codeBlock").
    { unfold dict_get_or in Hblock.
      destruct (lookup node "content") as [c|]; cbn [option_map];
        [destruct Hblock as (v & -> & Hv) | ];
        [destruct v as [| | |[|a s]| |]; try discriminate | ];
        now eexists. }
    unfold dict_get, dict_get_or in *.
    destruct (lookup node "content") as [c|]; cbn [option_map];
      [|now exists VNone].
    destruct (truthy c); [exact Hother | now exists VNone].
Qed.

Lemma C6_wf_input_returns_witness :
  returns_text
    (adf_to_text
       (VDict
          [("type", VStr "doc"); ("version", VInt 1);
           ("content",
            VList
              [VDict
                 [("type", VStr "paragraph");
                  ("content",
                   VList
                     [text_node "bold" [mark "strong"; mark "textColor"];
                      code "x = 1";
                      VDict [("type", VStr "mention")];
                      VDict [("type", VStr "date");
                             ("attrs",
                              VDict [("timestamp", VStr "soon")])];
                      VDict [("type", VStr "inlineCard");
                             ("attrs",
                              VDict [("data",
                                      VDict [("name", VStr "PROJ-1")])])];
                      VDict [("type", VStr "mystery")]])];
               VDict [("type", VStr "codeBlock")]])])).
Proof. apply C6_wf_input_returns. vm_compute. reflexivity. Defined.

(** ** The converter changes no object that it was given *)

Module StoreFacts.
Import Store.

Lemma frame_refl n h : frame n h h.
Proof. split; [lia | reflexivity]. Qed.

Lemma frame_trans n h1 h2 h3 :
  frame n h1 h2 -> frame n h2 h3 -> frame n h1 h3.
Proof. intros [L1 E1] [L2 E2]. split; [lia | congruence]. Qed.

Lemma keeps_ret {A} n (a : A) (Q : A -> Prop) : Q a -> keeps n (ret a) Q.
Proof.
  intros HQ h _. split; [apply frame_refl|].
  simpl. intros b E. now injection E as <-.
Qed.

Lemma keeps_throw {A} n e (Q : A -> Prop) : keeps n (throw e) Q.
Proof. intros h _. split; [apply frame_refl | discriminate]. Qed.

Lemma keeps_recursion_error {A} n (Q : A -> Prop) :
  keeps n recursion_error Q.
Proof. intros h _. split; [apply frame_refl | discriminate]. Qed.

Lemma keeps_lift {A} n (r : result A) : keeps n (lift r) any.
Proof. destruct r; [now apply keeps_ret | apply keeps_throw]. Qed.

Lemma keeps_bind {A B} n (m : M A) (k : A -> M B) Q R :
  keeps n m Q -> (forall a, Q a -> keeps n (k a) R) -> keeps n (bind m k) R.
Proof.
  intros Hm Hk h Hn. destruct (Hm h Hn) as [Hf HQ]. unfold bind.
  destruct (m h) as [[a| | |] h1]; simpl in *;
    try (split; [exact Hf | discriminate]).
  destruct Hf as [L E].
  destruct (Hk a (HQ a eq_refl) h1 ltac:(lia)) as [Hf2 HR].
  split; [|exact HR]. eapply frame_trans; [split; eauto | exact Hf2].
Qed.

Lemma keeps_any {A} n (m : M A) Q : keeps n m Q -> keeps n m any.
Proof. intros H h Hn. split; [apply (H h Hn) | now intros]. Qed.

(** A new object lies beyond the [n] that are kept. *)
Lemma keeps_alloc n o : keeps n (alloc o) (fun l => (n <= l)%nat).
Proof.
  intros h Hn. unfold alloc, frame. simpl. split.
  - rewrite length_app. simpl. split; [lia|].
    rewrite firstn_app. replace (n - List.length h)%nat with O by lia.
    simpl. apply app_nil_r.
  - intros l E. injection E as <-. exact Hn.
Qed.

Lemma keeps_load n l : keeps n (load l) any.
Proof.
  intros h _. unfold load. destruct (nth_error h l); simpl;
    (split; [apply frame_refl | now intros]).
Qed.

Lemma length_update h l o : List.length (update h l o) = List.length h.
Proof.
  revert l. induction h as [|x h IH]; intros [|l]; simpl; auto.
Qed.

Lemma firstn_update h l o n :
  (n <= l)%nat -> firstn n (update h l o) = firstn n h.
Proof.
  revert l n. induction h as [|x h IH]; intros [|l] [|n] H; simpl;
    try reflexivity; try lia.
  f_equal. apply IH. lia.
Qed.

(** A write beyond the [n] objects keeps them. *)
Lemma keeps_store n l o : (n <= l)%nat -> keeps n (store l o) any.
Proof.
  intros Hl h _. unfold store. destruct (nth_error h l); simpl.
  - split; [|now intros]. split.
    + rewrite length_update. lia.
    + now apply firstn_update.
  - split; [apply frame_refl | now intros].
Qed.

Create HintDb frame.

#[local] Hint Resolve keeps_load keeps_lift keeps_throw
  keeps_recursion_error : frame.

(** One step through a computation: a [bind] after its first call, a
    test after its two branches. *)
Ltac keeps_step :=
  match goal with
  | |- keeps _ (ret _) _ => apply keeps_ret; exact I
  | |- keeps _ (bind (alloc _) _) _ =>
      eapply keeps_bind; [apply keeps_alloc | intros ? ?]
  | |- keeps _ (alloc _) _ => eapply keeps_any; apply keeps_alloc
  | |- keeps _ (bind _ _) _ =>
      eapply (keeps_bind _ _ _ any); [ | intros ? _]
  | |- keeps _ (if ?b then _ else _) _ => destruct b
  | |- keeps _ (match ?o with _ => _ end) _ => destruct o
  | |- keeps _ _ _ => solve [eauto with frame]
  end.

Ltac keeps_auto := repeat keeps_step.

Lemma keeps_load_list n l : keeps n (load_list l) any.
Proof. unfold load_list. keeps_auto. Qed.

#[local] Hint Resolve keeps_load_list : frame.

Lemma keeps_list_append n l x : (n <= l)%nat -> keeps n (list_append l x) any.
Proof. intros H. unfold list_append. keeps_auto. now apply keeps_store. Qed.

Lemma keeps_list_extend n l more :
  (n <= l)%nat -> keeps n (list_extend l more) any.
Proof. intros H. unfold list_extend. keeps_auto. now apply keeps_store. Qed.

Lemma keeps_list_clear n l : (n <= l)%nat -> keeps n (list_clear l) any.
Proof. intros H. unfold list_clear. keeps_auto. now apply keeps_store. Qed.

Lemma keeps_truthy n v : keeps n (truthy v) any.
Proof. unfold truthy. keeps_auto. Qed.

Lemma keeps_is_dict n v : keeps n (is_dict v) any.
Proof. unfold is_dict. keeps_auto. Qed.

Lemma keeps_get n d k dflt : keeps n (get d k dflt) any.
Proof. unfold get. keeps_auto. Qed.

Lemma keeps_py_iter n v : keeps n (py_iter v) any.
Proof. unfold py_iter. keeps_auto. Qed.

Lemma keeps_py_split_nl n text : keeps n (py_split_nl text) any.
Proof. unfold py_split_nl. keeps_auto. Qed.

#[local] Hint Resolve keeps_truthy keeps_is_dict keeps_get keeps_py_iter
  keeps_py_split_nl keeps_list_append keeps_list_extend keeps_list_clear
  : frame.

Lemma keeps_py_repr n fuel : forall stack v, keeps n (py_repr fuel stack v) any.
Proof.
  induction fuel as [|fuel IH]; intros stack v; destruct v;
    cbn [py_repr]; try solve [keeps_auto].
  keeps_step; [keeps_auto|]. destruct (has_loc l stack); keeps_auto.
  - induction items as [|x items IHitems]; cbn [repr_items]; keeps_auto.
  - induction items as [|[k x] items IHitems]; cbn [repr_dict_items];
      keeps_auto.
Qed.

Lemma keeps_py_str n fuel v : keeps n (py_str fuel v) any.
Proof. destruct v; cbn [py_str]; try apply keeps_py_repr. keeps_auto. Qed.

#[local] Hint Resolve keeps_py_str : frame.

Lemma keeps_wrap n fuel l text r : keeps n (wrap fuel l text r) any.
Proof. unfold wrap. keeps_auto. Qed.

#[local] Hint Resolve keeps_wrap : frame.

Lemma keeps_apply_mark n fuel text mark :
  keeps n (apply_mark fuel text mark) any.
Proof. unfold apply_mark. keeps_auto. Qed.

#[local] Hint Resolve keeps_apply_mark : frame.

Lemma keeps_apply_mark_loop n fuel marks : forall text,
  keeps n (apply_mark_loop fuel text marks) any.
Proof.
  induction marks as [|m marks IH]; intros text; cbn [apply_mark_loop];
    keeps_auto.
Qed.

#[local] Hint Resolve keeps_apply_mark_loop : frame.

Lemma keeps_apply_marks n fuel text marks :
  keeps n (_apply_marks fuel text marks) any.
Proof. unfold _apply_marks. keeps_auto. Qed.

Lemma keeps_any_code_mark n marks : keeps n (any_code_mark marks) any.
Proof.
  induction marks as [|m marks IH]; cbn [any_code_mark]; keeps_auto.
Qed.

Lemma keeps_non_code_marks n marks : keeps n (non_code_marks marks) any.
Proof.
  induction marks as [|m marks IH]; cbn [non_code_marks]; keeps_auto.
Qed.

#[local] Hint Resolve keeps_apply_marks keeps_any_code_mark
  keeps_non_code_marks : frame.

Lemma keeps_has_code_mark n node : keeps n (_has_code_mark node) any.
Proof. unfold _has_code_mark. keeps_auto. Qed.

Lemma keeps_get_text_without_code_mark n fuel node :
  keeps n (_get_text_without_code_mark fuel node) any.
Proof. unfold _get_text_without_code_mark. keeps_auto. Qed.

#[local] Hint Resolve keeps_has_code_mark keeps_get_text_without_code_mark
  : frame.

Lemma keeps_is_code_item n item : keeps n (is_code_item item) any.
Proof. unfold is_code_item. keeps_auto. Qed.

Lemma keeps_date_text n fuel timestamp :
  keeps n (date_text fuel timestamp) any.
Proof.
  unfold date_text. keeps_step; [keeps_auto|]. destruct a; [|keeps_auto].
  destruct (ms <- py_int timestamp ;; fromtimestamp_ms ms) as [dt|[]];
    keeps_auto.
Qed.

Lemma keeps_py_or n v w : keeps n (py_or v w) any.
Proof. unfold py_or. keeps_auto. Qed.

#[local] Hint Resolve keeps_is_code_item keeps_date_text keeps_py_or : frame.

(** The merger writes its own two lists only. *)
Lemma keeps_flush_code_buffer n result_parts code_buffer :
  (n <= result_parts)%nat -> (n <= code_buffer)%nat ->
  keeps n (flush_code_buffer result_parts code_buffer) any.
Proof. intros H1 H2. unfold flush_code_buffer. keeps_auto. Qed.

#[local] Hint Resolve keeps_flush_code_buffer : frame.

Section Recursion.
Variable conv : hval -> M hval.
Hypothesis keeps_conv : forall n v, keeps n (conv v) any.

Lemma keeps_merge_items n fuel result_parts code_buffer items :
  (n <= result_parts)%nat -> (n <= code_buffer)%nat ->
  keeps n (merge_items fuel conv result_parts code_buffer items) any.
Proof.
  intros H1 H2. induction items as [|item items IH]; cbn [merge_items];
    keeps_auto.
Qed.

Lemma keeps_process_content_list n fuel items :
  keeps n (_process_content_list fuel conv items) any.
Proof.
  unfold _process_content_list. keeps_auto.
  all: now apply keeps_merge_items.
Qed.

Lemma keeps_node_rule n fuel node : keeps n (node_rule fuel conv node) any.
Proof. unfold node_rule. keeps_auto. Qed.
End Recursion.

Lemma keeps_adf_to_text fuel : forall n v, keeps n (adf_to_text fuel v) any.
Proof.
  induction fuel as [|fuel IH]; intros n v; cbn [adf_to_text].
  - apply keeps_recursion_error.
  - destruct v; try solve [keeps_auto].
    keeps_step; [keeps_auto|]. destruct a.
    + now apply keeps_process_content_list.
    + now apply keeps_node_rule.
Qed.

(** What is kept of a store that is kept whole. *)
Lemma frame_whole h h' :
  frame (List.length h) h h' ->
  (exists fresh, h' = (h ++ fresh)%list)
  /\ forall l o, nth_error h l = Some o -> nth_error h' l = Some o.
Proof.
  intros [L E]. rewrite firstn_all in E.
  assert (E' : h' = (h ++ skipn (List.length h) h')%list).
  { rewrite <- E at 1. symmetry. apply firstn_skipn. }
  split; [eauto|]. intros l o Hl. rewrite E'.
  rewrite nth_error_app1; [exact Hl|]. apply nth_error_Some. congruence.
Qed.

End StoreFacts.

(** The store run on the sequence of C1: the objects 0 to 6 hold the
    input, the call returns the text of C1 and leaves them as they
    were. *)
Example store_run_c1 :
  fst (Store.adf_to_text 3 (Store.HRef 6%nat) c1_store)
  = Store.Return
      (Store.HStr (fenced ("a" ++ nl ++ "b") ++ nl ++ " x " ++ nl
                   ++ inline_code "c"))
  /\ firstn 7 (snd (Store.adf_to_text 3 (Store.HRef 6%nat) c1_store))
     = c1_store.
Proof. split; vm_compute; reflexivity. Qed.

(** ** The store run computes the function of the tree *)

Module StoreRefines.

Lemma represents_rep n h : forall v hv,
  represents n h hv v = true -> rep n h hv v.
Proof.
  induction v as [| | | |items IH|items IH] using value_rect';
    intros hv H; destruct hv; try discriminate; simpl in H.
  - constructor.
  - apply Bool.eqb_prop in H. subst. constructor.
  - apply Z.eqb_eq in H. subst. constructor.
  - apply String.eqb_eq in H. subst. constructor.
  - apply andb_true_iff in H. destruct H as [Hl H]. apply Nat.ltb_lt in Hl.
    destruct (nth_error h l) as [[hitems|]|] eqn:E; try discriminate.
    econstructor; eauto. clear E.
    revert hitems H. induction IH as [|x items Hx _ IHitems];
      intros [|hx hitems] H; try discriminate; constructor.
    + apply andb_true_iff in H. now apply Hx.
    + apply andb_true_iff in H. now apply IHitems.
  - apply andb_true_iff in H. destruct H as [Hl H]. apply Nat.ltb_lt in Hl.
    destruct (nth_error h l) as [[|hitems]|] eqn:E; try discriminate.
    econstructor; eauto. clear E.
    revert hitems H. induction IH as [|kv items Hx _ IHitems];
      intros [|hkv hitems] H; try discriminate; constructor.
    + apply andb_true_iff in H. destruct H as [H _].
      apply andb_true_iff in H. destruct H as [Hk Hv].
      apply String.eqb_eq in Hk. split; [exact Hk | now apply Hx].
    + apply andb_true_iff in H. now apply IHitems.
Qed.

Lemma nth_error_frame (h h' : Store.heap) n l :
  (l < n)%nat -> firstn n h' = firstn n h ->
  nth_error h' l = nth_error h l.
Proof.
  revert h h' l. induction n as [|n IH]; intros h h' l Hl E; [lia|].
  destruct h as [|x h], h' as [|x' h']; simpl in E; try discriminate;
    [reflexivity|].
  injection E as -> E. destruct l; simpl; [reflexivity|].
  apply IH; [lia | exact E].
Qed.

Lemma Forall2_Forall_r {A B : Type} (P : B -> Prop) (R R' : A -> B -> Prop)
  (la : list A) (lb : list B) :
  Forall P lb -> (forall a b, P b -> R a b -> R' a b) ->
  Forall2 R la lb -> Forall2 R' la lb.
Proof.
  intros HP Himp H2. induction H2 as [|a b la lb Hab _ IH]; constructor;
    inversion HP; subst; auto.
Qed.

(** A tree held in the first [n] objects stays where these are kept. *)
Lemma rep_frame n h h' : forall v hv,
  rep n h hv v -> firstn n h' = firstn n h -> rep n h' hv v.
Proof.
  induction v as [| | | |items IH|items IH] using value_rect';
    intros hv H E; inversion H; subst; try constructor.
  - econstructor; eauto.
    + rewrite (nth_error_frame h h' n l); eauto.
    + eapply Forall2_Forall_r; [exact IH | | eassumption].
      intros a b Hb Hab. simpl in Hb. auto.
  - econstructor; eauto.
    + rewrite (nth_error_frame h h' n l); eauto.
    + eapply Forall2_Forall_r; [exact IH | | eassumption].
      intros a b Hb [Hk Hab]. simpl in Hb. auto.
Qed.

Lemma rep_step n h h' hv v :
  rep n h hv v -> Store.frame n h h' -> rep n h' hv v.
Proof. intros H [_ E]. eapply rep_frame; eauto. Qed.

Lemma rep_weaken n n' h : forall v hv,
  (n <= n')%nat -> rep n h hv v -> rep n' h hv v.
Proof.
  induction v as [| | | |items IH|items IH] using value_rect';
    intros hv Hn H; inversion H; subst; try constructor.
  - econstructor; eauto; [lia|].
    eapply Forall2_Forall_r; [exact IH | | eassumption].
    intros a b Hb Hab. simpl in Hb. auto.
  - econstructor; eauto; [lia|].
    eapply Forall2_Forall_r; [exact IH | | eassumption].
    intros a b Hb [Hk Hab]. simpl in Hb. auto.
Qed.

Lemma Forall2_fun {A B : Type} (P : B -> Prop) (R : A -> B -> Prop)
  (la : list A) (lb lb' : list B) :
  Forall P lb -> (forall a b b', P b -> R a b -> R a b' -> b = b') ->
  Forall2 R la lb -> Forall2 R la lb' -> lb = lb'.
Proof.
  intros HP Hfun H2. revert lb'.
  induction H2 as [|a b la lb Hab _ IH]; intros lb' H2'; inversion H2';
    subst; [reflexivity|].
  inversion HP; subst. f_equal; eauto.
Qed.

(** A value of the store is at most one tree. *)
Lemma rep_fun n h : forall v hv v',
  rep n h hv v -> rep n h hv v' -> v = v'.
Proof.
  induction v as [| | | |items IH|items IH] using value_rect';
    intros hv v' H H'; inversion H; subst; inversion H'; subst;
    try reflexivity; try congruence.
  - f_equal.
    match goal with
    | E1 : nth_error h l = _, E2 : nth_error h l = _ |- _ =>
        rewrite E1 in E2; injection E2 as <-
    end.
    eapply Forall2_fun; [exact IH | | eassumption | eassumption].
    intros a b b' Hb Hab Hab'. simpl in Hb. eauto.
  - f_equal.
    match goal with
    | E1 : nth_error h l = _, E2 : nth_error h l = _ |- _ =>
        rewrite E1 in E2; injection E2 as <-
    end.
    eapply Forall2_fun; [exact IH | | eassumption | eassumption].
    intros a [k x] [k' x'] Hb [Hk Hab] [Hk' Hab']. simpl in *.
    f_equal; [congruence | eauto].
Qed.

Lemma depth_in_list x items : In x items -> (depth x < depth (VList items))%nat.
Proof.
  simpl. induction items as [|y items IH]; simpl; [contradiction|].
  intros [->|Hin]; [lia|]. specialize (IH Hin). lia.
Qed.

Lemma depth_in_dict k x items :
  In (k, x) items -> (depth x < depth (VDict items))%nat.
Proof.
  simpl. induction items as [|y items IH]; simpl; [contradiction|].
  intros [->|Hin]; [simpl; lia|]. specialize (IH Hin). lia.
Qed.

Lemma depth_lookup items k x :
  lookup items k = Some x -> (depth x < depth (VDict items))%nat.
Proof. intros H. eapply depth_in_dict. eapply lookup_In. exact H. Qed.

(** *** Steps of a store run *)

Section Steps.
Context {A B C : Type}.
Variable S : Store.heap -> B -> C -> Prop.

Lemma sim_return h h1 (m : Store.M A) (k : A -> Store.M B) a p :
  m h = (Store.Return a, h1) -> sim S h1 (k a) p -> sim S h (Store.bind m k) p.
Proof.
  intros E H. unfold sim, Store.bind in *. rewrite E. exact H.
Qed.

Lemma sim_throws h h1 (m : Store.M A) (k : A -> Store.M B) e :
  m h = (Store.Throw e, h1) -> sim S h (Store.bind m k) (Raise e).
Proof.
  intros E. unfold sim, Store.bind. rewrite E. eauto.
Qed.

Lemma sim_ret h b c : S h b c -> sim S h (Store.ret b) (Ok c).
Proof. intros H. exists b, h. now split. Qed.

Lemma sim_throw h e : sim S h (Store.throw e) (Raise e).
Proof. now exists h. Qed.
End Steps.

Lemma sim_bind {A A' B B' : Type} (R : Store.heap -> A -> A' -> Prop)
  (S : Store.heap -> B -> B' -> Prop) h (m : Store.M A)
  (k : A -> Store.M B) (p : result A') (kp : A' -> result B') :
  sim R h m p ->
  (forall a a' h1, p = Ok a' -> m h = (Store.Return a, h1) -> R h1 a a' ->
                   sim S h1 (k a) (kp a')) ->
  sim S h (Store.bind m k) (bind p kp).
Proof.
  intros Hm Hk. destruct p as [a'|e]; simpl in *.
  - destruct Hm as (a & h1 & E & HR).
    apply (sim_return S h h1 m k a (kp a') E).
    exact (Hk a a' h1 eq_refl E HR).
  - destruct Hm as (h1 & E). exact (sim_throws S h h1 m k e E).
Qed.

Lemma sim_weaken {A B : Type} (R R' : Store.heap -> A -> B -> Prop) h m p :
  sim R h m p -> (forall h' a b, R h' a b -> R' h' a b) -> sim R' h m p.
Proof.
  intros H Himp. destruct p; simpl in *; [|exact H].
  destruct H as (a' & h' & E & HR). eauto.
Qed.

Lemma frame_of {A : Type} n (m : Store.M A) h r h1 :
  Store.keeps n m Store.any -> (n <= List.length h)%nat ->
  m h = (r, h1) -> Store.frame n h h1.
Proof.
  intros K Hn E. destruct (K h Hn) as [F _]. now rewrite E in F.
Qed.

(** *** The built-in operations *)

Lemma truthy_run n h hv v :
  rep n h hv v -> Store.truthy hv h = (Store.Return (truthy v), h).
Proof.
  intros H. inversion H; subst; try reflexivity.
  - unfold Store.truthy, Store.bind, Store.load.
    match goal with E : nth_error h _ = _ |- _ => rewrite E end.
    match goal with F : Forall2 _ _ _ |- _ => inversion F end; reflexivity.
  - unfold Store.truthy, Store.bind, Store.load.
    match goal with E : nth_error h _ = _ |- _ => rewrite E end.
    match goal with F : Forall2 _ _ _ |- _ => inversion F end; reflexivity.
Qed.

Lemma is_dict_run n h hv v :
  rep n h hv v -> Store.is_dict hv h = (Store.Return (is_dict v), h).
Proof.
  intros H. inversion H; subst; try reflexivity;
    unfold Store.is_dict, Store.bind, Store.load;
    match goal with E : nth_error h _ = _ |- _ => rewrite E end;
    reflexivity.
Qed.

Lemma lookup_rep n h hitems items k :
  Forall2 (fun hkv kv => fst hkv = fst kv /\ rep n h (snd hkv) (snd kv))
    hitems items ->
  match Store.lookup hitems k, lookup items k with
  | Some hv, Some v => rep n h hv v
  | None, None => True
  | _, _ => False
  end.
Proof.
  induction 1 as [|[hk hv] [k' v] hitems items [Hk Hv] _ IH];
    cbn [Store.lookup lookup]; [exact I|].
  simpl in Hk. subst hk. destruct (String.eqb k k'); [exact Hv | exact IH].
Qed.

(** [get] on a dictionary: the value found, or the default. *)
Lemma get_run n h hd items k hdflt :
  rep n h hd (VDict items) ->
  exists hv,
    Store.get hd k hdflt h = (Store.Return hv, h)
    /\ match lookup items k with
       | Some v => rep n h hv v
       | None => hv = hdflt
       end.
Proof.
  intros H. inversion H; subst.
  unfold Store.get, Store.bind, Store.load.
  match goal with E : nth_error h _ = _ |- _ => rewrite E end.
  match goal with F : Forall2 _ _ _ |- _ =>
                    pose proof (lookup_rep n h _ _ k F) as L end.
  destruct (Store.lookup hitems k), (lookup items k); try contradiction;
    eexists; (split; [reflexivity|]); [exact L | reflexivity].
Qed.

(** [get] on anything else. *)
Lemma get_throws n h hd v k hdflt :
  rep n h hd v -> is_dict v = false ->
  Store.get hd k hdflt h = (Store.Throw AttributeError, h).
Proof.
  intros H Hv. inversion H; subst; try reflexivity; try discriminate.
  unfold Store.get, Store.bind, Store.load.
  match goal with E : nth_error h _ = _ |- _ => rewrite E end.
  reflexivity.
Qed.

Lemma keys_rep n h hitems items :
  Forall2 (fun hkv kv => fst hkv = fst kv /\ rep n h (snd hkv) (snd kv))
    hitems items ->
  rep_items n h (map (fun kv => Store.HStr (fst kv)) hitems)
    (map (fun kv => VStr (fst kv)) items).
Proof.
  induction 1 as [|hkv kv hitems items [Hk _] _ IH]; simpl;
    [constructor | constructor; [rewrite Hk; constructor | exact IH]].
Qed.

Lemma py_iter_run n h hv v :
  rep n h hv v -> sim (rep_items n) h (Store.py_iter hv) (py_iter v).
Proof.
  intros H. inversion H; subst; simpl; try (now eexists).
  - eexists _, h. split; [reflexivity|].
    clear H. unfold rep_items.
    induction s as [|c s IH]; simpl;
      [constructor | constructor; [constructor | exact IH]].
  - eexists hitems, h. split; [|assumption].
    unfold Store.py_iter, Store.bind, Store.load.
    match goal with E : nth_error h _ = _ |- _ => rewrite E end.
    reflexivity.
  - eexists _, h. split.
    + unfold Store.py_iter, Store.bind, Store.load.
      match goal with E : nth_error h _ = _ |- _ => rewrite E end.
      reflexivity.
    + now apply keys_rep.
Qed.

(** *** [repr] and [str] *)

Lemma has_loc_In l stack : Store.has_loc l stack = true -> In l stack.
Proof.
  unfold Store.has_loc. intros H. apply existsb_exists in H.
  destruct H as (x & Hin & Hx). apply Nat.eqb_eq in Hx. now subst.
Qed.

Lemma repr_items_run (hrepr : Store.hval -> Store.M string)
  (prepr : value -> result string) h hitems items :
  Forall2 (fun hx x => hrepr hx h = Store.lift (prepr x) h) hitems items ->
  Store.repr_items hrepr hitems h = Store.lift (repr_items prepr items) h.
Proof.
  induction 1 as [|hx x hitems items Hx _ IH]; [reflexivity|].
  cbn [Store.repr_items repr_items]. unfold Store.bind at 1. rewrite Hx.
  destruct (prepr x) as [r|e]; [|reflexivity]. cbn [Store.lift bind].
  unfold Store.ret at 1. unfold Store.bind at 1. rewrite IH.
  destruct (repr_items prepr items); reflexivity.
Qed.

Lemma repr_dict_items_run (hrepr : Store.hval -> Store.M string)
  (prepr : value -> result string) h hitems items :
  Forall2 (fun hkv kv => fst hkv = fst kv
                         /\ hrepr (snd hkv) h = Store.lift (prepr (snd kv)) h)
    hitems items ->
  Store.repr_dict_items hrepr hitems h
  = Store.lift (repr_dict_items prepr items) h.
Proof.
  induction 1 as [|[hk hx] [k x] hitems items [Hk Hx] _ IH]; [reflexivity|].
  simpl in Hk, Hx. subst hk.
  cbn [Store.repr_dict_items repr_dict_items]. unfold Store.bind at 1.
  rewrite Hx.
  destruct (prepr x) as [r|e]; [|reflexivity]. cbn [Store.lift bind].
  unfold Store.ret at 1. unfold Store.bind at 1. rewrite IH.
  destruct (repr_dict_items prepr items); reflexivity.
Qed.

Lemma above_child n h v x l stack :
  above n h v stack -> rep n h (Store.HRef l) v ->
  (depth x < depth v)%nat -> above n h x (l :: stack).
Proof.
  intros Ha Hl Hx. constructor; [eauto|].
  eapply Forall_impl; [|exact Ha].
  intros l' (v' & Hv' & Hd). exists v'. split; [exact Hv' | lia].
Qed.

Lemma above_fresh n h v l stack :
  above n h v stack -> rep n h (Store.HRef l) v ->
  Store.has_loc l stack = false.
Proof.
  intros Ha Hl. destruct (Store.has_loc l stack) eqn:E; [|reflexivity].
  apply has_loc_In in E. unfold above in Ha. rewrite Forall_forall in Ha.
  destruct (Ha l E) as (v' & Hv' & Hd).
  rewrite (rep_fun n h _ _ _ Hl Hv') in Hd. lia.
Qed.

Lemma Forall2_Forall_In {A B : Type} (P : B -> Prop) (R R' : A -> B -> Prop)
  (la : list A) (lb : list B) :
  Forall P lb ->
  (forall a b, In b lb -> P b -> R a b -> R' a b) ->
  Forall2 R la lb -> Forall2 R' la lb.
Proof.
  intros HP Himp H2. induction H2 as [|a b la lb Hab _ IH]; constructor.
  - inversion HP; subst. apply Himp; simpl; auto.
  - inversion HP; subst. apply IH; [assumption|].
    intros a' b' Hin. apply Himp. now right.
Qed.

Lemma py_repr_run n h : forall v fuel hv stack,
  rep n h hv v -> (depth v <= fuel)%nat -> above n h v stack ->
  Store.py_repr fuel stack hv h = Store.lift (py_repr v) h.
Proof.
  induction v as [| | | |items IH|items IH] using value_rect';
    intros fuel hv stack H Hd Ha; inversion H; subst;
    try (destruct fuel; reflexivity).
  - destruct fuel as [|fuel]; [simpl in Hd; lia|].
    cbn [Store.py_repr py_repr]. unfold Store.bind at 1, Store.load.
    match goal with E : nth_error h _ = _ |- _ => rewrite E end.
    rewrite (above_fresh n h _ l stack Ha H).
    unfold Store.bind.
    rewrite (repr_items_run _ py_repr h hitems items).
    + destruct (repr_items py_repr items); reflexivity.
    + eapply Forall2_Forall_In; [exact IH | | eassumption].
      intros hx x Hin Hx Hrep. simpl in Hx.
      pose proof (depth_in_list x items Hin) as Hlt.
      apply Hx; [exact Hrep | lia |].
      eapply above_child; eauto.
  - destruct fuel as [|fuel]; [simpl in Hd; lia|].
    cbn [Store.py_repr py_repr]. unfold Store.bind at 1, Store.load.
    match goal with E : nth_error h _ = _ |- _ => rewrite E end.
    rewrite (above_fresh n h _ l stack Ha H).
    unfold Store.bind.
    rewrite (repr_dict_items_run _ py_repr h hitems items).
    + destruct (repr_dict_items py_repr items); reflexivity.
    + eapply Forall2_Forall_In; [exact IH | | eassumption].
      intros hkv [k x] Hin Hx [Hk Hrep]. simpl in Hx, Hk, Hrep.
      pose proof (depth_in_dict k x items Hin) as Hlt.
      split; [exact Hk|]. simpl.
      apply Hx; [exact Hrep | lia |].
      eapply above_child; eauto.
Qed.

Lemma py_str_run n h fuel hv v :
  rep n h hv v -> (depth v <= fuel)%nat ->
  Store.py_str fuel hv h = Store.lift (py_str v) h.
Proof.
  intros H Hd. destruct v; inversion H; subst; try reflexivity;
    unfold Store.py_str, py_str; apply (py_repr_run n h); auto;
    constructor.
Qed.

(** *** Helpers for the rules *)

Lemma eq_str_rep n h hv v s : rep n h hv v -> Store.eq_str hv s = eq_str v s.
Proof. intros H. inversion H; reflexivity. Qed.

Lemma get_or_run n h hd items k hdflt dflt :
  rep n h hd (VDict items) -> rep n h hdflt dflt ->
  exists hv,
    Store.get hd k hdflt h = (Store.Return hv, h)
    /\ rep n h hv (dict_get_or items k dflt).
Proof.
  intros Hd Hdflt. destruct (get_run n h hd items k hdflt Hd) as (hv & E & Hv).
  exists hv. split; [exact E|]. unfold dict_get_or.
  destruct (lookup items k); [exact Hv | now subst].
Qed.

Lemma depth_get_or d k dflt :
  (depth (dict_get_or d k dflt)
   <= Nat.max (depth dflt) (Nat.pred (depth (VDict d))))%nat.
Proof.
  unfold dict_get_or. destruct (lookup d k) as [v|] eqn:E;
    [|apply Nat.le_max_l].
  pose proof (depth_lookup d k v E) as Hlt.
  etransitivity; [|apply Nat.le_max_r]. lia.
Qed.

Lemma py_iter_depth v l :
  py_iter v = Ok l -> Forall (fun x => (depth x <= depth v)%nat) l.
Proof.
  destruct v as [| | |s|items|items]; cbn [py_iter]; try discriminate;
    intros E; injection E as <-; apply Forall_forall; intros x Hin.
  - apply in_map_iff in Hin. destruct Hin as (c & <- & _). simpl. lia.
  - pose proof (depth_in_list x items Hin). lia.
  - apply in_map_iff in Hin. destruct Hin as (kv & <- & _).
    cbn [depth]. lia.
Qed.

Lemma firstn_app_keep (h k : Store.heap) n :
  (n <= List.length h)%nat -> firstn n (h ++ k) = firstn n h.
Proof.
  intros Hn. rewrite firstn_app.
  replace (n - List.length h)%nat with O by lia. simpl. apply app_nil_r.
Qed.

Lemma rep_app n h k hv v :
  (n <= List.length h)%nat -> rep n h hv v -> rep n (h ++ k)%list hv v.
Proof.
  intros Hn H. eapply rep_frame; [exact H|]. now apply firstn_app_keep.
Qed.

(** A new empty dictionary or list is the empty tree. *)
Lemma rep_new_dict h :
  rep (S (List.length h)) (h ++ [Store.ODict []])%list (Store.HRef (List.length h))
    (VDict []).
Proof.
  econstructor; [lia | | constructor].
  rewrite nth_error_app2, Nat.sub_diag; [reflexivity | lia].
Qed.

Lemma rep_new_list h hitems items n :
  (n <= List.length h)%nat -> Forall2 (rep n h) hitems items ->
  rep (S (List.length h)) (h ++ [Store.OList hitems])%list
    (Store.HRef (List.length h)) (VList items).
Proof.
  intros Hn F. econstructor; [lia | |].
  - rewrite nth_error_app2, Nat.sub_diag; [reflexivity | lia].
  - eapply Forall2_impl; [|exact F]. intros a b Hab.
    apply (rep_weaken n); [lia|]. now apply rep_app.
Qed.

Lemma rep_leaf_any n n' h h' hv v :
  rep n h hv v -> depth v = O -> rep n' h' hv v.
Proof.
  intros H Hd. inversion H; subst; try constructor; simpl in Hd; lia.
Qed.

(** After [alloc]: the run goes on in the store with the new object. *)
Lemma sim_alloc {B C : Type} (S : Store.heap -> B -> C -> Prop) h o
  (k : Store.loc -> Store.M B) p :
  sim S (h ++ [o])%list (k (List.length h)) p ->
  sim S h (Store.bind (Store.alloc o) k) p.
Proof. intros H. eapply sim_return; [reflexivity | exact H]. Qed.

Lemma length_app_one (h : Store.heap) o :
  List.length (h ++ [o])%list = S (List.length h).
Proof. rewrite length_app. simpl. lia. Qed.

(** [f"{l}{text}{r}"] *)
Lemma wrap_run n n' h fuel l r htext text :
  rep n h htext text -> (depth text <= fuel)%nat ->
  sim (fun h' a b => h' = h /\ rep n' h' a b /\ depth b = O) h
    (Store.wrap fuel l htext r)
    (t <- py_str text ;; Ok (VStr (l ++ t ++ r))).
Proof.
  intros H Hd. unfold Store.wrap.
  pose proof (py_str_run n h fuel htext text H Hd) as E.
  destruct (py_str text) as [t|e]; cbn [Store.lift bind] in E |- *.
  - eapply sim_return; [exact E|]. apply sim_ret.
    repeat split; constructor.
  - eapply (sim_throws _ h h); exact E.
Qed.

Lemma wrap_text_out n nt h fuel l r htext text (text0 : value) :
  rep n h htext text -> (depth text <= fuel)%nat ->
  sim (text_out nt text0) h (Store.wrap fuel l htext r)
    (t <- py_str text ;; Ok (VStr (l ++ t ++ r))).
Proof.
  intros H Hd. eapply sim_weaken; [apply (wrap_run n nt); eassumption|].
  intros h' a b (_ & Hab & Hb). split; [exact Hab | lia].
Qed.

Lemma not_dict_raises v : is_dict v = false -> as_dict v = Raise AttributeError.
Proof. destruct v; try reflexivity; discriminate. Qed.

Section RuleSteps.
Context {B C : Type}.
Variable S : Store.heap -> B -> C -> Prop.

(** [d.get(k, dflt)] on a dictionary of the store. *)
Lemma get_step n h hd items k hdflt dflt (K : Store.hval -> Store.M B) p :
  rep n h hd (VDict items) -> rep n h hdflt dflt ->
  (forall hv, rep n h hv (dict_get_or items k dflt) -> sim S h (K hv) p) ->
  sim S h (Store.bind (Store.get hd k hdflt) K) p.
Proof.
  intros Hd Hdflt HK.
  destruct (get_or_run n h hd items k hdflt dflt Hd Hdflt) as (hv & E & Hv).
  eapply sim_return; [exact E | now apply HK].
Qed.

(** [get] on what is not a dictionary. *)
Lemma get_step_throws n h hd v k hdflt (K : Store.hval -> Store.M B) :
  rep n h hd v -> is_dict v = false ->
  sim S h (Store.bind (Store.get hd k hdflt) K) (Raise AttributeError).
Proof.
  intros Hd Hv. eapply sim_throws. eapply get_throws; eauto.
Qed.

Lemma truthy_step n h hv v (K : bool -> Store.M B) p :
  rep n h hv v -> sim S h (K (truthy v)) p ->
  sim S h (Store.bind (Store.truthy hv) K) p.
Proof.
  intros Hv HK. eapply sim_return; [eapply truthy_run; eauto | exact HK].
Qed.

Lemma get_attrs_step n h hd items k hdflt dflt (K : Store.hval -> Store.M B)
  p :
  rep_attrs n h hd items -> rep n h hdflt dflt ->
  (forall hv, rep n h hv (dict_get_or items k dflt) -> sim S h (K hv) p) ->
  sim S h (Store.bind (Store.get hd k hdflt) K) p.
Proof.
  intros [Hd | (-> & l & -> & El)] Hdflt HK.
  - eapply get_step; eauto.
  - eapply sim_return; [|apply HK; exact Hdflt].
    unfold Store.get, Store.bind, Store.load. rewrite El. reflexivity.
Qed.

(** [attrs = d.get(k, {})], followed by a [get] on [attrs]: the new
    dictionary is allocated, and when [attrs] is not a dictionary the
    [get] on it raises, as [as_dict] does. *)
Lemma attrs_step n h hd items k (K : Store.hval -> Store.M B)
  (Kp : list (string * value) -> result C) :
  rep_attrs n h hd items -> (n <= List.length h)%nat ->
  (forall hattrs attrs,
      rep_attrs n (h ++ [Store.ODict []])%list hattrs attrs ->
      (depth (VDict attrs) <= depth (VDict items))%nat ->
      sim S (h ++ [Store.ODict []])%list (K hattrs) (Kp attrs)) ->
  (forall hattrs a,
      rep n (h ++ [Store.ODict []])%list hattrs a ->
      is_dict a = false ->
      sim S (h ++ [Store.ODict []])%list (K hattrs) (Raise AttributeError)) ->
  sim S h
    (Store.bind (Store.alloc (Store.ODict []))
       (fun empty => Store.bind (Store.get hd k (Store.HRef empty)) K))
    (attrs <- as_dict (dict_get_or items k (VDict [])) ;; Kp attrs).
Proof.
  intros Hd Hn Hdict Hother. apply sim_alloc.
  assert (Hnew : rep_attrs n (h ++ [Store.ODict []])%list
                   (Store.HRef (List.length h)) []).
  { right. split; [reflexivity|]. eexists. split; [reflexivity|].
    rewrite nth_error_app2, Nat.sub_diag; [reflexivity | lia]. }
  assert (Hbase : (1 <= depth (VDict items))%nat) by (simpl; lia).
  destruct Hd as [Hd | (-> & l & -> & El)].
  - apply (rep_app n h [Store.ODict []]) in Hd; [|exact Hn].
    destruct (get_run n _ hd items k (Store.HRef (List.length h)) Hd)
      as (hv & E & Hv).
    eapply sim_return; [exact E|]. unfold dict_get_or.
    destruct (lookup items k) as [v|] eqn:Ek.
    + pose proof (depth_lookup items k v Ek) as Hlt.
      destruct v as [| | | | |attrs];
        try (apply (Hother _ _ Hv); reflexivity).
      cbn [as_dict bind]. apply Hdict; [now left | lia].
    + subst hv. cbn [as_dict bind]. apply Hdict; [exact Hnew | exact Hbase].
  - eapply sim_return.
    + unfold Store.get, Store.bind, Store.load.
      rewrite nth_error_app1 by (apply nth_error_Some; congruence).
      rewrite El. reflexivity.
    + cbn [lookup dict_get_or as_dict bind].
      apply Hdict; [exact Hnew | exact Hbase].
Qed.

Lemma py_str_step n h fuel hv v (K : string -> Store.M B)
  (Kp : string -> result C) :
  rep n h hv v -> (depth v <= fuel)%nat ->
  (forall s, sim S h (K s) (Kp s)) ->
  sim S h (Store.bind (Store.py_str fuel hv) K) (s <- py_str v ;; Kp s).
Proof.
  intros Hv Hd HK. pose proof (py_str_run n h fuel hv v Hv Hd) as E.
  destruct (py_str v) as [s|e]; cbn [Store.lift bind] in E |- *.
  - eapply sim_return; [exact E | apply HK].
  - eapply sim_throws; exact E.
Qed.
End RuleSteps.

Lemma apply_mark_run nt nm h fuel htext text hmark mark :
  (nt <= List.length h)%nat -> (nm <= List.length h)%nat ->
  rep nt h htext text -> rep nm h hmark mark ->
  (depth text <= fuel)%nat -> (depth mark <= fuel)%nat ->
  sim (text_out nt text) h (Store.apply_mark fuel htext hmark)
    (apply_mark text mark).
Proof.
  intros Hnt Hnm Ht Hm Hdt Hdm. unfold Store.apply_mark, apply_mark.
  destruct (is_dict mark) eqn:Edict.
  2:{ rewrite (not_dict_raises mark Edict). cbn [bind].
      eapply get_step_throws; eauto. }
  destruct mark as [| | | | |m]; try discriminate. cbn [as_dict bind].
  unfold dict_get.
  eapply get_step; [exact Hm | constructor|]. intros hty Hty.
  rewrite !(eq_str_rep nm h hty _ _ Hty).
  destruct (eq_str (dict_get_or m "type" VNone) "code");
    [now apply (wrap_text_out nt)|].
  destruct (eq_str (dict_get_or m "type" VNone) "strong");
    [now apply (wrap_text_out nt)|].
  destruct (eq_str (dict_get_or m "type" VNone) "em");
    [now apply (wrap_text_out nt)|].
  destruct (eq_str (dict_get_or m "type" VNone) "strike");
    [now apply (wrap_text_out nt)|].
  destruct (eq_str (dict_get_or m "type" VNone) "underline");
    [now apply (wrap_text_out nt)|].
  assert (Ht1 : rep nt (h ++ [Store.ODict []])%list htext text)
    by (now apply rep_app).
  destruct (eq_str (dict_get_or m "type" VNone) "link").
  { apply (attrs_step _ nm); [now left | exact Hnm | |].
    - intros hattrs attrs Ha Hda.
      eapply get_attrs_step; [exact Ha | constructor|]. intros hhref Hhref.
      eapply truthy_step; [exact Hhref|].
      pose proof (depth_get_or attrs "href" (VStr EmptyString)) as Hdh.
      change (depth (VStr EmptyString)) with O in Hdh.
      destruct (truthy (dict_get_or attrs "href" (VStr EmptyString))).
      + eapply py_str_step; [exact Ht1 | exact Hdt|]. intros t.
        eapply py_str_step; [exact Hhref | lia|]. intros s.
        apply sim_ret. split; [constructor | simpl; lia].
      + apply sim_ret. split; [exact Ht1 | lia].
    - intros hattrs a Ha Hnd. eapply get_step_throws; eauto. }
  destruct (eq_str (dict_get_or m "type" VNone) "subsup").
  { apply (attrs_step _ nm); [now left | exact Hnm | |].
    - intros hattrs attrs Ha Hda.
      eapply get_attrs_step; [exact Ha | constructor|]. intros hty' Hty'.
      rewrite !(eq_str_rep _ _ hty' _ _ Hty').
      destruct (eq_str (dict_get_or attrs "type" VNone) "sub");
        [now apply (wrap_text_out nt)|].
      destruct (eq_str (dict_get_or attrs "type" VNone) "sup");
        [now apply (wrap_text_out nt)|].
      apply sim_ret. split; [exact Ht1 | lia].
    - intros hattrs a Ha Hnd. eapply get_step_throws; eauto. }
  apply sim_ret. split; [exact Ht | lia].
Qed.

Lemma rep_list_step n h h' hl l :
  rep_items n h hl l -> firstn n h' = firstn n h -> rep_items n h' hl l.
Proof.
  intros F E. eapply Forall2_impl; [|exact F].
  intros a b Hab. eapply rep_frame; eauto.
Qed.

Lemma apply_mark_loop_run nt nm fuel text0 : forall ms hms h htext text,
  (nt <= List.length h)%nat -> (nm <= List.length h)%nat ->
  rep nt h htext text -> rep_items nm h hms ms ->
  (depth text <= depth text0)%nat -> (depth text0 <= fuel)%nat ->
  Forall (fun m => (depth m <= fuel)%nat) ms ->
  sim (text_out nt text0) h (Store.apply_mark_loop fuel htext hms)
    (apply_mark_loop text ms).
Proof.
  induction ms as [|m ms IH]; intros hms h htext text Hnt Hnm Ht Hms Hd0 Hdf
    Hdm; inversion Hms; subst; cbn [Store.apply_mark_loop apply_mark_loop].
  - apply sim_ret. split; [exact Ht | exact Hd0].
  - inversion Hdm; subst.
    eapply sim_bind; [eapply (apply_mark_run nt nm); eauto; lia|].
    intros a a' h1 _ E [Ha Hda].
    pose proof (frame_of nm _ h _ h1
                  (StoreFacts.keeps_apply_mark _ fuel htext x) Hnm E)
      as [Hlen Hfr].
    apply IH; try lia; try assumption.
    eapply rep_list_step; eassumption.
Qed.

Lemma apply_marks_run nt nm h fuel htext text hmarks marks :
  (nt <= List.length h)%nat -> (nm <= List.length h)%nat ->
  rep nt h htext text -> rep nm h hmarks marks ->
  (depth text <= fuel)%nat -> (depth marks <= fuel)%nat ->
  sim (text_out nt text) h (Store._apply_marks fuel htext hmarks)
    (_apply_marks text marks).
Proof.
  intros Hnt Hnm Ht Hm Hdt Hdm. unfold Store._apply_marks, _apply_marks.
  eapply truthy_step; [exact Hm|].
  destruct (truthy marks); cbn [negb];
    [|apply sim_ret; split; [exact Ht | lia]].
  eapply sim_bind; [apply (py_iter_run nm); exact Hm|].
  intros hms ms h1 Ems E Hms.
  pose proof (frame_of nt _ h _ h1 (StoreFacts.keeps_py_iter _ hmarks) Hnt E)
    as [Hlen Hfr].
  apply (apply_mark_loop_run nt nm); try lia; try assumption.
  - eapply rep_frame; eassumption.
  - eapply Forall_impl; [|exact (py_iter_depth _ _ Ems)].
    intros m Hm'. simpl in Hm'. lia.
Qed.

Lemma any_code_mark_run n h : forall ms hms,
  rep_items n h hms ms ->
  sim (fun _ a b => a = b) h (Store.any_code_mark hms) (any_code_mark ms).
Proof.
  induction ms as [|m ms IH]; intros hms Hms; inversion Hms; subst;
    cbn [Store.any_code_mark any_code_mark]; [now apply sim_ret|].
  destruct (is_dict m) eqn:Edict.
  2:{ rewrite (not_dict_raises m Edict). cbn [bind].
      eapply get_step_throws; eauto. }
  destruct m as [| | | | |d]; try discriminate. cbn [as_dict bind].
  unfold dict_get.
  eapply get_step; [eassumption | constructor|]. intros hty Hty.
  rewrite (eq_str_rep n h hty _ _ Hty).
  destruct (eq_str (dict_get_or d "type" VNone) "code");
    [now apply sim_ret | now apply IH].
Qed.

Lemma non_code_marks_run n h : forall ms hms,
  rep_items n h hms ms ->
  sim (fun h' a b => h' = h /\ rep_items n h a b) h
    (Store.non_code_marks hms) (non_code_marks ms).
Proof.
  induction ms as [|m ms IH]; intros hms Hms; inversion Hms; subst;
    cbn [Store.non_code_marks non_code_marks].
  - apply sim_ret. split; [reflexivity | constructor].
  - destruct (is_dict m) eqn:Edict.
    2:{ rewrite (not_dict_raises m Edict). cbn [bind].
        eapply get_step_throws; eauto. }
    destruct m as [| | | | |d]; try discriminate. cbn [as_dict bind].
    unfold dict_get.
    eapply get_step; [eassumption | constructor|]. intros hty Hty.
    rewrite (eq_str_rep n h hty _ _ Hty).
    eapply sim_bind; [apply IH; assumption|].
    intros hkept kept h1 _ _ [-> Hkept]. apply sim_ret.
    split; [reflexivity|].
    destruct (negb (eq_str (dict_get_or d "type" VNone) "code"));
      [constructor; assumption | assumption].
Qed.

Lemma non_code_marks_sub ms : forall kept (P : value -> Prop),
  non_code_marks ms = Ok kept -> Forall P ms -> Forall P kept.
Proof.
  induction ms as [|m ms IH]; intros kept P E HP; simpl in E.
  - injection E as <-. constructor.
  - destruct (as_dict m) as [d|]; simpl in E; [|discriminate].
    destruct (non_code_marks ms) as [ks|]; simpl in E; [|discriminate].
    injection E as <-. inversion HP; subst.
    destruct (negb (eq_str (dict_get d "type") "code"));
      [constructor; eauto | eauto].
Qed.

(** [node.get("marks", [])]: the marks of the node, or a new empty
    list. *)
Lemma marks_step {B C : Type} (S : Store.heap -> B -> C -> Prop) n h hnode
  node (K : Store.hval -> Store.M B) p :
  rep n h hnode (VDict node) -> (n <= List.length h)%nat ->
  (forall hmarks,
      rep (Datatypes.S (List.length h)) (h ++ [Store.OList []])%list hmarks
        (dict_get_or node "marks" (VList [])) ->
      sim S (h ++ [Store.OList []])%list (K hmarks) p) ->
  sim S h
    (Store.bind (Store.alloc (Store.OList []))
       (fun empty => Store.bind (Store.get hnode "marks" (Store.HRef empty)) K))
    p.
Proof.
  intros Hnode Hn HK. apply sim_alloc.
  eapply get_step; [|apply (rep_new_list h [] [] n Hn); constructor | exact HK].
  apply (rep_weaken n); [lia|]. now apply rep_app.
Qed.

Lemma has_code_mark_run n h hnode node :
  rep n h hnode (VDict node) -> (n <= List.length h)%nat ->
  sim (fun _ a b => a = b) h (Store._has_code_mark hnode)
    (_has_code_mark node).
Proof.
  intros Hnode Hn. unfold Store._has_code_mark, _has_code_mark, dict_get.
  eapply get_step; [exact Hnode | constructor|]. intros hty Hty.
  rewrite (eq_str_rep n h hty _ _ Hty).
  destruct (negb (eq_str (dict_get_or node "type" VNone) "text"));
    [now apply sim_ret|].
  eapply marks_step; [exact Hnode | exact Hn|]. intros hmarks Hmarks.
  eapply sim_bind; [eapply py_iter_run; exact Hmarks|].
  intros hms ms h1 _ E Hms. exact (any_code_mark_run _ _ _ _ Hms).
Qed.

Lemma is_code_item_run n h hitem item :
  rep n h hitem item -> (n <= List.length h)%nat ->
  sim (fun _ a b => a = b) h (Store.is_code_item hitem) (is_code_item item).
Proof.
  intros Hitem Hn. unfold Store.is_code_item.
  eapply sim_return; [eapply is_dict_run; exact Hitem|].
  destruct item; cbn [is_dict is_code_item]; try (now apply sim_ret).
  now apply (has_code_mark_run n).
Qed.

Lemma depth_list_le l d :
  (1 <= d)%nat -> Forall (fun x => (depth x < d)%nat) l ->
  (depth (VList l) <= d)%nat.
Proof.
  intros Hd HF. cbn [depth].
  induction HF as [|x l Hx _ IH]; simpl; lia.
Qed.

Lemma depth_list_elems l : Forall (fun x => (depth x < depth (VList l))%nat) l.
Proof. apply Forall_forall. intros x Hin. now apply depth_in_list. Qed.

Lemma py_iter_depth_list v l :
  py_iter v = Ok l -> (depth (VList l) <= Nat.max 1 (depth v))%nat.
Proof.
  destruct v as [| | |s|items|items]; cbn [py_iter]; try discriminate;
    intros E; injection E as <-.
  - apply depth_list_le; [lia|]. apply Forall_forall. intros x Hin.
    apply in_map_iff in Hin. destruct Hin as (c & <- & _). cbn [depth]. lia.
  - lia.
  - apply depth_list_le; [lia|]. apply Forall_forall. intros x Hin.
    apply in_map_iff in Hin. destruct Hin as (kv & <- & _). cbn [depth]. lia.
Qed.

Lemma get_text_run n h fuel hnode node :
  rep n h hnode (VDict node) -> (n <= List.length h)%nat ->
  (depth (VDict node) <= fuel)%nat ->
  sim (rep n) h (Store._get_text_without_code_mark fuel hnode)
    (_get_text_without_code_mark node).
Proof.
  intros Hnode Hn Hd.
  unfold Store._get_text_without_code_mark, _get_text_without_code_mark.
  eapply get_step; [exact Hnode | constructor|]. intros htext Htext.
  pose proof (depth_get_or node "text" (VStr EmptyString)) as Hdt.
  change (depth (VStr EmptyString)) with O in Hdt.
  pose proof (depth_get_or node "marks" (VList [])) as Hdm.
  change (depth (VList [])) with 1%nat in Hdm.
  assert (Hbase : (1 <= depth (VDict node))%nat) by (cbn [depth]; lia).
  eapply marks_step; [exact Hnode | exact Hn|]. intros hmarks Hmarks.
  apply (rep_app n h [Store.OList []]) in Htext; [|exact Hn].
  pose proof (length_app_one h (Store.OList [])) as Hlen1.
  eapply sim_bind; [eapply py_iter_run; exact Hmarks|].
  intros hms ms h2 Ems E2 Hms.
  assert (Hn1 : (n <= List.length (h ++ [Store.OList []])%list)%nat) by lia.
  pose proof (frame_of n _ _ _ h2 (StoreFacts.keeps_py_iter _ hmarks)
                Hn1 E2) as [Hlen2 Hfr2].
  eapply sim_bind; [eapply non_code_marks_run; exact Hms|].
  intros hkept kept h3 Ekept _ [-> Hkept].
  apply sim_alloc.
  assert (Hnon : rep (S (List.length h2)) (h2 ++ [Store.OList hkept])%list
                   (Store.HRef (List.length h2)) (VList kept)).
  { eapply rep_new_list; [|exact Hkept]. lia. }
  assert (Htext4 : rep n (h2 ++ [Store.OList hkept])%list htext
                     (dict_get_or node "text" (VStr EmptyString))).
  { apply rep_app; [lia|]. eapply rep_frame; eassumption. }
  pose proof (length_app_one h2 (Store.OList hkept)) as Hlen4.
  eapply truthy_step; [exact Hnon|].
  destruct (truthy (VList kept)); [|now apply sim_ret].
  eapply sim_weaken.
  - eapply (apply_marks_run n (S (List.length h2))); try eassumption;
      try lia.
    pose proof (py_iter_depth_list _ _ Ems) as Hdms.
    pose proof (non_code_marks_sub ms kept _ Ekept (depth_list_elems ms))
      as Hsub.
    pose proof (depth_list_le kept (depth (VList ms))
                  ltac:(cbn [depth]; lia) Hsub).
    lia.
  - intros h' a b [Hab _]. exact Hab.
Qed.

(** *** The lists of the merger *)

Lemma nth_error_update_eq h l o :
  (l < List.length h)%nat -> nth_error (Store.update h l o) l = Some o.
Proof.
  revert l. induction h as [|x h IH]; intros [|l] H; simpl in *; try lia.
  - reflexivity.
  - apply IH. lia.
Qed.

Lemma nth_error_update_ne h l l' o :
  l <> l' -> nth_error (Store.update h l o) l' = nth_error h l'.
Proof.
  revert l l'. induction h as [|x h IH]; intros [|l] [|l'] H; simpl;
    try reflexivity; try congruence.
  apply IH. congruence.
Qed.

Lemma nth_error_lt {A} (l : list A) i x :
  nth_error l i = Some x -> (i < List.length l)%nat.
Proof. intros H. apply nth_error_Some. congruence. Qed.

Lemma list_append_run h l items x :
  nth_error h l = Some (Store.OList items) ->
  Store.list_append l x h
  = (Store.Return tt, Store.update h l (Store.OList (items ++ [x]))).
Proof.
  intros E. unfold Store.list_append, Store.load_list, Store.bind,
    Store.load, Store.store. rewrite E. simpl. rewrite E. reflexivity.
Qed.

Lemma list_clear_run h l items :
  nth_error h l = Some (Store.OList items) ->
  Store.list_clear l h = (Store.Return tt, Store.update h l (Store.OList [])).
Proof.
  intros E. unfold Store.list_clear, Store.load_list, Store.bind,
    Store.load, Store.store. rewrite E. simpl. rewrite E. reflexivity.
Qed.

Lemma list_extend_run h l more items added :
  nth_error h l = Some (Store.OList items) ->
  nth_error h more = Some (Store.OList added) ->
  Store.list_extend l more h
  = (Store.Return tt, Store.update h l (Store.OList (items ++ added))).
Proof.
  intros E E'. unfold Store.list_extend, Store.load_list, Store.bind,
    Store.load, Store.store. rewrite E'. simpl. rewrite E. simpl.
  rewrite E. reflexivity.
Qed.

Lemma frame_le n n' h h' :
  Store.frame n' h h' -> (n <= n')%nat -> firstn n h' = firstn n h.
Proof.
  intros [_ E] Hn. rewrite <- (Nat.min_l n n') by lia.
  rewrite <- !firstn_firstn. now rewrite E.
Qed.

(** The lists of the merger outlive a call that keeps the whole store. *)
Lemma merger_inv_keep n h h' rp cb st :
  merger_inv n h rp cb st -> Store.frame (List.length h) h h' ->
  merger_inv n h' rp cb st.
Proof.
  intros (Hrp & Hcb & Hne & (hparts & Erp & Hparts) & Ecb) F.
  pose proof (nth_error_lt _ _ _ Erp) as Lrp.
  pose proof (nth_error_lt _ _ _ Ecb) as Lcb.
  destruct F as [Hlen E].
  repeat split; try assumption.
  - exists hparts. split.
    + rewrite (nth_error_frame h h' (List.length h) rp); assumption.
    + eapply rep_list_step; [exact Hparts|].
      apply (frame_le n (List.length h)); [split; assumption | lia].
  - rewrite (nth_error_frame h h' (List.length h) cb); assumption.
Qed.

Lemma strs_of_map (ss : list string) :
  Store.strs_of (map Store.HStr ss) = Ok ss.
Proof. induction ss as [|s ss IH]; simpl; [reflexivity | now rewrite IH]. Qed.

Lemma strs_of_rep n h hparts parts :
  rep_items n h hparts parts -> Store.strs_of hparts = strs_of parts.
Proof.
  induction 1 as [|hp p hparts parts Hp _ IH]; [reflexivity|].
  inversion Hp; subst; simpl; try reflexivity.
  rewrite IH. destruct (strs_of parts); reflexivity.
Qed.

(** The writes of a flush: a part is appended, the buffer is cleared. *)
Lemma flush_writes n h rp cb parts buf X :
  merger_inv n h rp cb (parts, buf) ->
  exists h',
    Store.bind (Store.list_append rp (Store.HStr X))
      (fun _ => Store.list_clear cb) h = (Store.Return tt, h')
    /\ merger_inv n h' rp cb ((parts ++ [VStr X])%list, []).
Proof.
  intros (Hrp & Hcb & Hne & (hparts & Erp & Hparts) & Ecb).
  simpl in Hparts, Ecb.
  pose proof (nth_error_lt _ _ _ Erp) as Lrp.
  pose proof (nth_error_lt _ _ _ Ecb) as Lcb.
  eexists. split.
  - unfold Store.bind. rewrite (list_append_run h rp hparts _ Erp).
    erewrite list_clear_run; [reflexivity|].
    rewrite nth_error_update_ne by exact Hne. exact Ecb.
  - repeat split; try assumption.
    + exists (hparts ++ [Store.HStr X])%list. split.
      * rewrite nth_error_update_ne by congruence.
        now apply nth_error_update_eq.
      * apply Forall2_app.
        -- eapply rep_list_step; [exact Hparts|].
           rewrite !StoreFacts.firstn_update by assumption. reflexivity.
        -- repeat constructor.
    + apply nth_error_update_eq.
      rewrite StoreFacts.length_update. exact Lcb.
Qed.

Lemma flush_run n h rp cb st :
  merger_inv n h rp cb st ->
  sim (fun h' _ st' => merger_inv n h' rp cb st') h
    (Store.flush_code_buffer rp cb) (Ok (flush_code_buffer st)).
Proof.
  intros Hinv. destruct st as [parts buf].
  pose proof Hinv as (_ & _ & _ & _ & Ecb). simpl in Ecb.
  unfold Store.flush_code_buffer.
  eapply sim_return.
  { unfold Store.load_list, Store.bind, Store.load. rewrite Ecb.
    reflexivity. }
  destruct buf as [|line buf]; cbn [map]; [now apply sim_ret|].
  eapply sim_return.
  { change (Store.HStr line :: map Store.HStr buf)
      with (map Store.HStr (line :: buf)).
    rewrite strs_of_map. reflexivity. }
  cbn [flush_code_buffer].
  destruct buf as [|line2 buf].
  - cbn [List.length Nat.eqb andb].
    destruct (negb (contains_nl line)).
    + destruct (flush_writes n h rp cb parts [line] (inline_code line) Hinv)
        as (h' & E & H').
      exists tt, h'. split; [exact E | exact H'].
    + destruct (flush_writes n h rp cb parts [line]
                  (fenced (join nl [line])) Hinv) as (h' & E & H').
      exists tt, h'. split; [exact E | exact H'].
  - cbn [List.length Nat.eqb andb].
    destruct (flush_writes n h rp cb parts (line :: line2 :: buf)
                (fenced (join nl (line :: line2 :: buf))) Hinv)
      as (h' & E & H').
    exists tt, h'. split; [exact E | exact H'].
Qed.

Lemma py_split_nl_run {B C : Type} (S : Store.heap -> B -> C -> Prop) n h
  htext text (K : Store.loc -> Store.M B) (Kp : list string -> result C) :
  rep n h htext text ->
  (forall s, text = VStr s ->
             sim S (h ++ [Store.OList (map Store.HStr (split_nl s))])%list
               (K (List.length h)) (Kp (split_nl s))) ->
  sim S h (Store.bind (Store.py_split_nl htext) K)
    (lines <- py_split_nl text ;; Kp lines).
Proof.
  intros Ht HK. inversion Ht; subst; cbn [py_split_nl bind];
    try (eapply sim_throws; reflexivity).
  eapply sim_return; [reflexivity|]. now apply HK.
Qed.

(** [code_buffer.extend(lines)], with the new list [lines]. *)
Lemma extend_lines n h rp cb st lines :
  merger_inv n h rp cb st ->
  exists h',
    Store.list_extend cb (List.length h)
      (h ++ [Store.OList (map Store.HStr lines)])%list
    = (Store.Return tt, h')
    /\ merger_inv n h' rp cb (fst st, (snd st ++ lines)%list)
    /\ firstn n h' = firstn n h
    /\ (List.length h <= List.length h')%nat.
Proof.
  intros (Hrp & Hcb & Hne & (hparts & Erp & Hparts) & Ecb).
  pose proof (nth_error_lt _ _ _ Erp) as Lrp.
  pose proof (nth_error_lt _ _ _ Ecb) as Lcb.
  set (h1 := (h ++ [Store.OList (map Store.HStr lines)])%list).
  assert (Ecb1 : nth_error h1 cb = Some (Store.OList (map Store.HStr (snd st)))).
  { unfold h1. rewrite nth_error_app1 by exact Lcb. exact Ecb. }
  assert (Erp1 : nth_error h1 rp = Some (Store.OList hparts)).
  { unfold h1. rewrite nth_error_app1 by exact Lrp. exact Erp. }
  assert (Elines : nth_error h1 (List.length h)
                   = Some (Store.OList (map Store.HStr lines))).
  { unfold h1. rewrite nth_error_app2, Nat.sub_diag by lia. reflexivity. }
  assert (Fn : firstn n (Store.update h1 cb
                           (Store.OList
                              (map Store.HStr (snd st)
                               ++ map Store.HStr lines)))
               = firstn n h).
  { rewrite StoreFacts.firstn_update by exact Hcb. unfold h1.
    apply firstn_app_keep. lia. }
  eexists. split; [exact (list_extend_run h1 cb _ _ _ Ecb1 Elines)|].
  split; [|split; [exact Fn|]].
  - repeat split; try assumption.
    + exists hparts. split.
      * rewrite nth_error_update_ne by congruence. exact Erp1.
      * eapply rep_list_step; [exact Hparts | exact Fn].
    + cbn [snd]. rewrite map_app. apply nth_error_update_eq.
      unfold h1. rewrite length_app. lia.
  - rewrite StoreFacts.length_update. unfold h1. rewrite length_app. lia.
Qed.

(** [result_parts.append(text)] *)
Lemma append_part n h rp cb st htext text :
  merger_inv n h rp cb st -> rep n h htext text ->
  exists h',
    Store.list_append rp htext h = (Store.Return tt, h')
    /\ merger_inv n h' rp cb ((fst st ++ [text])%list, snd st)
    /\ firstn n h' = firstn n h
    /\ (List.length h <= List.length h')%nat.
Proof.
  intros (Hrp & Hcb & Hne & (hparts & Erp & Hparts) & Ecb) Htext.
  pose proof (nth_error_lt _ _ _ Erp) as Lrp.
  assert (Fn : firstn n (Store.update h rp (Store.OList (hparts ++ [htext])))
               = firstn n h)
    by (now apply StoreFacts.firstn_update).
  eexists. split; [exact (list_append_run h rp hparts htext Erp)|].
  split; [|split; [exact Fn|]].
  - repeat split; try assumption.
    + exists (hparts ++ [htext])%list. split.
      * now apply nth_error_update_eq.
      * apply Forall2_app.
        -- eapply rep_list_step; [exact Hparts | exact Fn].
        -- constructor; [|constructor]. eapply rep_frame; [exact Htext|].
           exact Fn.
    + cbn [snd]. rewrite nth_error_update_ne by exact Hne. exact Ecb.
  - rewrite StoreFacts.length_update. lia.
Qed.

Section MergerRuns.
Variable fuel : nat.
Variable conv : Store.hval -> Store.M Store.hval.
Variable pconv : value -> result value.
Hypothesis keeps_conv : forall n v, Store.keeps n (conv v) Store.any.
Hypothesis conv_run :
  forall n h hv v,
    (n <= List.length h)%nat -> rep n h hv v -> (depth v < fuel)%nat ->
    sim (rep n) h (conv hv) (pconv v).

Lemma merge_items_run n rp cb : forall items hitems h st,
  merger_inv n h rp cb st -> rep_items n h hitems items ->
  Forall (fun x => (depth x < fuel)%nat) items ->
  sim (fun h' _ st' => merger_inv n h' rp cb st') h
    (Store.merge_items fuel conv rp cb hitems) (merge_items pconv items st).
Proof.
  induction items as [|item items IH]; intros hitems h st Hinv Hitems Hd;
    inversion Hitems; subst; cbn [Store.merge_items merge_items];
    [now apply sim_ret|].
  inversion Hd; subst.
  pose proof Hinv as (Hrp & Hcb & Hne & (hparts & Erp & Hparts) & Ecb).
  pose proof (nth_error_lt _ _ _ Erp) as Lrp.
  eapply sim_bind; [apply (is_code_item_run n); [eassumption | lia]|].
  intros is_code b h1 Ecode E1 <-.
  pose proof (frame_of (List.length h) _ h _ h1
                (StoreFacts.keeps_is_code_item _ x) (le_n _) E1) as F1.
  pose proof (merger_inv_keep _ _ _ _ _ _ Hinv F1) as Hinv1.
  pose proof (frame_le n _ _ _ F1 ltac:(lia)) as Fn1.
  destruct F1 as [Hlen1 _].
  destruct is_code.
  - destruct item as [| | | | |node]; try discriminate.
    eapply sim_bind.
    { apply (get_text_run n); [eapply rep_frame; eassumption | lia | lia]. }
    intros htext text h2 _ E2 Htext.
    pose proof (frame_of (List.length h1) _ h1 _ h2
                  (StoreFacts.keeps_get_text_without_code_mark _ fuel x)
                  (le_n _) E2) as F2.
    pose proof (merger_inv_keep _ _ _ _ _ _ Hinv1 F2) as Hinv2.
    pose proof (frame_le n _ _ _ F2 ltac:(lia)) as Fn2.
    destruct F2 as [Hlen2 _].
    eapply py_split_nl_run; [exact Htext|]. intros s ->.
    destruct (extend_lines n h2 rp cb st (split_nl s) Hinv2)
      as (h4 & E4 & Hinv4 & Fn4 & Hlen4).
    eapply sim_return; [exact E4|].
    apply IH; [exact Hinv4 | | assumption].
    eapply rep_list_step; [eassumption|]. congruence.
  - destruct (flush_run n h1 rp cb st Hinv1) as ([] & h2 & E2 & Hinv2).
    eapply sim_return; [exact E2|]. cbv zeta.
    pose proof (frame_of n _ h1 _ h2
                  (StoreFacts.keeps_flush_code_buffer n rp cb Hrp Hcb)
                  ltac:(lia) E2) as [Hlen2 Fn2].
    eapply sim_bind.
    { apply (conv_run n); [lia | | assumption].
      eapply rep_frame; [|exact Fn2]. eapply rep_frame; eassumption. }
    intros htext text h3 _ E3 Htext.
    pose proof (frame_of (List.length h2) _ h2 _ h3 (keeps_conv _ x)
                  (le_n _) E3) as F3.
    pose proof (merger_inv_keep _ _ _ _ _ _ Hinv2 F3) as Hinv3.
    pose proof (frame_le n _ _ _ F3 ltac:(lia)) as Fn3.
    destruct F3 as [Hlen3 _].
    eapply truthy_step; [exact Htext|].
    destruct (truthy text).
    + destruct (append_part n h3 rp cb _ htext text Hinv3 Htext)
        as (h4 & E4 & Hinv4 & Fn4 & Hlen4).
      eapply sim_return; [exact E4|].
      apply IH; [exact Hinv4 | | assumption].
      eapply rep_list_step; [eassumption|]. congruence.
    + eapply sim_return; [reflexivity|].
      destruct (flush_code_buffer st) as [parts' buf'] eqn:Ef.
      apply IH; [exact Hinv3 | | assumption].
      eapply rep_list_step; [eassumption|]. congruence.
Qed.

Lemma process_content_list_run n h hitems items :
  rep n h hitems (VList items) -> (n <= List.length h)%nat ->
  (depth (VList items) <= fuel)%nat ->
  sim (rep n) h (Store._process_content_list fuel conv hitems)
    (_process_content_list pconv items).
Proof.
  intros Hrep Hn Hd. unfold Store._process_content_list.
  eapply truthy_step; [exact Hrep|].
  destruct items as [|x items]; cbn [truthy negb];
    [apply sim_ret; constructor|].
  apply sim_alloc. apply sim_alloc.
  set (h2 := ((h ++ [Store.OList []]) ++ [Store.OList []])%list).
  assert (Hlen2 : List.length h2 = S (S (List.length h)))
    by (unfold h2; rewrite !length_app; simpl; lia).
  rewrite length_app_one.
  assert (Hrep2 : rep n h2 hitems (VList (x :: items))).
  { unfold h2. rewrite <- app_assoc. now apply rep_app. }
  assert (Hinv2 : merger_inv n h2 (List.length h) (S (List.length h))
                    ([], [])).
  { repeat split; try lia.
    - exists []. split; [|constructor]. unfold h2.
      rewrite nth_error_app1 by (rewrite length_app; simpl; lia).
      rewrite nth_error_app2, Nat.sub_diag by lia. reflexivity.
    - unfold h2. rewrite nth_error_app2 by (rewrite length_app; simpl; lia).
      rewrite length_app. cbn [List.length].
      replace (S (List.length h) - (List.length h + 1))%nat with O by lia.
      reflexivity. }
  destruct (py_iter_run n h2 hitems _ Hrep2) as (hits & h3 & E3 & Hits).
  eapply sim_return; [exact E3|].
  pose proof (frame_of (List.length h2) _ h2 _ h3
                (StoreFacts.keeps_py_iter _ hitems) (le_n _) E3) as F3.
  pose proof (merger_inv_keep _ _ _ _ _ _ Hinv2 F3) as Hinv3.
  unfold _process_content_list.
  eapply sim_bind.
  { apply merge_items_run; [exact Hinv3 | exact Hits|].
    eapply Forall_impl; [|apply (depth_list_elems (x :: items))].
    intros y Hy. cbv beta in Hy. lia. }
  intros [] st h4 _ E4 Hinv4.
  destruct (flush_run n h4 _ _ st Hinv4) as ([] & h5 & E5 & Hinv5).
  eapply sim_return; [exact E5|].
  destruct Hinv5 as (_ & _ & _ & (hparts & Erp & Hparts) & _).
  eapply sim_return.
  { unfold Store.load_list, Store.bind, Store.load. rewrite Erp.
    reflexivity. }
  pose proof (strs_of_rep n h5 hparts _ Hparts) as Estrs.
  destruct Hparts as [|hp p hparts parts Hp Hps];
    [apply sim_ret; constructor|].
  rewrite Estrs.
  destruct (strs_of (p :: parts)) as [ss|e]; cbn [Store.lift bind].
  - eapply sim_return; [reflexivity|]. apply sim_ret. constructor.
  - eapply sim_throws. reflexivity.
Qed.
End MergerRuns.

(** *** The dispatcher *)

Lemma py_int_rep n h hv v : rep n h hv v -> Store.py_int hv = py_int v.
Proof. intros H. inversion H; reflexivity. Qed.

Lemma date_text_run n n' h fuel hts ts :
  rep n h hts ts -> (depth ts <= fuel)%nat ->
  sim (fun h' a b => rep n' h' a b /\ depth b = O) h
    (Store.date_text fuel hts) (date_text ts).
Proof.
  intros Hts Hd. unfold Store.date_text, date_text.
  eapply truthy_step; [exact Hts|]. rewrite (py_int_rep n h hts ts Hts).
  destruct (truthy ts); [|apply sim_ret; split; [constructor | reflexivity]].
  destruct (ms <- py_int ts ;; fromtimestamp_ms ms) as [dt|[]];
    try (apply sim_throw);
    try (apply sim_ret; split; [constructor | reflexivity]);
    (eapply py_str_step; [exact Hts | exact Hd|]; intros s;
     apply sim_ret; split; [constructor | reflexivity]).
Qed.

Lemma depth_attr attrs k dflt (node : value) :
  depth dflt = O -> (depth (VDict attrs) <= depth node)%nat ->
  (depth (dict_get_or attrs k dflt) <= depth node)%nat.
Proof.
  intros Hdflt Hd. pose proof (depth_get_or attrs k dflt) as H.
  rewrite Hdflt in H. lia.
Qed.

Lemma get_attrs_run n h hd items k hdflt dflt (node : value) :
  rep_attrs n h hd items -> rep n h hdflt dflt -> depth dflt = O ->
  (depth (VDict items) <= depth node)%nat ->
  sim (text_out n node) h (Store.get hd k hdflt)
    (Ok (dict_get_or items k dflt)).
Proof.
  intros [Hd | (-> & l & -> & El)] Hdflt Hz Hle.
  - destruct (get_or_run n h hd items k hdflt dflt Hd Hdflt) as (hv & E & Hv).
    exists hv, h. split; [exact E|]. split; [exact Hv|].
    now apply depth_attr.
  - exists hdflt, h. split.
    + unfold Store.get, Store.bind, Store.load. rewrite El. reflexivity.
    + split; [exact Hdflt|]. cbn [lookup dict_get_or]. lia.
Qed.

Lemma py_or_step {B C : Type} (S : Store.heap -> B -> C -> Prop) n h hv v hw
  w (K : Store.hval -> Store.M B) p :
  rep n h hv v -> rep n h hw w ->
  (forall hr, rep n h hr (py_or v w) -> sim S h (K hr) p) ->
  sim S h (Store.bind (Store.py_or hv hw) K) p.
Proof.
  intros Hv Hw HK. eapply sim_return.
  - unfold Store.py_or, Store.bind. rewrite (truthy_run n h hv v Hv).
    reflexivity.
  - apply HK. unfold py_or. destruct (truthy v); assumption.
Qed.

Lemma sim_pure {A B : Type} (R : Store.heap -> A -> B -> Prop) (Q : B -> Prop)
  h m p :
  sim R h m p -> (forall b, p = Ok b -> Q b) ->
  sim (fun h' a b => R h' a b /\ Q b) h m p.
Proof.
  intros H HQ. destruct p as [b|e]; [|exact H].
  destruct H as (a & h' & E & Hab). exists a, h'. auto.
Qed.

Section NodeRuns.
Variable fuel : nat.
Variable conv : Store.hval -> Store.M Store.hval.
Hypothesis conv_run :
  forall n h hv v,
    (n <= List.length h)%nat -> rep n h hv v -> (depth v < fuel)%nat ->
    sim (text_out n v) h (conv hv) (adf_to_text v).
Hypothesis conv_empty :
  forall h l,
    nth_error h l = Some (Store.OList []) ->
    conv (Store.HRef l) h = (Store.Return Store.HNone, h).

Lemma node_rule_run n h hnode node :
  rep n h hnode (VDict node) -> (n <= List.length h)%nat ->
  (depth (VDict node) <= fuel)%nat ->
  sim (text_out n (VDict node)) h (Store.node_rule fuel conv hnode)
    (adf_to_text (VDict node)).
Proof.
  intros Hnode Hn Hd. cbn [adf_to_text]. rewrite conv_field_lookup.
  unfold Store.node_rule, dict_get.
  eapply get_step; [exact Hnode | constructor|]. intros hty Hty.
  rewrite !(eq_str_rep n h hty _ _ Hty). clear hty Hty.
  assert (Hbase : (1 <= depth (VDict node))%nat) by (cbn [depth]; lia).
  pose proof (length_app_one h (Store.ODict [])) as Hlen.
  destruct (eq_str (dict_get_or node "type" VNone) "text").
  { eapply get_step; [exact Hnode | constructor|]. intros htext Htext.
    pose proof (depth_get_or node "text" (VStr EmptyString)) as Hdt.
    change (depth (VStr EmptyString)) with O in Hdt.
    pose proof (depth_get_or node "marks" (VList [])) as Hdm.
    change (depth (VList [])) with 1%nat in Hdm.
    eapply marks_step; [exact Hnode | exact Hn|]. intros hmarks Hmarks.
    apply (rep_app n h [Store.OList []]) in Htext; [|exact Hn].
    pose proof (length_app_one h (Store.OList [])) as Hlen1.
    eapply truthy_step; [exact Hmarks|].
    destruct (truthy (dict_get_or node "marks" (VList [])));
      [|apply sim_ret; split; [exact Htext | lia]].
    eapply sim_weaken.
    - eapply (apply_marks_run n (S (List.length h))); try eassumption; lia.
    - intros h' a b [Hab Hb]. split; [exact Hab | lia]. }
  destruct (eq_str (dict_get_or node "type" VNone) "hardBreak");
    [apply sim_ret; split; [constructor | cbn [depth]; lia]|].
  destruct (eq_str (dict_get_or node "type" VNone) "mention").
  { eapply attrs_step; [left; exact Hnode | exact Hn | |].
    - intros hattrs attrs Hattrs Hda.
      eapply get_attrs_step; [exact Hattrs | constructor|].
      intros htext Htext. eapply truthy_step; [exact Htext|].
      fold (dict_get attrs "text").
      destruct (truthy (dict_get attrs "text")).
      + apply sim_ret. split; [exact Htext|].
        apply depth_attr; [reflexivity | exact Hda].
      + eapply get_attrs_step; [exact Hattrs | constructor|].
        intros hid Hid. eapply py_str_step; [exact Hid | |].
        * pose proof (depth_attr attrs "id" (VStr "unknown") (VDict node)
                        eq_refl Hda). lia.
        * intros s. apply sim_ret. split; [constructor | cbn [depth]; lia].
    - intros hattrs a Ha Hnot. eapply get_step_throws; eassumption. }
  destruct (eq_str (dict_get_or node "type" VNone) "emoji").
  { eapply attrs_step; [left; exact Hnode | exact Hn | |].
    - intros hattrs attrs Hattrs Hda.
      eapply get_attrs_step; [exact Hattrs | constructor|].
      intros htext Htext. eapply truthy_step; [exact Htext|].
      fold (dict_get attrs "text"). unfold py_or.
      destruct (truthy (dict_get attrs "text")).
      + apply sim_ret. split; [exact Htext|].
        apply depth_attr; [reflexivity | exact Hda].
      + apply get_attrs_run;
          [exact Hattrs | constructor | reflexivity | exact Hda].
    - intros hattrs a Ha Hnot. eapply get_step_throws; eassumption. }
  destruct (eq_str (dict_get_or node "type" VNone) "date").
  { eapply attrs_step; [left; exact Hnode | exact Hn | |].
    - intros hattrs attrs Hattrs Hda.
      eapply get_attrs_step; [exact Hattrs | constructor|].
      intros hts Hts. eapply sim_weaken.
      + eapply (date_text_run n n); [exact Hts|].
        pose proof (depth_attr attrs "timestamp" VNone (VDict node)
                      eq_refl Hda). unfold dict_get. lia.
      + intros h' a b [Hab Hb]. split; [exact Hab | lia].
    - intros hattrs a Ha Hnot. eapply get_step_throws; eassumption. }
  destruct (eq_str (dict_get_or node "type" VNone) "status").
  { eapply attrs_step; [left; exact Hnode | exact Hn | |].
    - intros hattrs attrs Hattrs Hda.
      eapply get_attrs_step; [exact Hattrs | constructor|].
      intros htext Htext. eapply wrap_text_out; [exact Htext|].
      pose proof (depth_attr attrs "text" (VStr EmptyString) (VDict node)
                    eq_refl Hda). lia.
    - intros hattrs a Ha Hnot. eapply get_step_throws; eassumption. }
  destruct (eq_str (dict_get_or node "type" VNone) "inlineCard").
  { eapply attrs_step; [left; exact Hnode | exact Hn | |].
    - intros hattrs attrs Hattrs Hda.
      eapply get_attrs_step; [exact Hattrs | constructor|].
      intros hurl Hurl. eapply truthy_step; [exact Hurl|].
      fold (dict_get attrs "url"). cbv zeta.
      destruct (truthy (dict_get attrs "url")).
      + apply sim_ret. split; [exact Hurl|].
        apply depth_attr; [reflexivity | exact Hda].
      + eapply attrs_step; [exact Hattrs | lia | |].
        * intros hdata data Hdata Hdd.
          eapply get_attrs_step; [exact Hdata | constructor|].
          intros hdu Hdu. eapply truthy_step; [exact Hdu|].
          fold (dict_get data "url"). unfold py_or.
          destruct (truthy (dict_get data "url")).
          -- apply sim_ret. split; [exact Hdu|].
             apply depth_attr; [reflexivity | lia].
          -- apply get_attrs_run;
               [exact Hdata | constructor | reflexivity | lia].
        * intros hdata a Ha Hnot. eapply get_step_throws; eassumption.
    - intros hattrs a Ha Hnot. eapply get_step_throws; eassumption. }
  destruct (eq_str (dict_get_or node "type" VNone) "codeBlock").
  { apply sim_alloc.
    pose proof (length_app_one h (Store.OList [])) as Hlen1.
    pose proof (rep_app n h [Store.OList []] _ _ Hn Hnode) as Hnode'.
    destruct (get_run n _ hnode node "content"
                (Store.HRef (List.length h)) Hnode') as (hc & E & Hc).
    eapply sim_return; [exact E|].
    destruct (lookup node "content") as [v|] eqn:Ek; cbn [option_map].
    - pose proof (depth_lookup node "content" v Ek) as Hlt.
      eapply sim_bind; [apply (conv_run n); [lia | exact Hc | lia]|].
      intros a a' h1 _ _ [Ha Hda].
      eapply py_or_step; [exact Ha | constructor|]. intros hr Hr.
      eapply py_str_step; [exact Hr | |].
      + unfold py_or. destruct (truthy a'); cbn [depth]; lia.
      + intros s. apply sim_ret. split; [constructor | cbn [depth]; lia].
    - subst hc. eapply sim_return.
      + apply conv_empty. rewrite nth_error_app2, Nat.sub_diag;
          [reflexivity | lia].
      + change (_process_content_list adf_to_text []) with (Ok VNone).
        cbn [bind].
        eapply (py_or_step _ n); [constructor | constructor|]. intros hr Hr.
        eapply py_str_step; [exact Hr | cbn; lia|].
        intros s. apply sim_ret. split; [constructor | cbn [depth]; lia]. }
  eapply get_step; [exact Hnode | constructor|]. intros hc Hc.
  eapply truthy_step; [exact Hc|]. cbv zeta. unfold dict_get.
  unfold dict_get_or in *.
  destruct (lookup node "content") as [v|] eqn:Ek; cbn [option_map].
  - pose proof (depth_lookup node "content" v Ek) as Hlt.
    destruct (truthy v);
      [|apply sim_ret; split; [constructor | cbn [depth]; lia]].
    eapply sim_weaken; [apply (conv_run n); [exact Hn | exact Hc | lia]|].
    intros h' a b [Hab Hb]. split; [exact Hab | lia].
  - cbn [truthy]. apply sim_ret. split; [constructor | cbn [depth]; lia].
Qed.
End NodeRuns.

(** *** The converter *)

Lemma process_content_list_leaf conv items b :
  _process_content_list conv items = Ok b -> depth b = O.
Proof.
  unfold _process_content_list. destruct items as [|x items];
    [intros E; injection E as <-; reflexivity|].
  destruct (merge_items conv (x :: items) ([], [])) as [st|e];
    cbn [bind]; [|discriminate].
  destruct (fst (flush_code_buffer st)) as [|p parts];
    [intros E; injection E as <-; reflexivity|].
  destruct (strs_of (p :: parts)) as [ss|e]; cbn [bind]; [|discriminate].
  intros E; injection E as <-; reflexivity.
Qed.

(** The call on the new empty list that stands for a missing [content]. *)
Lemma adf_to_text_empty fuel h l :
  nth_error h l = Some (Store.OList []) ->
  Store.adf_to_text (S fuel) (Store.HRef l) h = (Store.Return Store.HNone, h).
Proof.
  intros E. cbn [Store.adf_to_text].
  unfold Store.bind, Store.load, Store._process_content_list, Store.truthy,
    Store.bind, Store.load.
  rewrite E. cbn. rewrite E. reflexivity.
Qed.

Lemma load_run h l o :
  nth_error h l = Some o -> Store.load l h = (Store.Return o, h).
Proof. intros E. unfold Store.load. rewrite E. reflexivity. Qed.

(** The store run of [adf_to_text] on a tree of the store returns what
    the function returns on the tree, and raises what it raises. *)
Lemma adf_to_text_run : forall fuel n h hv v,
  (n <= List.length h)%nat -> rep n h hv v -> (depth v < fuel)%nat ->
  sim (text_out n v) h (Store.adf_to_text fuel hv) (adf_to_text v).
Proof.
  induction fuel as [|fuel IH]; intros n h hv v Hn Hrep Hd; [lia|].
  inversion Hrep as [| | | |l hitems items Hl El Hitems
                       |l hitems items Hl El Hitems]; subst;
    cbn [Store.adf_to_text adf_to_text];
    try (apply sim_ret; split; [constructor | cbn [depth]; lia]).
  - eapply sim_return; [exact (load_run h l _ El)|].
    eapply sim_weaken.
    + apply sim_pure with (Q := fun b => depth b = O).
      * apply (process_content_list_run fuel (Store.adf_to_text fuel)
                 adf_to_text (StoreFacts.keeps_adf_to_text fuel)).
        -- intros n' h' hv' v' Hn' Hrep' Hd'.
           eapply sim_weaken; [exact (IH n' h' hv' v' Hn' Hrep' Hd')|].
           intros h'' a b [Hab _]. exact Hab.
        -- exact Hrep.
        -- exact Hn.
        -- lia.
      * intros b. apply process_content_list_leaf.
    + intros h' a b [Hab Hb]. split; [exact Hab | lia].
  - eapply sim_return; [exact (load_run h l _ El)|].
    assert (Hbase : (1 <= depth (VDict items))%nat) by (cbn [depth]; lia).
    apply (node_rule_run fuel (Store.adf_to_text fuel) IH).
    + destruct fuel as [|fuel']; [lia|]. apply adf_to_text_empty.
    + exact Hrep.
    + exact Hn.
    + lia.
Qed.

End StoreRefines.

(** ** C8: the input is not changed and nothing is kept between calls *)

(** C8. [convert] never changes its input: in the store after a call,
    whether the call returned or raised, every object that was there
    before the call (every node, marks list, attrs mapping and content
    list among them) is the object that it was, the store having only
    grown by the lists and mappings that the call made for itself; and
    the same holds of the sibling merger.  No state is kept across calls:
    the converter has no state but the store that it is given, and when
    the input is a tree held in the store, nested less deep than the
    recursion limit, the input is the same tree after the call, and the
    call returns (or raises) what the function of the tree alone returns
    (or raises), before the call as well as after it. *)
Theorem C8_input_never_mutated (fuel : nat) (v : Store.hval)
  (h : Store.heap) :
  let after := snd (Store.adf_to_text fuel v h) in
  let after_merger :=
    snd (Store._process_content_list fuel (Store.adf_to_text fuel) v h) in
  ((exists fresh, after = (h ++ fresh)%list)
   /\ forall l o, nth_error h l = Some o -> nth_error after l = Some o)
  /\ ((exists fresh, after_merger = (h ++ fresh)%list)
      /\ forall l o,
          nth_error h l = Some o -> nth_error after_merger l = Some o)
  /\ forall n tree,
      represents n h v tree = true -> (n <= List.length h)%nat ->
      (depth tree < fuel)%nat ->
      rep n after v tree
      /\ sim (rep n) h (Store.adf_to_text fuel v) (adf_to_text tree)
      /\ sim (rep n) after (Store.adf_to_text fuel v) (adf_to_text tree).
Proof.
  intros after after_merger. split; [|split].
  - apply StoreFacts.frame_whole.
    apply (StoreFacts.keeps_adf_to_text fuel (List.length h) v h). lia.
  - apply StoreFacts.frame_whole.
    apply (StoreFacts.keeps_process_content_list
             (Store.adf_to_text fuel)
             (StoreFacts.keeps_adf_to_text fuel)
             (List.length h) fuel v h). lia.
  - intros n tree Hb Hn Hd. apply StoreRefines.represents_rep in Hb.
    assert (Hf : Store.frame n h after).
    { unfold after.
      destruct (Store.adf_to_text fuel v h) as [r h1] eqn:E.
      eapply StoreRefines.frame_of;
        [apply StoreFacts.keeps_adf_to_text | exact Hn | exact E]. }
    destruct Hf as [Hlen Hfirst].
    assert (Hafter : rep n after v tree)
      by (eapply StoreRefines.rep_frame; eassumption).
    split; [exact Hafter|].
    split; eapply StoreRefines.sim_weaken;
      try (apply (StoreRefines.adf_to_text_run fuel n); try eassumption; lia);
      intros h' a b [Hab _]; exact Hab.
Qed.

(** Two calls in a row on the store of C1 return the same text. *)
Example store_second_call_c1 :
  let first := Store.adf_to_text 3 (Store.HRef 6%nat) c1_store in
  fst (Store.adf_to_text 3 (Store.HRef 6%nat) (snd first)) = fst first.
Proof. vm_compute. reflexivity. Qed.

(** C8 on the store of C1: a second call, in the store that the first
    call left, returns the text of C1 again. *)
Lemma C8_input_never_mutated_witness :
  represents 7 c1_store (Store.HRef 6%nat) c1_tree = true
  /\ (7 <= List.length c1_store)%nat
  /\ (depth c1_tree < 5)%nat
  /\ sim (rep 7)
       (snd (Store.adf_to_text 5 (Store.HRef 6%nat) c1_store))
       (Store.adf_to_text 5 (Store.HRef 6%nat)) (adf_to_text c1_tree).
Proof.
  split; [reflexivity|]. split; [simpl; lia|]. split; [simpl; lia|].
  apply (proj2 (proj2 (C8_input_never_mutated 5 (Store.HRef 6%nat)
                         c1_store)) 7%nat c1_tree);
    [reflexivity | simpl; lia | simpl; lia].
Defined.

(** * Further properties of the helpers and of the rules *)

(** ** The code-mark test *)

Lemma any_code_mark_exists (ms : list value) :
  forallb is_dict ms = true ->
  any_code_mark ms = Ok (existsb is_code_mark ms).
Proof.
  induction ms as [|m ms IH]; simpl; intros H; [reflexivity|].
  apply andb_true_iff in H. destruct H as [Hm Hms].
  destruct m; try discriminate. simpl.
  destruct (eq_str (dict_get d "type") "code"); simpl;
    [reflexivity | now apply IH].
Qed.

Lemma any_code_mark_first (pre : list value) (c : value) (rest : list value) :
  forallb is_dict pre = true -> existsb is_code_mark pre = false ->
  is_code_mark c = true ->
  any_code_mark (pre ++ c :: rest) = Ok true.
Proof.
  induction pre as [|m pre IH]; simpl; intros Hd Hc Hcode.
  - destruct c; try discriminate. simpl. simpl in Hcode.
    rewrite Hcode. reflexivity.
  - apply andb_true_iff in Hd. destruct Hd as [Hm Hpre].
    apply orb_false_iff in Hc. destruct Hc as [Hmc Hprec].
    destruct m; try discriminate. simpl. simpl in Hmc. rewrite Hmc.
    now apply IH.
Qed.

Lemma any_code_mark_bad (pre : list value) (x : value) (rest : list value) :
  forallb is_dict pre = true -> existsb is_code_mark pre = false ->
  is_dict x = false ->
  any_code_mark (pre ++ x :: rest) = Raise AttributeError.
Proof.
  induction pre as [|m pre IH]; simpl; intros Hd Hc Hx.
  - destruct x; try discriminate; reflexivity.
  - apply andb_true_iff in Hd. destruct Hd as [Hm Hpre].
    apply orb_false_iff in Hc. destruct Hc as [Hmc Hprec].
    destruct m; try discriminate. simpl. simpl in Hmc. rewrite Hmc.
    now apply IH.
Qed.

Lemma has_code_mark_marks node ms :
  eq_str (dict_get node "type") "text" = true ->
  lookup node "marks" = Some (VList ms) ->
  _has_code_mark node = any_code_mark ms.
Proof.
  intros Ht Hm. unfold _has_code_mark, dict_get_or. rewrite Ht, Hm.
  reflexivity.
Qed.

(** X1. [_has_code_mark] answers False for every node whose type is not
    [text], whatever its marks are, and for a text node without marks.
    On a text node whose marks are mappings it tells whether one of them
    has the type [code].  The test stops at the first code mark: what
    follows it is not looked at, while a mark that is not a mapping and
    comes before any code mark raises [AttributeError]. *)
Theorem X1_has_code_mark_cases (node : list (string * value)) :
  (eq_str (dict_get node "type") "text" = false ->
   _has_code_mark node = Ok false)
  /\ (eq_str (dict_get node "type") "text" = true ->
      (lookup node "marks" = None -> _has_code_mark node = Ok false)
      /\ (forall ms,
             lookup node "marks" = Some (VList ms) ->
             forallb is_dict ms = true ->
             _has_code_mark node = Ok (existsb is_code_mark ms))
      /\ (forall pre c rest,
             lookup node "marks" = Some (VList (pre ++ c :: rest)) ->
             forallb is_dict pre = true ->
             existsb is_code_mark pre = false ->
             (is_code_mark c = true -> _has_code_mark node = Ok true)
             /\ (is_dict c = false ->
                 _has_code_mark node = Raise AttributeError))).
Proof.
  split.
  - intros Ht. unfold _has_code_mark. rewrite Ht. reflexivity.
  - intros Ht. split; [|split].
    + intros Hm. unfold _has_code_mark, dict_get_or. rewrite Ht, Hm.
      reflexivity.
    + intros ms Hm Hd. rewrite (has_code_mark_marks node ms Ht Hm).
      now apply any_code_mark_exists.
    + intros pre c rest Hm Hd Hc.
      rewrite (has_code_mark_marks node _ Ht Hm). split; intros H.
      * now apply any_code_mark_first.
      * now apply any_code_mark_bad.
Qed.

Lemma X1_has_code_mark_cases_witness :
  _has_code_mark
    [("type", VStr "mention"); ("marks", VList [mark "code"])]
  = Ok false
  /\ _has_code_mark
       [("type", VStr "text");
        ("marks", VList ([mark "em"] ++ mark "code" :: [VNone]))]
     = Ok true
  /\ _has_code_mark
       [("type", VStr "text");
        ("marks", VList ([mark "em"] ++ VNone :: [mark "code"]))]
     = Raise AttributeError.
Proof.
  split; [|split].
  - apply (proj1 (X1_has_code_mark_cases _)). reflexivity.
  - destruct (proj2 (X1_has_code_mark_cases
                       [("type", VStr "text");
                        ("marks",
                         VList ([mark "em"] ++ mark "code" :: [VNone]))])
                eq_refl) as (_ & _ & H).
    apply (H [mark "em"] (mark "code") [VNone]); reflexivity.
  - destruct (proj2 (X1_has_code_mark_cases
                       [("type", VStr "text");
                        ("marks",
                         VList ([mark "em"] ++ VNone :: [mark "code"]))])
                eq_refl) as (_ & _ & H).
    apply (H [mark "em"] VNone [mark "code"]); reflexivity.
Defined.

(** ** The text of a code node *)

Lemma get_text_marks node ms :
  lookup node "marks" = Some (VList ms) -> forallb is_dict ms = true ->
  _get_text_without_code_mark node
  = apply_mark_loop (dict_get_or node "text" (VStr EmptyString))
      (filter (fun m => negb (is_code_mark m)) ms).
Proof.
  intros Hm Hd. unfold _get_text_without_code_mark.
  replace (dict_get_or node "marks" (VList [])) with (VList ms)
    by (unfold dict_get_or; now rewrite Hm).
  cbn [py_iter bind].
  rewrite (non_code_marks_filter ms Hd). cbn [bind].
  destruct (filter (fun m => negb (is_code_mark m)) ms) as [|m rest] eqn:E;
    [reflexivity|].
  cbn [truthy]. apply apply_marks_list.
Qed.

Lemma filter_no_code (ms : list value) :
  forallb is_code_mark ms = true ->
  filter (fun m => negb (is_code_mark m)) ms = [].
Proof.
  induction ms as [|m ms IH]; simpl; intros H; [reflexivity|].
  apply andb_true_iff in H. destruct H as [Hm Hms]. rewrite Hm. simpl.
  now apply IH.
Qed.

Lemma code_mark_is_dict (ms : list value) :
  forallb is_code_mark ms = true -> forallb is_dict ms = true.
Proof.
  induction ms as [|m ms IH]; simpl; intros H; [reflexivity|].
  apply andb_true_iff in H. destruct H as [Hm Hms].
  rewrite (IH Hms). destruct m; try discriminate. reflexivity.
Qed.

(** X2. [_get_text_without_code_mark] does not look at the type of the
    node.  On a node whose marks are mappings it returns the [text] field
    (the empty string when missing) with the marks other than [code]
    applied in their order, every code mark removed wherever it stands.
    When all the marks are code marks, and when the node has no marks,
    the [text] field is returned as it is, whatever value it holds. *)
Theorem X2_text_without_code_mark (node : list (string * value)) :
  (forall ms,
      lookup node "marks" = Some (VList ms) -> forallb is_dict ms = true ->
      _get_text_without_code_mark node
      = apply_mark_loop (dict_get_or node "text" (VStr EmptyString))
          (filter (fun m => negb (is_code_mark m)) ms))
  /\ (forall ms,
         lookup node "marks" = Some (VList ms) ->
         forallb is_code_mark ms = true ->
         _get_text_without_code_mark node
         = Ok (dict_get_or node "text" (VStr EmptyString)))
  /\ (lookup node "marks" = None ->
      _get_text_without_code_mark node
      = Ok (dict_get_or node "text" (VStr EmptyString))).
Proof.
  split; [|split].
  - intros ms Hm Hd. now apply get_text_marks.
  - intros ms Hm Hc.
    rewrite (get_text_marks node ms Hm (code_mark_is_dict ms Hc)).
    rewrite (filter_no_code ms Hc). reflexivity.
  - intros Hm. unfold _get_text_without_code_mark.
    replace (dict_get_or node "marks" (VList [])) with (VList [])
      by (unfold dict_get_or; now rewrite Hm).
    reflexivity.
Qed.

Lemma X2_text_without_code_mark_witness :
  _get_text_without_code_mark
    [("type", VStr "paragraph"); ("text", VStr "x");
     ("marks", VList [mark "code"; mark "strong"; mark "code"; mark "em"])]
  = Ok (VStr "***x***")
  /\ _get_text_without_code_mark
       [("text", VInt 5); ("marks", VList [mark "code"; mark "code"])]
     = Ok (VInt 5).
Proof.
  split.
  - apply (proj1 (X2_text_without_code_mark
                    [("type", VStr "paragraph"); ("text", VStr "x");
                     ("marks",
                      VList [mark "code"; mark "strong"; mark "code";
                             mark "em"])])
             [mark "code"; mark "strong"; mark "code"; mark "em"]);
      reflexivity.
  - apply (proj1 (proj2 (X2_text_without_code_mark
                           [("text", VInt 5);
                            ("marks", VList [mark "code"; mark "code"])]))
             [mark "code"; mark "code"]); reflexivity.
Defined.

(** ** The mark applier *)

Lemma str_app_assoc (a b c : string) : (a ++ b) ++ c = a ++ (b ++ c).
Proof. induction a as [|x a IH]; simpl; [reflexivity | now rewrite IH]. Qed.

Lemma str_app_nil_r (a : string) : a ++ EmptyString = a.
Proof. induction a as [|x a IH]; simpl; [reflexivity | now rewrite IH]. Qed.

Lemma apply_mark_wraps (text : value) (m : value) (r : value) :
  apply_mark text m = Ok r ->
  r = text
  \/ exists s pre post, py_str text = Ok s /\ r = VStr (pre ++ s ++ post).
Proof.
  unfold apply_mark. destruct m as [| | | | |d]; try discriminate.
  cbn [as_dict bind].
  repeat match goal with
         | |- (if ?c then _ else _) = _ -> _ => destruct c
         | |- (_ <- as_dict ?v ;; _) = _ -> _ =>
             destruct (as_dict v); cbn [bind]; [|discriminate]
         | |- (_ <- py_str text ;; _) = _ -> _ =>
             destruct (py_str text) as [s|]; cbn [bind]; [|discriminate]
         | |- (_ <- py_str ?v ;; _) = _ -> _ =>
             destruct (py_str v); cbn [bind]; [|discriminate]
         | |- Ok (VStr (?pre ++ ?s ++ ?post)) = Ok _ -> _ =>
             intros E; injection E as <-; right; exists s, pre, post;
             split; reflexivity
         | |- Ok text = Ok _ -> _ =>
             intros E; injection E as <-; left; reflexivity
         end.
Qed.

Lemma apply_mark_loop_wraps (ms : list value) : forall (text r : value),
  apply_mark_loop text ms = Ok r ->
  r = text
  \/ exists s pre post, py_str text = Ok s /\ r = VStr (pre ++ s ++ post).
Proof.
  induction ms as [|m ms IH]; intros text r; cbn [apply_mark_loop].
  - intros E; injection E as <-. now left.
  - destruct (apply_mark text m) as [t|e] eqn:Em; cbn [bind];
      [|discriminate].
    intros E. apply IH in E.
    destruct (apply_mark_wraps text m t Em) as [->|(s & pre & post & Hs & ->)];
      [exact E|].
    destruct E as [->|(s' & pre' & post' & Hs' & ->)].
    + right. exists s, pre, post. now split.
    + right. cbn [py_str] in Hs'. injection Hs' as <-.
      exists s, (pre' ++ pre), (post ++ post'). split; [exact Hs|].
      f_equal. rewrite !str_app_assoc. reflexivity.
Qed.

(** X3. [_apply_marks] never alters the text: when it returns, the
    result is the given text itself (no mark applied: the same value,
    even when it is not a string), or a string that holds [str(text)]
    between the markup that the marks added.  On a string the result
    is always a string around that string. *)
Theorem X3_marks_only_wrap (text marks r : value) :
  _apply_marks text marks = Ok r ->
  (r = text
   \/ exists s pre post, py_str text = Ok s /\ r = VStr (pre ++ s ++ post))
  /\ forall t, text = VStr t ->
       exists pre post, r = VStr (pre ++ t ++ post).
Proof.
  intros E.
  assert (H : r = text
              \/ exists s pre post,
                  py_str text = Ok s /\ r = VStr (pre ++ s ++ post)).
  { unfold _apply_marks in E. destruct (truthy marks); cbn [negb] in E.
    - destruct (py_iter marks) as [ms|e]; cbn [bind] in E; [|discriminate].
      now apply (apply_mark_loop_wraps ms).
    - injection E as <-. now left. }
  split; [exact H|]. intros t ->.
  destruct H as [->|(s & pre & post & Hs & ->)].
  - exists EmptyString, EmptyString. cbn [String.append].
    now rewrite str_app_nil_r.
  - cbn [py_str] in Hs. injection Hs as <-. now exists pre, post.
Qed.

Lemma X3_marks_only_wrap_witness :
  _apply_marks (VStr "x")
    (VList [mark "strong";
            VDict [("type", VStr "link");
                   ("attrs", VDict [("href", VStr "http://a")])]])
  = Ok (VStr "[**x**](http://a)")
  /\ exists pre post,
      VStr "[**x**](http://a)" = VStr (pre ++ "x" ++ post).
Proof.
  split; [reflexivity|].
  apply (proj2 (X3_marks_only_wrap (VStr "x")
                  (VList [mark "strong";
                          VDict [("type", VStr "link");
                                 ("attrs",
                                  VDict [("href", VStr "http://a")])]])
                  (VStr "[**x**](http://a)") eq_refl) "x" eq_refl).
Defined.

(** X4. A [link] mark whose [attrs.href] is a string that is not empty
    wraps the text as a Markdown link, the text in brackets and the
    address in parentheses; a [link] mark whose [attrs] is there and is
    not a mapping (a JSON null, say) raises [AttributeError]. *)
Theorem X4_link_mark (m : list (string * value)) :
  dict_get m "type" = VStr "link" ->
  (forall (t h : string) (attrs : list (string * value)),
      lookup m "attrs" = Some (VDict attrs) ->
      lookup attrs "href" = Some (VStr h) -> str_is_empty h = false ->
      apply_mark (VStr t) (VDict m)
      = Ok (VStr ("[" ++ t ++ "](" ++ h ++ ")")))
  /\ (forall (text a : value),
         lookup m "attrs" = Some a -> is_dict a = false ->
         apply_mark text (VDict m) = Raise AttributeError).
Proof.
  intros Ht. split.
  - intros t h attrs Ha Hh Hne. unfold apply_mark. cbn [as_dict bind].
    rewrite Ht. cbn [eq_str String.eqb Ascii.eqb Bool.eqb].
    unfold dict_get_or. rewrite Ha. cbn [as_dict bind]. rewrite Hh.
    cbn [truthy]. rewrite Hne. reflexivity.
  - intros text a Ha Hd. unfold apply_mark. cbn [as_dict bind].
    rewrite Ht. cbn [eq_str String.eqb Ascii.eqb Bool.eqb].
    unfold dict_get_or. rewrite Ha.
    destruct a; try discriminate; reflexivity.
Qed.

Lemma X4_link_mark_witness :
  apply_mark (VStr "docs")
    (VDict [("type", VStr "link");
            ("attrs", VDict [("href", VStr "https://example.com")])])
  = Ok (VStr "[docs](https://example.com)")
  /\ apply_mark (VStr "docs")
       (VDict [("type", VStr "link"); ("attrs", VNone)])
     = Raise AttributeError.
Proof.
  split.
  - apply (proj1 (X4_link_mark
                    [("type", VStr "link");
                     ("attrs", VDict [("href", VStr "https://example.com")])]
                    eq_refl) "docs" "https://example.com"
             [("href", VStr "https://example.com")]); reflexivity.
  - apply (proj2 (X4_link_mark
                    [("type", VStr "link"); ("attrs", VNone)] eq_refl)
             (VStr "docs") VNone); reflexivity.
Defined.

Lemma apply_mark_loop_known (ms : list value) : forall text : value,
  forallb is_dict ms = true ->
  apply_mark_loop text ms = apply_mark_loop text (filter has_known_type ms).
Proof.
  induction ms as [|m ms IH]; intros text H; [reflexivity|].
  cbn [forallb] in H. apply andb_true_iff in H. destruct H as [Hm Hms].
  destruct m as [| | | | |d]; try discriminate.
  cbn [filter has_known_type].
  destruct (known_mark (dict_get d "type")) eqn:Hk.
  - cbn [apply_mark_loop]. destruct (apply_mark text (VDict d));
      cbn [bind]; [now apply IH | reflexivity].
  - cbn [apply_mark_loop]. rewrite (unknown_mark_unchanged text d Hk).
    cbn [bind]. now apply IH.
Qed.

(** X5. Marks of a type that [_apply_marks] has no rule for
    ([textColor], [backgroundColor] and any other) are ignored wherever
    they stand in the list: removing them from the marks, all mappings,
    changes neither what [_apply_marks] returns nor what the text node
    converts to. *)
Theorem X5_unknown_marks_ignored (ms : list value) :
  forallb is_dict ms = true ->
  (forall text : value,
      _apply_marks text (VList ms)
      = _apply_marks text (VList (filter has_known_type ms)))
  /\ forall t : string,
      adf_to_text (text_node t ms)
      = adf_to_text (text_node t (filter has_known_type ms)).
Proof.
  intros H. split.
  - intros text. rewrite !apply_marks_list. now apply apply_mark_loop_known.
  - intros t. rewrite !adf_to_text_text_node.
    now apply apply_mark_loop_known.
Qed.

Lemma X5_unknown_marks_ignored_witness :
  adf_to_text
    (text_node "x" [mark "textColor"; mark "strong"; mark "backgroundColor"])
  = adf_to_text (text_node "x" [mark "strong"]).
Proof.
  apply (proj2 (X5_unknown_marks_ignored
                  [mark "textColor"; mark "strong"; mark "backgroundColor"]
                  eq_refl) "x").
Defined.

(** ** The sibling merger *)

Lemma join_app (sep : string) (a b : list string) :
  a <> [] -> b <> [] ->
  join sep (a ++ b) = join sep a ++ sep ++ join sep b.
Proof.
  intros Ha Hb. induction a as [|p a IH]; [congruence|].
  destruct a as [|q a].
  - destruct b as [|r b]; [congruence|]. reflexivity.
  - change ((p :: q :: a) ++ b)%list with (p :: q :: (a ++ b))%list.
    rewrite !join_cons.
    change (q :: (a ++ b))%list with ((q :: a) ++ b)%list.
    rewrite IH by discriminate. now rewrite !str_app_assoc.
Qed.

Lemma join_not_empty (sep : string) (ss : list string) :
  ss <> [] -> Forall (fun s => str_is_empty s = false) ss ->
  str_is_empty (join sep ss) = false.
Proof.
  intros Hne H. destruct ss as [|p ss]; [congruence|].
  inversion H as [|? ? Hp _]; subst.
  destruct ss as [|q ss]; [exact Hp|].
  rewrite join_cons. destruct p; [discriminate | reflexivity].
Qed.

Lemma strs_of_strs (ss : list string) : strs_of (map VStr ss) = Ok ss.
Proof.
  induction ss as [|s ss IH]; simpl; [reflexivity|]. now rewrite IH.
Qed.

Lemma kept_texts_app (a b : list value) :
  kept_texts (a ++ b) = (kept_texts a ++ kept_texts b)%list.
Proof.
  induction a as [|x a IH]; [reflexivity|].
  destruct x as [| | |s| |]; simpl; try exact IH.
  destruct (str_is_empty s); simpl; now rewrite IH.
Qed.

Lemma kept_texts_not_empty (rs : list value) :
  Forall (fun s => str_is_empty s = false) (kept_texts rs).
Proof.
  induction rs as [|x rs IH]; [constructor|].
  destruct x as [| | |s| |]; simpl; try exact IH.
  destruct (str_is_empty s) eqn:E; [exact IH | now constructor].
Qed.

(** The loop of the merger over siblings that are not code, from an
    empty code buffer: the parts grow by the texts that are not empty. *)
Lemma merge_items_plain conv (items rs : list value) :
  Forall2 (fun x r => is_code_item x = Ok false /\ conv x = Ok r
                      /\ is_text r = true) items rs ->
  forall parts,
    merge_items conv items (parts, [])
    = Ok ((parts ++ map VStr (kept_texts rs))%list, []).
Proof.
  induction 1 as [|x r items rs (Hc & Hx & Hr) _ IH]; intros parts.
  - simpl. now rewrite app_nil_r.
  - cbn [merge_items]. rewrite Hc. cbn [bind flush_code_buffer].
    rewrite Hx. cbn [bind fst snd].
    destruct r as [| | |s| |]; try discriminate; cbn [truthy kept_texts].
    + apply IH.
    + destruct (str_is_empty s); cbn [negb].
      * apply IH.
      * rewrite IH. cbn [map]. now rewrite <- app_assoc.
Qed.

Lemma process_plain conv (items rs : list value) :
  Forall2 (fun x r => is_code_item x = Ok false /\ conv x = Ok r
                      /\ is_text r = true) items rs ->
  _process_content_list conv items = Ok (joined (kept_texts rs)).
Proof.
  intros H. unfold _process_content_list.
  destruct items as [|x items]; [inversion H; reflexivity|].
  rewrite (merge_items_plain conv _ _ H []). cbn [bind app].
  cbn [flush_code_buffer fst].
  destruct (kept_texts rs) as [|s ss]; [reflexivity|].
  change (map VStr (s :: ss)) with (VStr s :: map VStr ss).
  change (VStr s :: map VStr ss) with (map VStr (s :: ss)).
  cbn [map]. change (VStr s :: map VStr ss) with (map VStr (s :: ss)).
  rewrite strs_of_strs. reflexivity.
Qed.

Lemma adf_to_text_single (x r : value) :
  is_code_item x = Ok false -> adf_to_text x = Ok r -> is_text r = true ->
  adf_to_text (VList [x]) = Ok (if is_nothing r then VNone else r).
Proof.
  intros Hc Hx Hr. rewrite adf_to_text_list.
  rewrite (process_plain adf_to_text [x] [r])
    by (constructor; [auto | constructor]).
  destruct r as [| | |s| |]; try discriminate; [reflexivity|].
  cbn [kept_texts is_nothing]. destruct (str_is_empty s); reflexivity.
Qed.

(** X6. A sequence without code-marked text nodes converts to the texts
    of its elements that are not empty, in their order, joined by one
    newline each; elements that convert to the absent value or to the
    empty string leave no trace, and when none is left the result is
    the absent value.  So a one-element sequence converts as its
    element, except that the empty string becomes the absent value. *)
Theorem X6_plain_siblings_joined :
  (forall items rs : list value,
      Forall2 (fun x r => is_code_item x = Ok false /\ adf_to_text x = Ok r
                          /\ is_text r = true) items rs ->
      adf_to_text (VList items) = Ok (joined (kept_texts rs)))
  /\ (forall x r : value,
         is_code_item x = Ok false -> adf_to_text x = Ok r ->
         is_text r = true ->
         adf_to_text (VList [x]) = Ok (if is_nothing r then VNone else r)).
Proof.
  split.
  - intros items rs H. rewrite adf_to_text_list. now apply process_plain.
  - exact adf_to_text_single.
Qed.

Lemma X6_plain_siblings_joined_witness :
  adf_to_text
    (VList [plain "a"; VDict [("type", VStr "hardBreak")];
            plain EmptyString; VNone; VStr "b"])
  = Ok (VStr ("a" ++ nl ++ nl ++ nl ++ "b"))
  /\ adf_to_text (VList [VStr EmptyString]) = Ok VNone.
Proof.
  split.
  - apply (proj1 X6_plain_siblings_joined
             [plain "a"; VDict [("type", VStr "hardBreak")];
              plain EmptyString; VNone; VStr "b"]
             [VStr "a"; VStr nl; VStr EmptyString; VNone; VStr "b"]).
    repeat constructor.
  - apply (proj2 X6_plain_siblings_joined (VStr EmptyString)
             (VStr EmptyString)); reflexivity.
Defined.

Lemma returns_text_results conv (items : list value) :
  Forall (fun x => is_code_item x = Ok false /\ returns_text (conv x))
    items ->
  exists rs,
    Forall2 (fun x r => is_code_item x = Ok false /\ conv x = Ok r
                        /\ is_text r = true) items rs.
Proof.
  induction 1 as [|x items (Hc & r & Hx & Hr) _ (rs & IH)].
  - exists []. constructor.
  - exists (r :: rs). constructor; [auto | exact IH].
Qed.

Lemma joined_is_text (ss : list string) : is_text (joined ss) = true.
Proof. destruct ss; reflexivity. Qed.

Lemma kept_texts_joined (ss : list string) (rs : list value) :
  Forall (fun s => str_is_empty s = false) ss ->
  joined (kept_texts (joined ss :: rs)) = joined (ss ++ kept_texts rs).
Proof.
  intros H. destruct ss as [|s ss]; [reflexivity|].
  cbn [joined kept_texts].
  rewrite (join_not_empty nl (s :: ss)) by (congruence || exact H).
  destruct (kept_texts rs) as [|k ks].
  - now rewrite app_nil_r.
  - cbn [joined]. change ((s :: ss) ++ k :: ks)%list
      with (s :: (ss ++ k :: ks))%list. cbn [joined]. f_equal.
    change (s :: (ss ++ k :: ks))%list with ((s :: ss) ++ k :: ks)%list.
    rewrite join_app by discriminate. rewrite join_cons. reflexivity.
Qed.

(** X7. Nesting does not show: when no element is a code-marked text
    node and every element converts to a string or to the absent
    value, a sequence whose first element is itself a sequence converts
    as the one sequence of all the elements. *)
Theorem X7_nested_list_flattens (xs ys : list value) :
  Forall (fun x => is_code_item x = Ok false
                   /\ returns_text (adf_to_text x)) (xs ++ ys) ->
  adf_to_text (VList (VList xs :: ys)) = adf_to_text (VList (xs ++ ys)).
Proof.
  intros H. apply Forall_app in H. destruct H as [Hx Hy].
  destruct (returns_text_results adf_to_text xs Hx) as (rx & Fx).
  destruct (returns_text_results adf_to_text ys Hy) as (ry & Fy).
  rewrite (adf_to_text_list (xs ++ ys)).
  rewrite (process_plain adf_to_text (xs ++ ys) (rx ++ ry))
    by (now apply Forall2_app).
  rewrite (adf_to_text_list (VList xs :: ys)).
  rewrite (process_plain adf_to_text (VList xs :: ys)
             (joined (kept_texts rx) :: ry)).
  - rewrite kept_texts_joined by apply kept_texts_not_empty.
    now rewrite kept_texts_app.
  - constructor; [|exact Fy]. split; [reflexivity|]. split.
    + rewrite adf_to_text_list. now apply process_plain.
    + apply joined_is_text.
Qed.

Lemma X7_nested_list_flattens_witness :
  adf_to_text (VList [VList [plain "a"; plain "b"]; plain "c"])
  = adf_to_text (VList [plain "a"; plain "b"; plain "c"]).
Proof.
  apply (X7_nested_list_flattens [plain "a"; plain "b"] [plain "c"]).
  repeat constructor; eexists; split; reflexivity.
Defined.

(** *** Code runs *)

Lemma split_nl_app_nl (a b : string) :
  split_nl (a ++ nl ++ b) = (split_nl a ++ split_nl b)%list.
Proof.
  induction a as [|c a IH].
  - reflexivity.
  - cbn [String.append split_nl]. destruct (Ascii.eqb c nl_char).
    + cbn [app]. f_equal. exact IH.
    + change (String.append a (String.append nl b)) with (a ++ nl ++ b).
      rewrite IH. pose proof (split_nl_not_nil a) as Hne.
      destruct (split_nl a) as [|l ls]; [congruence | reflexivity].
Qed.

Lemma split_nl_join (ts : list string) :
  ts <> [] -> split_nl (join nl ts) = flat_map split_nl ts.
Proof.
  induction ts as [|t ts IH]; [congruence|]. intros _.
  destruct ts as [|u ts].
  - cbn [join flat_map]. now rewrite app_nil_r.
  - rewrite join_cons, split_nl_app_nl. cbn [flat_map].
    rewrite IH by discriminate. reflexivity.
Qed.

Lemma get_text_code_node (t : string) :
  _get_text_without_code_mark
    [("type", VStr "text"); ("text", VStr t); ("marks", VList [mark "code"])]
  = Ok (VStr t).
Proof. reflexivity. Qed.

(** The loop of the merger over code-marked text nodes: the code buffer
    grows by the lines of their texts. *)
Lemma merge_items_code_lines conv (ts : list string) :
  forall parts buf,
    merge_items conv (map code ts) (parts, buf)
    = Ok (parts, (buf ++ flat_map split_nl ts)%list).
Proof.
  induction ts as [|t ts IH]; intros parts buf.
  - simpl. now rewrite app_nil_r.
  - cbn [map merge_items]. rewrite is_code_item_code. cbn [bind].
    unfold code at 1, text_node. rewrite get_text_code_node.
    cbn [bind py_split_nl fst snd]. rewrite IH. cbn [flat_map].
    now rewrite app_assoc.
Qed.

Lemma flush_code_run (parts : list value) (lines : list string) :
  lines <> [] ->
  flush_code_buffer (parts, lines)
  = ((parts ++ [VStr (code_run_text lines)])%list, []).
Proof.
  intros Hne. destruct lines as [|l [|l' ls]]; [congruence| |reflexivity].
  cbn [flush_code_buffer code_run_text List.length Nat.eqb andb].
  destruct (contains_nl l); reflexivity.
Qed.

Lemma flat_map_split_not_nil (ts : list string) :
  ts <> [] -> flat_map split_nl ts <> [].
Proof.
  destruct ts as [|t ts]; [congruence|]. intros _. cbn [flat_map].
  pose proof (split_nl_not_nil t). destruct (split_nl t); [congruence|].
  discriminate.
Qed.

Lemma map_code_not_nil (ts : list string) : ts <> [] -> map code ts <> [].
Proof. destruct ts; [congruence | discriminate]. Qed.

Lemma process_code_run conv (ts : list string) :
  ts <> [] ->
  _process_content_list conv (map code ts)
  = Ok (VStr (code_run_text (flat_map split_nl ts))).
Proof.
  intros Hne. unfold _process_content_list.
  destruct (map code ts) as [|x xs] eqn:E;
    [now apply map_code_not_nil in Hne|].
  rewrite <- E, merge_items_code_lines. cbn [bind app].
  rewrite flush_code_run by now apply flat_map_split_not_nil.
  reflexivity.
Qed.

(** X8. An element that is not code ends a run of code-marked text
    nodes even when it converts to nothing: the code nodes before it
    and those after it give two code texts, joined by a newline, where
    the same nodes side by side give one. *)
Theorem X8_nothing_ends_code_run (ts1 ts2 : list string) (x r : value) :
  ts1 <> [] -> ts2 <> [] ->
  is_code_item x = Ok false -> adf_to_text x = Ok r ->
  is_nothing r = true ->
  adf_to_text (VList (map code ts1 ++ x :: map code ts2))
  = Ok (VStr (code_run_text (flat_map split_nl ts1) ++ nl
              ++ code_run_text (flat_map split_nl ts2)))
  /\ adf_to_text (VList (map code ts1 ++ map code ts2))
     = Ok (VStr (code_run_text (flat_map split_nl (ts1 ++ ts2)))).
Proof.
  intros H1 H2 Hc Hx Hr. split.
  - rewrite adf_to_text_list. unfold _process_content_list.
    destruct (map code ts1 ++ x :: map code ts2)%list as [|y ys] eqn:E;
      [now destruct (map code ts1)|].
    rewrite <- E, merge_items_app, merge_items_code_lines.
    cbn [bind app].
    rewrite (merge_items_nothing adf_to_text x _ _ r Hc Hx Hr).
    rewrite flush_code_run by now apply flat_map_split_not_nil.
    rewrite merge_items_code_lines. cbn [bind app].
    rewrite flush_code_run by now apply flat_map_split_not_nil.
    reflexivity.
  - rewrite <- map_app, adf_to_text_list. apply process_code_run.
    destruct ts1; [congruence | discriminate].
Qed.

Lemma X8_nothing_ends_code_run_witness :
  adf_to_text (VList (map code ["a"] ++ plain EmptyString :: map code ["b"]))
  = Ok (VStr ("`a`" ++ nl ++ "`b`"))
  /\ adf_to_text (VList (map code ["a"] ++ map code ["b"]))
     = Ok (VStr (fenced ("a" ++ nl ++ "b"))).
Proof.
  apply (X8_nothing_ends_code_run ["a"] ["b"] (plain EmptyString)
           (VStr EmptyString));
    (discriminate || reflexivity).
Defined.

(** X9. In a run of code-marked text nodes, a newline inside a text and
    the boundary between two nodes make no difference: the run converts
    as the single code node whose text is the texts joined by
    newlines, to the inline span when that is one line and to the
    fenced block of all the lines otherwise. *)
Theorem X9_code_run_lines (ts : list string) :
  ts <> [] ->
  adf_to_text (VList (map code ts))
  = Ok (VStr (code_run_text (flat_map split_nl ts)))
  /\ adf_to_text (VList (map code ts))
     = adf_to_text (VList [code (join nl ts)])
  /\ join nl (flat_map split_nl ts) = join nl ts.
Proof.
  intros Hne.
  assert (E1 : adf_to_text (VList (map code ts))
               = Ok (VStr (code_run_text (flat_map split_nl ts))))
    by (rewrite adf_to_text_list; now apply process_code_run).
  split; [exact E1|]. split.
  - rewrite E1, adf_to_text_list.
    change [code (join nl ts)] with (map code [join nl ts]).
    rewrite (process_code_run adf_to_text [join nl ts]) by discriminate.
    cbn [flat_map]. rewrite app_nil_r. now rewrite split_nl_join.
  - rewrite <- split_nl_join by exact Hne. apply join_split_nl.
Qed.

Lemma X9_code_run_lines_witness :
  adf_to_text (VList (map code ["a" ++ nl ++ "b"; "c"]))
  = adf_to_text (VList [code (join nl ["a" ++ nl ++ "b"; "c"])]).
Proof.
  apply (proj1 (proj2 (X9_code_run_lines ["a" ++ nl ++ "b"; "c"]
                         ltac:(discriminate)))).
Defined.

Lemma filter_drop_code (ms1 ms2 : list value) :
  filter (fun m => negb (is_code_mark m)) (ms1 ++ mark "code" :: ms2)
  = filter (fun m => negb (is_code_mark m)) (mark "code" :: ms1 ++ ms2).
Proof.
  rewrite filter_app. cbn [filter]. change (is_code_mark (mark "code")) with true.
  cbn [negb]. now rewrite filter_app.
Qed.

Lemma is_code_item_text_node (t : string) (ms : list value) :
  forallb is_dict ms = true ->
  is_code_item (text_node t ms) = Ok (existsb is_code_mark ms).
Proof.
  intros H. unfold text_node. cbn [is_code_item].
  rewrite (has_code_mark_marks _ ms) by reflexivity.
  now apply any_code_mark_exists.
Qed.

(** The step of the merger on a code node depends on the node only by
    the text that [_get_text_without_code_mark] returns. *)
Lemma merge_items_code_cong conv (n1 n2 : list (string * value))
  (rest : list value) (st : merger_state) :
  _has_code_mark n1 = Ok true -> _has_code_mark n2 = Ok true ->
  _get_text_without_code_mark n1 = _get_text_without_code_mark n2 ->
  merge_items conv (VDict n1 :: rest) st
  = merge_items conv (VDict n2 :: rest) st.
Proof.
  intros H1 H2 E. cbn [merge_items is_code_item]. rewrite H1, H2.
  cbn [bind]. now rewrite E.
Qed.

(** X10. In a sequence, the place of the code mark among the marks of a
    text node makes no difference: the merger removes it and applies
    the other marks inside the code text, so the node with the code
    mark anywhere converts as the node with the code mark first. *)
Theorem X10_code_mark_place (T : string) (ms1 ms2 : list value)
  (before after : list value) :
  forallb is_dict (ms1 ++ ms2) = true ->
  adf_to_text
    (VList (before ++ text_node T (ms1 ++ mark "code" :: ms2) :: after))
  = adf_to_text
      (VList (before ++ text_node T (mark "code" :: ms1 ++ ms2) :: after)).
Proof.
  intros H.
  assert (Hd1 : forallb is_dict (ms1 ++ mark "code" :: ms2) = true).
  { rewrite forallb_app in H. apply andb_true_iff in H.
    destruct H as [Ha Hb]. rewrite forallb_app, Ha. cbn [forallb andb].
    exact Hb. }
  assert (Hd2 : forallb is_dict (mark "code" :: ms1 ++ ms2) = true)
    by exact H.
  rewrite !adf_to_text_list. apply process_content_list_ext;
    [|destruct before; discriminate | destruct before; discriminate].
  rewrite !merge_items_app.
  destruct (merge_items adf_to_text before ([], [])) as [st|e];
    cbn [bind]; [|reflexivity].
  unfold text_node. apply merge_items_code_cong.
  - rewrite (has_code_mark_marks _ (ms1 ++ mark "code" :: ms2))
      by reflexivity.
    rewrite (any_code_mark_exists _ Hd1), existsb_app. cbn [existsb].
    change (is_code_mark (mark "code")) with true.
    now rewrite orb_true_r.
  - reflexivity.
  - rewrite (get_text_marks _ (ms1 ++ mark "code" :: ms2))
      by (reflexivity || exact Hd1).
    rewrite (get_text_marks _ (mark "code" :: ms1 ++ ms2))
      by (reflexivity || exact Hd2).
    now rewrite filter_drop_code.
Qed.

Lemma X10_code_mark_place_witness :
  adf_to_text
    (VList ([plain "p"]
            ++ text_node "T" ([mark "strong"] ++ mark "code" :: [mark "em"])
            :: [code "c"]))
  = adf_to_text
      (VList ([plain "p"]
              ++ text_node "T" (mark "code" :: [mark "strong"] ++ [mark "em"])
              :: [code "c"])).
Proof.
  apply (X10_code_mark_place "T" [mark "strong"] [mark "em"] [plain "p"]
           [code "c"]).
  reflexivity.
Defined.

(** *** What the merger returns *)

Lemma flush_truthy (st : merger_state) :
  all_truthy (fst st) -> all_truthy (fst (flush_code_buffer st)).
Proof.
  destruct st as [parts buf]. unfold flush_code_buffer.
  destruct buf as [|line buf]; [auto|]. intros H.
  destruct (Nat.eqb (List.length (line :: buf)) 1
            && negb (contains_nl line)); cbn [fst];
    apply Forall_app; (split; [exact H | repeat constructor]).
Qed.

Lemma merge_items_truthy conv (items : list value) :
  forall st st',
    merge_items conv items st = Ok st' ->
    all_truthy (fst st) -> all_truthy (fst st').
Proof.
  induction items as [|x items IH]; intros st st'; cbn [merge_items].
  - intros E; injection E as <-. auto.
  - destruct (is_code_item x) as [[|]|e]; cbn [bind]; try discriminate.
    + destruct (match x with
                | VDict node => _get_text_without_code_mark node
                | _ => Ok VNone
                end) as [t|e]; cbn [bind]; [|discriminate].
      destruct (py_split_nl t) as [lines|e]; cbn [bind]; [|discriminate].
      intros E H. exact (IH _ _ E H).
    + destruct (conv x) as [t|e]; cbn [bind]; [|discriminate].
      intros E H. apply (IH _ _ E).
      apply flush_truthy in H.
      destruct (truthy t) eqn:Ht; [|exact H].
      cbn [fst]. apply Forall_app. split; [exact H | now repeat constructor].
Qed.

Lemma strs_of_truthy (parts : list value) : forall ss,
  strs_of parts = Ok ss -> all_truthy parts ->
  Forall (fun s => str_is_empty s = false) ss.
Proof.
  induction parts as [|p parts IH]; intros ss; cbn [strs_of].
  - intros E; injection E as <-. constructor.
  - destruct p as [| | |s| |]; try discriminate.
    destruct (strs_of parts) as [ss'|e]; cbn [bind]; [|discriminate].
    intros E H. injection E as <-. inversion H as [|? ? Hs Hrest]; subst.
    constructor; [|now apply IH].
    cbn [truthy] in Hs. now destruct (str_is_empty s).
Qed.

Lemma process_content_list_not_empty conv (items : list value) (r : value) :
  _process_content_list conv items = Ok r ->
  r = VNone \/ exists s, r = VStr s /\ str_is_empty s = false.
Proof.
  unfold _process_content_list. destruct items as [|x items];
    [intros E; injection E as <-; now left|].
  destruct (merge_items conv (x :: items) ([], [])) as [st|e] eqn:Em;
    cbn [bind]; [|discriminate].
  pose proof (merge_items_truthy conv _ _ _ Em (Forall_nil _)) as Ht.
  apply flush_truthy in Ht.
  destruct (fst (flush_code_buffer st)) as [|p parts];
    [intros E; injection E as <-; now left|].
  destruct (strs_of (p :: parts)) as [ss|e] eqn:Es; cbn [bind];
    [|discriminate].
  intros E; injection E as <-. right. eexists. split; [reflexivity|].
  apply join_not_empty; [|exact (strs_of_truthy _ _ Es Ht)].
  destruct p; try discriminate. cbn [strs_of] in Es.
  destruct (strs_of parts); cbn [bind] in Es; [|discriminate].
  injection Es as <-. discriminate.
Qed.

(** X11. A sequence never converts to the empty string: when
    [_process_content_list] returns, the result is the absent value or
    a string that is not empty, whatever the elements convert to; the
    empty sequence gives the absent value. *)
Theorem X11_sequence_never_empty_string (items : list value) (r : value) :
  adf_to_text (VList items) = Ok r ->
  (r = VNone \/ exists s, r = VStr s /\ str_is_empty s = false)
  /\ adf_to_text (VList []) = Ok VNone.
Proof.
  intros E. split; [|reflexivity].
  rewrite adf_to_text_list in E.
  exact (process_content_list_not_empty adf_to_text items r E).
Qed.

Lemma X11_sequence_never_empty_string_witness :
  adf_to_text (VList [VStr EmptyString; code EmptyString; VList []])
  = Ok (VStr "``")
  /\ (VStr "``" = VNone
      \/ exists s, VStr "``" = VStr s /\ str_is_empty s = false).
Proof.
  split; [reflexivity|].
  apply (proj1 (X11_sequence_never_empty_string
                  [VStr EmptyString; code EmptyString; VList []]
                  (VStr "``") eq_refl)).
Defined.

(** ** The rules of the dispatcher *)

Lemma adf_to_text_mention node :
  dict_get node "type" = VStr "mention" ->
  adf_to_text (VDict node) =
    (attrs <- as_dict (dict_get_or node "attrs" (VDict [])) ;;
     if truthy (dict_get attrs "text") then Ok (dict_get attrs "text")
     else
       id <- py_str (dict_get_or attrs "id" (VStr "unknown")) ;;
       Ok (VStr ("@" ++ id))).
Proof. intros Ht. cbn [adf_to_text]. rewrite Ht. reflexivity. Qed.

Lemma adf_to_text_emoji node :
  dict_get node "type" = VStr "emoji" ->
  adf_to_text (VDict node) =
    (attrs <- as_dict (dict_get_or node "attrs" (VDict [])) ;;
     Ok (py_or (dict_get attrs "text")
           (dict_get_or attrs "shortName" (VStr EmptyString)))).
Proof. intros Ht. cbn [adf_to_text]. rewrite Ht. reflexivity. Qed.

Lemma adf_to_text_date node :
  dict_get node "type" = VStr "date" ->
  adf_to_text (VDict node) =
    (attrs <- as_dict (dict_get_or node "attrs" (VDict [])) ;;
     date_text (dict_get attrs "timestamp")).
Proof. intros Ht. cbn [adf_to_text]. rewrite Ht. reflexivity. Qed.

Lemma adf_to_text_status node :
  dict_get node "type" = VStr "status" ->
  adf_to_text (VDict node) =
    (attrs <- as_dict (dict_get_or node "attrs" (VDict [])) ;;
     t <- py_str (dict_get_or attrs "text" (VStr EmptyString)) ;;
     Ok (VStr ("[" ++ t ++ "]"))).
Proof. intros Ht. cbn [adf_to_text]. rewrite Ht. reflexivity. Qed.

Lemma adf_to_text_inlineCard node :
  dict_get node "type" = VStr "inlineCard" ->
  adf_to_text (VDict node) =
    (attrs <- as_dict (dict_get_or node "attrs" (VDict [])) ;;
     if truthy (dict_get attrs "url") then Ok (dict_get attrs "url")
     else
       data <- as_dict (dict_get_or attrs "data" (VDict [])) ;;
       Ok (py_or (dict_get data "url")
             (dict_get_or data "name" (VStr EmptyString)))).
Proof. intros Ht. cbn [adf_to_text]. rewrite Ht. reflexivity. Qed.

Lemma adf_to_text_text node :
  dict_get node "type" = VStr "text" ->
  adf_to_text (VDict node) =
    (if truthy (dict_get_or node "marks" (VList []))
     then _apply_marks (dict_get_or node "text" (VStr EmptyString))
            (dict_get_or node "marks" (VList []))
     else Ok (dict_get_or node "text" (VStr EmptyString))).
Proof. intros Ht. cbn [adf_to_text]. rewrite Ht. reflexivity. Qed.

Lemma get_some d k v dflt : lookup d k = Some v -> dict_get_or d k dflt = v.
Proof. intros H. unfold dict_get_or. now rewrite H. Qed.

Lemma get_none d k dflt : lookup d k = None -> dict_get_or d k dflt = dflt.
Proof. intros H. unfold dict_get_or. now rewrite H. Qed.

(** What a value that is not true converts to. *)
Lemma adf_to_text_falsy (c : value) :
  truthy c = false ->
  adf_to_text c = Ok VNone \/ adf_to_text c = Ok (VStr EmptyString).
Proof.
  destruct c as [|b|z|s|l|d]; cbn [truthy]; intros H; try (now left).
  - destruct s; [now right | discriminate].
  - destruct l; [now left | discriminate].
  - destruct d; [now left | discriminate].
Qed.

(** X12. A [codeBlock] node never converts to the absent value: when
    the conversion of its content returns, the result is a fenced block,
    holding the text of the content, and nothing between the fences when
    the content is missing, is not true (an empty list, a JSON null) or
    converts to the absent value.  A code-marked text node in the
    content keeps its backticks inside the fences.  An exception of the
    content's conversion is passed on. *)
Theorem X12_codeBlock_rule (node : list (string * value)) :
  dict_get node "type" = VStr "codeBlock" ->
  (forall r, adf_to_text (VDict node) = Ok r -> exists s, r = VStr (fenced s))
  /\ (lookup node "content" = None ->
      adf_to_text (VDict node) = Ok (VStr (fenced EmptyString)))
  /\ (forall c,
         lookup node "content" = Some c ->
         (truthy c = false \/ adf_to_text c = Ok VNone ->
          adf_to_text (VDict node) = Ok (VStr (fenced EmptyString)))
         /\ (forall s, adf_to_text c = Ok (VStr s) ->
                       adf_to_text (VDict node) = Ok (VStr (fenced s)))
         /\ (forall e, adf_to_text c = Raise e ->
                       adf_to_text (VDict node) = Raise e)
         /\ (forall t, c = VList [code t] -> contains_nl t = false ->
                       adf_to_text (VDict node)
                       = Ok (VStr (fenced (inline_code t))))).
Proof.
  intros Ht. rewrite (adf_to_text_codeBlock node Ht). split; [|split].
  - intros r. destruct (adf_to_text (dict_get_or node "content" (VList [])))
      as [c|e]; cbn [bind]; [|discriminate].
    destruct (py_str (py_or c (VStr EmptyString))) as [s|e]; cbn [bind];
      [|discriminate].
    intros E; injection E as <-. now exists s.
  - intros Hc. rewrite (get_none _ _ _ Hc). reflexivity.
  - intros c Hc. rewrite (get_some _ _ _ _ Hc). split; [|split; [|split]].
    + intros [Hf|Hn].
      * destruct (adf_to_text_falsy c Hf) as [-> | ->]; reflexivity.
      * rewrite Hn. reflexivity.
    + intros s ->. cbn [bind]. unfold py_or.
      destruct (truthy (VStr s)) eqn:E; [reflexivity|].
      destruct s; [reflexivity | discriminate].
    + intros e ->. reflexivity.
    + intros t -> Hnl.
      assert (E : adf_to_text (VList [code t]) = Ok (VStr (inline_code t))).
      { rewrite adf_to_text_list. change [code t] with (map code [t]).
        rewrite (process_code_run adf_to_text [t]) by discriminate.
        cbn [flat_map]. rewrite app_nil_r, (split_nl_single t Hnl).
        cbn [code_run_text]. now rewrite Hnl. }
      rewrite E. reflexivity.
Qed.

Lemma X12_codeBlock_rule_witness :
  adf_to_text
    (VDict [("type", VStr "codeBlock"); ("content", VList [code "x"])])
  = Ok (VStr (fenced (inline_code "x")))
  /\ adf_to_text (VDict [("type", VStr "codeBlock"); ("content", VNone)])
     = Ok (VStr (fenced EmptyString)).
Proof.
  split.
  - apply (proj2 (proj2 (proj2 (proj2 (proj2
             (X12_codeBlock_rule
                [("type", VStr "codeBlock"); ("content", VList [code "x"])]
                eq_refl)) (VList [code "x"]) eq_refl))) "x");
      reflexivity.
  - apply (proj1 (proj2 (proj2
             (X12_codeBlock_rule
                [("type", VStr "codeBlock"); ("content", VNone)] eq_refl))
             VNone eq_refl)).
    left. reflexivity.
Defined.

(** X13. A [mention] node converts to its [attrs.text] when that is
    true, returned as it is; otherwise to an at sign followed by
    [str(attrs.id)]: the string itself, the digits of a number, [None]
    for a JSON null, and [unknown] when there is no [id] or no
    [attrs]. *)
Theorem X13_mention_rule (node : list (string * value)) :
  dict_get node "type" = VStr "mention" ->
  (lookup node "attrs" = None ->
   adf_to_text (VDict node) = Ok (VStr "@unknown"))
  /\ forall attrs,
      lookup node "attrs" = Some (VDict attrs) ->
      (forall t, lookup attrs "text" = Some t -> truthy t = true ->
                 adf_to_text (VDict node) = Ok t)
      /\ (truthy (dict_get attrs "text") = false ->
          (lookup attrs "id" = None ->
           adf_to_text (VDict node) = Ok (VStr "@unknown"))
          /\ (forall i, lookup attrs "id" = Some (VStr i) ->
                        adf_to_text (VDict node) = Ok (VStr ("@" ++ i)))
          /\ (forall z s, lookup attrs "id" = Some (VInt z) ->
                          str_of_int z = Ok s ->
                          adf_to_text (VDict node) = Ok (VStr ("@" ++ s)))
          /\ (lookup attrs "id" = Some VNone ->
              adf_to_text (VDict node) = Ok (VStr "@None"))).
Proof.
  intros Ht. rewrite (adf_to_text_mention node Ht). split.
  - intros Ha. rewrite (get_none _ _ _ Ha). reflexivity.
  - intros attrs Ha. rewrite (get_some _ _ _ _ Ha). cbn [as_dict bind].
    split.
    + intros t Hl Htr. unfold dict_get. rewrite (get_some _ _ _ _ Hl).
      now rewrite Htr.
    + intros Hf. rewrite Hf. repeat split.
      * intros Hi. rewrite (get_none _ _ _ Hi). reflexivity.
      * intros i Hi. rewrite (get_some _ _ _ _ Hi). reflexivity.
      * intros z s Hi Hs. rewrite (get_some _ _ _ _ Hi).
        cbn [py_str py_repr]. rewrite Hs. reflexivity.
      * intros Hi. rewrite (get_some _ _ _ _ Hi). reflexivity.
Qed.

Lemma X13_mention_rule_witness :
  adf_to_text
    (VDict [("type", VStr "mention");
            ("attrs", VDict [("id", VInt 42); ("text", VStr EmptyString)])])
  = Ok (VStr "@42")
  /\ adf_to_text
       (VDict [("attrs", VDict [("text", VStr "@Ann"); ("id", VStr "7")]);
               ("type", VStr "mention")])
     = Ok (VStr "@Ann").
Proof.
  split.
  - apply (proj1 (proj2 (proj2 (proj2 (proj2
             (X13_mention_rule
                [("type", VStr "mention");
                 ("attrs",
                  VDict [("id", VInt 42); ("text", VStr EmptyString)])]
                eq_refl)
             [("id", VInt 42); ("text", VStr EmptyString)] eq_refl)
             eq_refl))) 42 "42"); reflexivity.
  - apply (proj1 (proj2
             (X13_mention_rule
                [("attrs", VDict [("text", VStr "@Ann"); ("id", VStr "7")]);
                 ("type", VStr "mention")] eq_refl)
             [("text", VStr "@Ann"); ("id", VStr "7")] eq_refl)
             (VStr "@Ann")); reflexivity.
Defined.

(** X14. An [emoji] node converts to its [attrs.text] when that is
    true; otherwise to its [attrs.shortName], whatever value that is;
    and to the empty string when there is no [shortName] or no
    [attrs]. *)
Theorem X14_emoji_rule (node : list (string * value)) :
  dict_get node "type" = VStr "emoji" ->
  (lookup node "attrs" = None ->
   adf_to_text (VDict node) = Ok (VStr EmptyString))
  /\ forall attrs,
      lookup node "attrs" = Some (VDict attrs) ->
      (forall t, lookup attrs "text" = Some t -> truthy t = true ->
                 adf_to_text (VDict node) = Ok t)
      /\ (truthy (dict_get attrs "text") = false ->
          (forall n, lookup attrs "shortName" = Some n ->
                     adf_to_text (VDict node) = Ok n)
          /\ (lookup attrs "shortName" = None ->
              adf_to_text (VDict node) = Ok (VStr EmptyString))).
Proof.
  intros Ht. rewrite (adf_to_text_emoji node Ht). split.
  - intros Ha. rewrite (get_none _ _ _ Ha). reflexivity.
  - intros attrs Ha. rewrite (get_some _ _ _ _ Ha). cbn [as_dict bind].
    unfold py_or. split.
    + intros t Hl Htr. unfold dict_get. rewrite (get_some _ _ _ _ Hl).
      now rewrite Htr.
    + intros Hf. rewrite Hf. split.
      * intros n Hn. now rewrite (get_some _ _ _ _ Hn).
      * intros Hn. now rewrite (get_none _ _ _ Hn).
Qed.

Lemma X14_emoji_rule_witness :
  adf_to_text
    (VDict [("type", VStr "emoji");
            ("attrs", VDict [("shortName", VStr ":smile:")])])
  = Ok (VStr ":smile:").
Proof.
  apply (proj1 (proj2 (proj2
           (X14_emoji_rule
              [("type", VStr "emoji");
               ("attrs", VDict [("shortName", VStr ":smile:")])] eq_refl)
           [("shortName", VStr ":smile:")] eq_refl) eq_refl)
           (VStr ":smile:")).
  reflexivity.
Defined.

(** X15. A [status] node converts to [str(attrs.text)] in square
    brackets: the text itself for a string, [None] for a JSON null, and
    empty brackets when there is no [text] or no [attrs]; the result
    is always a string. *)
Theorem X15_status_rule (node : list (string * value)) :
  dict_get node "type" = VStr "status" ->
  (lookup node "attrs" = None -> adf_to_text (VDict node) = Ok (VStr "[]"))
  /\ (forall attrs,
         lookup node "attrs" = Some (VDict attrs) ->
         (lookup attrs "text" = None ->
          adf_to_text (VDict node) = Ok (VStr "[]"))
         /\ (forall t, lookup attrs "text" = Some (VStr t) ->
                       adf_to_text (VDict node) = Ok (VStr ("[" ++ t ++ "]")))
         /\ (lookup attrs "text" = Some VNone ->
             adf_to_text (VDict node) = Ok (VStr "[None]")))
  /\ forall r, adf_to_text (VDict node) = Ok r ->
       exists s, r = VStr ("[" ++ s ++ "]").
Proof.
  intros Ht. rewrite (adf_to_text_status node Ht). split; [|split].
  - intros Ha. rewrite (get_none _ _ _ Ha). reflexivity.
  - intros attrs Ha. rewrite (get_some _ _ _ _ Ha). cbn [as_dict bind].
    repeat split.
    + intros Hn. now rewrite (get_none _ _ _ Hn).
    + intros t Hn. now rewrite (get_some _ _ _ _ Hn).
    + intros Hn. now rewrite (get_some _ _ _ _ Hn).
  - intros r.
    destruct (as_dict (dict_get_or node "attrs" (VDict []))) as [attrs|e];
      cbn [bind]; [|discriminate].
    destruct (py_str (dict_get_or attrs "text" (VStr EmptyString)))
      as [s|e]; cbn [bind]; [|discriminate].
    intros E; injection E as <-. now exists s.
Qed.

Lemma X15_status_rule_witness :
  adf_to_text
    (VDict [("type", VStr "status");
            ("attrs", VDict [("text", VStr "In Progress")])])
  = Ok (VStr "[In Progress]").
Proof.
  apply (proj1 (proj2 (proj1 (proj2
           (X15_status_rule
              [("type", VStr "status");
               ("attrs", VDict [("text", VStr "In Progress")])] eq_refl))
           [("text", VStr "In Progress")] eq_refl)) "In Progress").
  reflexivity.
Defined.

(** X16. An [inlineCard] node converts to the first of these that is
    true: its [attrs.url], then its [attrs.data.url]; when neither is,
    to [attrs.data.name], and to the empty string when there is no
    [name], no [data] or no [attrs]. *)
Theorem X16_inlineCard_rule (node : list (string * value)) :
  dict_get node "type" = VStr "inlineCard" ->
  (lookup node "attrs" = None ->
   adf_to_text (VDict node) = Ok (VStr EmptyString))
  /\ forall attrs,
      lookup node "attrs" = Some (VDict attrs) ->
      (forall u, lookup attrs "url" = Some u -> truthy u = true ->
                 adf_to_text (VDict node) = Ok u)
      /\ (truthy (dict_get attrs "url") = false ->
          (lookup attrs "data" = None ->
           adf_to_text (VDict node) = Ok (VStr EmptyString))
          /\ forall data,
              lookup attrs "data" = Some (VDict data) ->
              (forall u, lookup data "url" = Some u -> truthy u = true ->
                         adf_to_text (VDict node) = Ok u)
              /\ (truthy (dict_get data "url") = false ->
                  (forall n, lookup data "name" = Some n ->
                             adf_to_text (VDict node) = Ok n)
                  /\ (lookup data "name" = None ->
                      adf_to_text (VDict node) = Ok (VStr EmptyString)))).
Proof.
  intros Ht. rewrite (adf_to_text_inlineCard node Ht). split.
  - intros Ha. rewrite (get_none _ _ _ Ha). reflexivity.
  - intros attrs Ha. rewrite (get_some _ _ _ _ Ha). cbn [as_dict bind].
    split.
    + intros u Hl Htr. unfold dict_get. rewrite (get_some _ _ _ _ Hl).
      now rewrite Htr.
    + intros Hf. rewrite Hf. split.
      * intros Hd. rewrite (get_none _ _ _ Hd). reflexivity.
      * intros data Hd. rewrite (get_some _ _ _ _ Hd). cbn [as_dict bind].
        unfold py_or. split.
        -- intros u Hl Htr. unfold dict_get.
           rewrite (get_some _ _ _ _ Hl). now rewrite Htr.
        -- intros Hfu. rewrite Hfu. split.
           ++ intros n Hn. now rewrite (get_some _ _ _ _ Hn).
           ++ intros Hn. now rewrite (get_none _ _ _ Hn).
Qed.

Lemma X16_inlineCard_rule_witness :
  adf_to_text
    (VDict [("type", VStr "inlineCard");
            ("attrs",
             VDict [("url", VStr EmptyString);
                    ("data",
                     VDict [("name", VStr "PROJ-1");
                            ("url", VStr "https://x/PROJ-1")])])])
  = Ok (VStr "https://x/PROJ-1").
Proof.
  apply (proj1 (proj2 (proj2 (proj2
           (X16_inlineCard_rule
              [("type", VStr "inlineCard");
               ("attrs",
                VDict [("url", VStr EmptyString);
                       ("data",
                        VDict [("name", VStr "PROJ-1");
                               ("url", VStr "https://x/PROJ-1")])])]
              eq_refl)
           [("url", VStr EmptyString);
            ("data",
             VDict [("name", VStr "PROJ-1");
                    ("url", VStr "https://x/PROJ-1")])] eq_refl) eq_refl)
           [("name", VStr "PROJ-1"); ("url", VStr "https://x/PROJ-1")]
           eq_refl) (VStr "https://x/PROJ-1")); reflexivity.
Defined.

Lemma int_of_str_not_empty (s : string) (z : Z) :
  int_of_str s = Ok z -> truthy (VStr s) = true.
Proof. destruct s; [discriminate | reflexivity]. Qed.

Lemma beyond_platform_not_zero (ms : Z) :
  ms < time_min_ms \/ time_sup_ms <= ms -> (ms =? 0) = false.
Proof.
  unfold time_min_ms, time_sup_ms. rewrite pow2_63. intros H.
  apply Z.eqb_neq. lia.
Qed.

Lemma year_1000_in_range (z : Z) :
  year_1000_ms <= z <= datetime_max_ms ->
  datetime_min_ms <= z <= datetime_max_ms.
Proof. unfold year_1000_ms, datetime_min_ms. lia. Qed.

Lemma over_is_beyond (ms : Z) :
  ms < time_min_ms \/ time_over_ms < ms ->
  ms < time_min_ms \/ time_sup_ms <= ms.
Proof. unfold time_over_ms, time_sup_ms. rewrite pow2_63. lia. Qed.

(** X17. The timestamp of a [date] node may be a string of digits: it
    is read as [int] reads it, so the string of an instant of the years
    1000 to 9999 gives the date of that instant, the string ["0"]
    (true, unlike the number 0) gives 1970-01-01, and a string of an
    instant outside the years 1 to 9999 gives the string as it was
    written.  A timestamp that is a list is given back as its [repr].
    The [OverflowError] of an instant beyond the platform's time, number
    or string, is not caught.  (The statement keeps to the years in
    which every platform prints four digits, and to the instants that
    every version of the interpreter rejects.) *)
Theorem X17_date_other_timestamps :
  (forall s z,
      int_of_str s = Ok z -> year_1000_ms <= z <= datetime_max_ms ->
      adf_to_text (date_node (VStr s))
      = Ok (VStr (strftime_Ymd (civil_from_days (z / 1000 / 86400)))))
  /\ adf_to_text (date_node (VStr "0")) = Ok (VStr "1970-01-01")
  /\ (forall s z,
         int_of_str s = Ok z -> time_min_ms <= z < time_sup_ms ->
         z < datetime_min_ms \/ datetime_max_ms < z ->
         adf_to_text (date_node (VStr s)) = Ok (VStr s))
  /\ (forall items,
         items <> [] ->
         adf_to_text (date_node (VList items))
         = (s <- py_repr (VList items) ;; Ok (VStr s)))
  /\ (forall ms,
         ms < time_min_ms \/ time_over_ms < ms ->
         adf_to_text (date_node (VInt ms)) = Raise OverflowError)
  /\ (forall s z,
         int_of_str s = Ok z -> z < time_min_ms \/ time_over_ms < z ->
         adf_to_text (date_node (VStr s)) = Raise OverflowError).
Proof.
  repeat match goal with |- _ /\ _ => split end.
  - intros s z Hs Hz. apply year_1000_in_range in Hz.
    rewrite adf_to_text_date_node. unfold date_text.
    rewrite (int_of_str_not_empty s z Hs). cbn [py_int]. rewrite Hs.
    cbn [bind]. rewrite (fromtimestamp_ms_in_range z Hz). reflexivity.
  - reflexivity.
  - intros s z Hs Hp Hz. rewrite adf_to_text_date_node. unfold date_text.
    rewrite (int_of_str_not_empty s z Hs). cbn [py_int]. rewrite Hs.
    cbn [bind]. rewrite (fromtimestamp_ms_out_of_range z Hp Hz).
    reflexivity.
  - intros items Hne. rewrite adf_to_text_date_node. unfold date_text.
    destruct items as [|x items]; [congruence|]. reflexivity.
  - intros ms Hms. apply over_is_beyond in Hms.
    rewrite adf_to_text_date_node. unfold date_text.
    cbn [truthy]. rewrite (beyond_platform_not_zero ms Hms).
    cbn [negb py_int bind]. rewrite (fromtimestamp_ms_overflow ms Hms).
    reflexivity.
  - intros s z Hs Hz. apply over_is_beyond in Hz.
    rewrite adf_to_text_date_node. unfold date_text.
    rewrite (int_of_str_not_empty s z Hs). cbn [py_int]. rewrite Hs.
    cbn [bind]. rewrite (fromtimestamp_ms_overflow z Hz). reflexivity.
Qed.

Lemma X17_date_other_timestamps_witness :
  adf_to_text (date_node (VStr " +1_582_152_559_000 "))
  = Ok (VStr "2020-02-19")
  /\ adf_to_text (date_node (VStr "-99999999999999999"))
     = Ok (VStr "-99999999999999999")
  /\ adf_to_text (date_node (VStr "99999999999999999999999"))
     = Raise OverflowError.
Proof.
  split; [|split].
  - apply (proj1 X17_date_other_timestamps " +1_582_152_559_000 "
             1582152559000); [reflexivity|].
    unfold year_1000_ms, datetime_max_ms. lia.
  - apply (proj1 (proj2 (proj2 X17_date_other_timestamps))
             "-99999999999999999" (-99999999999999999)); [reflexivity | |].
    + unfold time_min_ms, time_sup_ms. rewrite pow2_63. lia.
    + unfold datetime_min_ms. lia.
  - apply (proj2 (proj2 (proj2 (proj2 (proj2 X17_date_other_timestamps))))
             "99999999999999999999999" 99999999999999999999999);
      [reflexivity|].
    unfold time_over_ms. rewrite pow2_63. lia.
Defined.

(** X18. The rules that read [attrs] take a missing [attrs] for an
    empty mapping, but an [attrs] that is there and is not a mapping (a
    JSON null, a string, a list) raises [AttributeError] in the
    [mention], [emoji], [date], [status] and [inlineCard] rules, and so
    does such a [data] of an inline card without [url].  The other
    rules do not read [attrs]. *)
Theorem X18_attrs_not_a_mapping (node : list (string * value)) (a : value) :
  lookup node "attrs" = Some a -> is_dict a = false ->
  (dict_get node "type" = VStr "mention"
   \/ dict_get node "type" = VStr "emoji"
   \/ dict_get node "type" = VStr "date"
   \/ dict_get node "type" = VStr "status"
   \/ dict_get node "type" = VStr "inlineCard" ->
   adf_to_text (VDict node) = Raise AttributeError)
  /\ (dict_get node "type" = VStr "hardBreak" ->
      adf_to_text (VDict node) = Ok (VStr nl))
  /\ (dict_get node "type" = VStr "text" -> lookup node "marks" = None ->
      adf_to_text (VDict node)
      = Ok (dict_get_or node "text" (VStr EmptyString)))
  /\ forall card d,
      dict_get card "type" = VStr "inlineCard" ->
      lookup card "attrs" = Some (VDict d) ->
      truthy (dict_get d "url") = false ->
      lookup d "data" = Some a ->
      adf_to_text (VDict card) = Raise AttributeError.
Proof.
  intros Ha Hd.
  assert (E : as_dict (dict_get_or node "attrs" (VDict []))
              = Raise AttributeError).
  { rewrite (get_some _ _ _ _ Ha). destruct a; try reflexivity.
    discriminate. }
  split; [|split; [|split]].
  - intros [Ht|[Ht|[Ht|[Ht|Ht]]]].
    + rewrite (adf_to_text_mention node Ht), E. reflexivity.
    + rewrite (adf_to_text_emoji node Ht), E. reflexivity.
    + rewrite (adf_to_text_date node Ht), E. reflexivity.
    + rewrite (adf_to_text_status node Ht), E. reflexivity.
    + rewrite (adf_to_text_inlineCard node Ht), E. reflexivity.
  - intros Ht. cbn [adf_to_text]. rewrite Ht. reflexivity.
  - intros Ht Hm. rewrite (adf_to_text_text node Ht).
    rewrite (get_none _ _ _ Hm). reflexivity.
  - intros card d Ht Hl Hu Hdata.
    rewrite (adf_to_text_inlineCard card Ht), (get_some _ _ _ _ Hl).
    cbn [as_dict bind]. rewrite Hu, (get_some _ _ _ _ Hdata).
    destruct a; try reflexivity. discriminate.
Qed.

Lemma X18_attrs_not_a_mapping_witness :
  adf_to_text (VDict [("type", VStr "status"); ("attrs", VNone)])
  = Raise AttributeError
  /\ adf_to_text (VDict [("type", VStr "hardBreak"); ("attrs", VNone)])
     = Ok (VStr nl).
Proof.
  split.
  - apply (proj1 (X18_attrs_not_a_mapping
                    [("type", VStr "status"); ("attrs", VNone)] VNone
                    eq_refl eq_refl)).
    right. right. right. left. reflexivity.
  - apply (proj1 (proj2 (X18_attrs_not_a_mapping
                           [("type", VStr "hardBreak"); ("attrs", VNone)]
                           VNone eq_refl eq_refl))).
    reflexivity.
Defined.

(** X19. A text node whose [marks] is a JSON null converts, passed
    directly, to its text: the marks are only tested for truth.  As an
    element of a sequence the same node raises [TypeError]: the
    code-mark test iterates over the marks.  A text node without
    [marks] converts alike in both places. *)
Theorem X19_null_marks (node : list (string * value)) (t : string)
  (rest : list value) :
  dict_get node "type" = VStr "text" ->
  lookup node "text" = Some (VStr t) -> str_is_empty t = false ->
  (lookup node "marks" = Some VNone ->
   adf_to_text (VDict node) = Ok (VStr t)
   /\ adf_to_text (VList (VDict node :: rest)) = Raise TypeError)
  /\ (lookup node "marks" = None ->
      adf_to_text (VDict node) = Ok (VStr t)
      /\ adf_to_text (VList [VDict node]) = Ok (VStr t)).
Proof.
  intros Ht Htext Hne.
  assert (Etype : eq_str (dict_get node "type") "text" = true)
    by (rewrite Ht; reflexivity).
  split; intros Hm.
  - split.
    + rewrite (adf_to_text_text node Ht), (get_some _ _ _ _ Hm).
      cbn [truthy]. now rewrite (get_some _ _ _ _ Htext).
    + rewrite adf_to_text_list. unfold _process_content_list.
      cbn [merge_items is_code_item]. unfold _has_code_mark.
      rewrite Etype, (get_some _ _ _ _ Hm). reflexivity.
  - assert (E : adf_to_text (VDict node) = Ok (VStr t)).
    { rewrite (adf_to_text_text node Ht), (get_none _ _ _ Hm).
      cbn [truthy]. now rewrite (get_some _ _ _ _ Htext). }
    split; [exact E|].
    rewrite (adf_to_text_single (VDict node) (VStr t)).
    + cbn [is_nothing]. now rewrite Hne.
    + cbn [is_code_item]. unfold _has_code_mark.
      rewrite Etype, (get_none _ _ _ Hm). reflexivity.
    + exact E.
    + reflexivity.
Qed.

Lemma X19_null_marks_witness :
  adf_to_text
    (VDict [("type", VStr "text"); ("text", VStr "a"); ("marks", VNone)])
  = Ok (VStr "a")
  /\ adf_to_text
       (VList [VDict [("type", VStr "text"); ("text", VStr "a");
                      ("marks", VNone)]; plain "b"])
     = Raise TypeError.
Proof.
  apply (proj1 (X19_null_marks
                  [("type", VStr "text"); ("text", VStr "a");
                   ("marks", VNone)] "a" [plain "b"] eq_refl eq_refl
                  eq_refl)).
  reflexivity.
Defined.

(** X20. The [text] of a text node is not required to be a string.
    Without marks the node converts to the value itself, so a number
    comes back as a number; as the only element of a sequence a number
    other than 0 then raises [TypeError] in the join, and 0 is dropped
    as nothing.  With a mark that wraps, the number is formatted by
    [str] and the result is a string.  With a code mark, in a sequence,
    the split of the text raises [AttributeError]. *)
Theorem X20_text_not_a_string (z : Z) :
  adf_to_text (VDict [("type", VStr "text"); ("text", VInt z)])
  = Ok (VInt z)
  /\ (z <> 0 ->
      adf_to_text (VList [VDict [("type", VStr "text"); ("text", VInt z)]])
      = Raise TypeError)
  /\ adf_to_text (VList [VDict [("type", VStr "text"); ("text", VInt 0)]])
     = Ok VNone
  /\ (forall s, str_of_int z = Ok s ->
                adf_to_text
                  (VDict [("type", VStr "text"); ("text", VInt z);
                          ("marks", VList [mark "strong"])])
                = Ok (VStr ("**" ++ s ++ "**")))
  /\ adf_to_text
       (VList [VDict [("type", VStr "text"); ("text", VInt z);
                      ("marks", VList [mark "code"])]])
     = Raise AttributeError.
Proof.
  split; [reflexivity|]. split; [|split; [reflexivity|split]].
  - intros Hz. rewrite adf_to_text_list. unfold _process_content_list.
    cbn [merge_items is_code_item]. 
    change (_has_code_mark [("type", VStr "text"); ("text", VInt z)])
      with (Ok (A:=bool) false).
    cbn [bind flush_code_buffer].
    change (adf_to_text (VDict [("type", VStr "text"); ("text", VInt z)]))
      with (Ok (VInt z)).
    cbn [bind truthy]. apply Z.eqb_neq in Hz. rewrite Hz. reflexivity.
  - intros s Hs.
    rewrite (adf_to_text_text
               [("type", VStr "text"); ("text", VInt z);
                ("marks", VList [mark "strong"])] eq_refl).
    change (dict_get_or
              [("type", VStr "text"); ("text", VInt z);
               ("marks", VList [mark "strong"])] "marks" (VList []))
      with (VList [mark "strong"]).
    change (dict_get_or
              [("type", VStr "text"); ("text", VInt z);
               ("marks", VList [mark "strong"])] "text" (VStr EmptyString))
      with (VInt z).
    cbn [truthy]. rewrite apply_marks_list. cbn [apply_mark_loop].
    change (apply_mark (VInt z) (mark "strong"))
      with (t <- str_of_int z ;; Ok (VStr ("**" ++ t ++ "**"))).
    rewrite Hs. reflexivity.
  - reflexivity.
Qed.

Lemma X20_text_not_a_string_witness :
  adf_to_text (VList [VDict [("type", VStr "text"); ("text", VInt 5)]])
  = Raise TypeError
  /\ adf_to_text
       (VDict [("type", VStr "text"); ("text", VInt 5);
               ("marks", VList [mark "strong"])])
     = Ok (VStr "**5**").
Proof.
  split.
  - apply (proj1 (proj2 (X20_text_not_a_string 5))). discriminate.
  - apply (proj1 (proj2 (proj2 (proj2 (X20_text_not_a_string 5)))) "5").
    reflexivity.
Defined.

(** ** The helpers on a store *)

(** X21. The helpers change no object that they are given: in the
    store after a call of [_apply_marks], of [_has_code_mark] or of
    [_get_text_without_code_mark], whether it returned or raised,
    every object that was there before is the object that it was, the
    store having only grown by the lists and mappings that the call
    made. *)
Theorem X21_helpers_never_write (fuel : nat) (h : Store.heap) :
  (forall text marks,
      let after := snd (Store._apply_marks fuel text marks h) in
      (exists fresh, after = (h ++ fresh)%list)
      /\ forall l o, nth_error h l = Some o -> nth_error after l = Some o)
  /\ (forall node,
         let after := snd (Store._has_code_mark node h) in
         (exists fresh, after = (h ++ fresh)%list)
         /\ forall l o, nth_error h l = Some o -> nth_error after l = Some o)
  /\ (forall node,
         let after :=
           snd (Store._get_text_without_code_mark fuel node h) in
         (exists fresh, after = (h ++ fresh)%list)
         /\ forall l o, nth_error h l = Some o -> nth_error after l = Some o).
Proof.
  split; [|split]; intros; apply StoreFacts.frame_whole.
  - apply (StoreFacts.keeps_apply_marks (List.length h) fuel text marks h).
    lia.
  - apply (StoreFacts.keeps_has_code_mark (List.length h) node h). lia.
  - apply (StoreFacts.keeps_get_text_without_code_mark (List.length h) fuel
             node h). lia.
Qed.

(** ** Wrappers and exceptions in a sequence *)

Lemma not_recognized_not_code (node : list (string * value)) :
  recognized (dict_get node "type") = false ->
  is_code_item (VDict node) = Ok false.
Proof.
  intros H. cbn [is_code_item]. unfold _has_code_mark.
  unfold recognized in H. repeat (apply orb_false_iff in H; destruct H as [H _]).
  now rewrite H.
Qed.

Lemma wrapper_converts (node : list (string * value)) (xs rs : list value) :
  recognized (dict_get node "type") = false ->
  lookup node "content" = Some (VList xs) ->
  Forall2 (fun x r => is_code_item x = Ok false /\ adf_to_text x = Ok r
                      /\ is_text r = true) xs rs ->
  adf_to_text (VDict node) = Ok (joined (kept_texts rs)).
Proof.
  intros Hty Hc F. rewrite (adf_to_text_other node Hty). unfold dict_get.
  rewrite (get_some _ _ _ _ Hc).
  destruct xs as [|x xs]; [inversion F; reflexivity|].
  cbn [truthy]. rewrite adf_to_text_list. now apply process_plain.
Qed.

(** X22. A node of an unrecognized type (a paragraph, a document) that
    stands first in a sequence does not show: when neither its content
    nor the siblings after it hold a code-marked text node and all of
    them convert to a string or to the absent value, the sequence
    converts as the elements of the content followed by the siblings,
    so that the end of a paragraph counts as one newline, like the
    boundary between two inline nodes. *)
Theorem X22_wrapper_boundary (node : list (string * value))
  (xs ys : list value) :
  recognized (dict_get node "type") = false ->
  lookup node "content" = Some (VList xs) ->
  Forall (fun x => is_code_item x = Ok false
                   /\ returns_text (adf_to_text x)) (xs ++ ys) ->
  adf_to_text (VList (VDict node :: ys)) = adf_to_text (VList (xs ++ ys)).
Proof.
  intros Hty Hc H. apply Forall_app in H. destruct H as [Hx Hy].
  destruct (returns_text_results adf_to_text xs Hx) as (rx & Fx).
  destruct (returns_text_results adf_to_text ys Hy) as (ry & Fy).
  rewrite (adf_to_text_list (xs ++ ys)).
  rewrite (process_plain adf_to_text (xs ++ ys) (rx ++ ry))
    by (now apply Forall2_app).
  rewrite (adf_to_text_list (VDict node :: ys)).
  rewrite (process_plain adf_to_text (VDict node :: ys)
             (joined (kept_texts rx) :: ry)).
  - rewrite kept_texts_joined by apply kept_texts_not_empty.
    now rewrite kept_texts_app.
  - constructor; [|exact Fy]. split; [now apply not_recognized_not_code|].
    split; [now apply (wrapper_converts node xs rx) | apply joined_is_text].
Qed.

Lemma X22_wrapper_boundary_witness :
  adf_to_text
    (VList [VDict [("type", VStr "paragraph");
                   ("content", VList [plain "Hello"; plain "world"])];
            VDict [("type", VStr "paragraph");
                   ("content", VList [plain "Bye"])]])
  = adf_to_text
      (VList ([plain "Hello"; plain "world"]
              ++ [VDict [("type", VStr "paragraph");
                         ("content", VList [plain "Bye"])]])).
Proof.
  apply (X22_wrapper_boundary
           [("type", VStr "paragraph");
            ("content", VList [plain "Hello"; plain "world"])]
           [plain "Hello"; plain "world"]
           [VDict [("type", VStr "paragraph");
                   ("content", VList [plain "Bye"])]]);
    [reflexivity | reflexivity|].
  repeat constructor; eexists; split; reflexivity.
Defined.

(** X23. Nothing is swallowed in a sequence: when an element that is
    not code raises, after elements that are not code and convert to a
    string or to the absent value, the conversion of the sequence
    raises the same exception, whatever follows the element. *)
Theorem X23_exception_leaves_sequence (before rest : list value)
  (bad : value) (e : exn) :
  Forall (fun x => is_code_item x = Ok false
                   /\ returns_text (adf_to_text x)) before ->
  is_code_item bad = Ok false -> adf_to_text bad = Raise e ->
  adf_to_text (VList (before ++ bad :: rest)) = Raise e.
Proof.
  intros Hb Hc Hbad.
  destruct (returns_text_results adf_to_text before Hb) as (rs & F).
  rewrite adf_to_text_list. unfold _process_content_list.
  destruct (before ++ bad :: rest)%list as [|y l] eqn:E;
    [now destruct before|].
  rewrite <- E, merge_items_app.
  rewrite (merge_items_plain adf_to_text before rs F []). cbn [bind].
  cbn [merge_items]. rewrite Hc. cbn [bind]. rewrite Hbad. reflexivity.
Qed.

Lemma X23_exception_leaves_sequence_witness :
  adf_to_text
    (VList ([plain "a"]
            ++ VDict [("type", VStr "status"); ("attrs", VNone)]
            :: [VInt 5; plain "b"]))
  = Raise AttributeError.
Proof.
  apply (X23_exception_leaves_sequence [plain "a"] [VInt 5; plain "b"]
           (VDict [("type", VStr "status"); ("attrs", VNone)])
           AttributeError); [|reflexivity | reflexivity].
  repeat constructor. eexists; split; reflexivity.
Defined.

(** ** The date rule on integers *)

(** X24. The date rule on the timestamps that it handles.  A non-zero
    integer [T] that counts the milliseconds of an instant of the years
    1000 to 9999 gives that instant's date as YYYY-MM-DD in UTC; an
    integer [T] outside the years 1 to 9999, but within the platform's
    time, gives [str(T)]; a string [T] that [int] does not parse gives
    [T] unchanged; a missing timestamp and a missing [attrs] give the
    empty string.  In particular 1582152559000 gives 2020-02-19 and the
    string not-a-number gives itself. *)
Theorem X24_date_rule :
  (forall ms : Z,
      ms <> 0 -> year_1000_ms <= ms <= datetime_max_ms ->
      adf_to_text (date_node (VInt ms))
      = Ok (VStr (strftime_Ymd (civil_from_days (ms / 1000 / 86400)))))
  /\ (forall ms : Z,
         time_min_ms <= ms < time_sup_ms ->
         ms < datetime_min_ms \/ datetime_max_ms < ms ->
         exists s, str_of_int ms = Ok s
                   /\ adf_to_text (date_node (VInt ms)) = Ok (VStr s))
  /\ (forall s : string,
         int_of_str s = Raise ValueError ->
         adf_to_text (date_node (VStr s)) = Ok (VStr s))
  /\ adf_to_text (VDict [("type", VStr "date"); ("attrs", VDict [])])
     = Ok (VStr EmptyString)
  /\ adf_to_text (VDict [("type", VStr "date")]) = Ok (VStr EmptyString)
  /\ adf_to_text (date_node (VInt 1582152559000)) = Ok (VStr "2020-02-19")
  /\ adf_to_text (date_node (VStr "not-a-number"))
     = Ok (VStr "not-a-number").
Proof.
  split; [|split; [|split; [|repeat split]]].
  - intros ms Hnz Hr. apply year_1000_in_range in Hr.
    rewrite adf_to_text_date_node. unfold date_text.
    simpl truthy. destruct (Z.eqb_spec ms 0); [contradiction|].
    simpl. now rewrite (fromtimestamp_ms_in_range ms Hr).
  - intros ms Ht Hd.
    destruct (str_of_int_ok ms) as [s Hs].
    { eapply Z.lt_le_trans; [|exact pow2_75_le_limit].
      unfold time_min_ms, time_sup_ms in Ht. rewrite pow2_63 in Ht.
      change (2 ^ 75) with 37778931862957161709568. lia. }
    exists s. split; [exact Hs|].
    rewrite adf_to_text_date_node. unfold date_text. simpl truthy.
    destruct (Z.eqb_spec ms 0) as [E|_].
    { unfold datetime_min_ms, datetime_max_ms in Hd. lia. }
    simpl. rewrite (fromtimestamp_ms_out_of_range ms Ht Hd).
    now rewrite Hs.
  - intros s Hs. rewrite adf_to_text_date_node. unfold date_text.
    destruct s as [|c s]; [reflexivity|].
    simpl truthy. cbv iota. simpl py_int. rewrite Hs. reflexivity.
Qed.

Lemma X24_date_rule_witness :
  adf_to_text (date_node (VInt 86400000)) = Ok (VStr "1970-01-02")
  /\ adf_to_text (date_node (VInt 253402300800000))
     = Ok (VStr "253402300800000")
  /\ adf_to_text (date_node (VStr "12_")) = Ok (VStr "12_").
Proof.
  destruct X24_date_rule as (Hdate & Hout & Hstr & _).
  split; [|split].
  - apply (Hdate 86400000); unfold year_1000_ms, datetime_max_ms; lia.
  - destruct (Hout 253402300800000) as (s & Hs & E).
    + unfold time_min_ms, time_sup_ms. rewrite pow2_63. lia.
    + right. unfold datetime_max_ms. lia.
    + rewrite E. vm_compute in Hs. congruence.
  - apply (Hstr "12_"). reflexivity.
Defined.
